(** * RiskLens front end: a shallow embedding of the React components

    The repository holds the Next.js front end of RiskLens (the analytics
    engine runs behind an HTTP API).  This development embeds the pure parts
    of the components -- event handlers as state transformers, render-time
    computations as functions -- and proves properties of them.

    A JavaScript number is modelled by the rational value of the double, or
    one of the three non-finite values.  The arithmetic of the components
    rounds as IEEE 754 binary64 does ([JS.round]); the sign of zero is not
    represented.  Where a definition computes on rationals directly, its
    comment says so. *)

From Stdlib Require Import QArith Qabs Qround Qpower ZArith Lia Lqa List.
From Stdlib Require Import Sorting.Permutation Sorting.Sorted.
From Stdlib Require Import Ascii.
From stdpp Require Import gmap strings list pretty.
Import ListNotations.

(** ** JavaScript values and built-ins used by the components *)

Module JS.

(** A JavaScript Number: a finite value, or NaN, +Infinity, -Infinity. *)
Inductive number : Type :=
| Fin (q : Q)
| NaN
| PosInf
| NegInf.

(** The result of [Math.floor]: an integral Number or a non-finite one. *)
Inductive integral : Type :=
| Int (z : Z)
| INaN
| IPosInf
| INegInf.

(** *** Arithmetic on doubles

    The result of an operation on finite operands is the exact result
    rounded to the nearest double, the one with an even significand on a
    tie; from 2^1024 on it is an infinity. *)

(** The integer nearest to [a / b], the even one on a tie, for [0 <= a]. *)
Definition nearest_even (a : Z) (b : positive) : Z :=
  let q := (a / Z.pos b)%Z in
  match (2 * (a mod Z.pos b) ?= Z.pos b)%Z with
  | Lt => q
  | Gt => (q + 1)%Z
  | Eq => if Z.even q then q else (q + 1)%Z
  end.

(** [n / d] divided by [2 ^ e], as a fraction. *)
Definition shifted (n : Z) (d : positive) (e : Z) : Z * positive :=
  if (0 <=? e)%Z then (n, (d * Z.to_pos (2 ^ e))%positive)
  else ((n * 2 ^ (- e))%Z, d).

(** The exponent [k] with [2 ^ k <= n / d < 2 ^ (k + 1)], for [0 < n]. *)
Definition binade (n : Z) (d : positive) : Z :=
  let k := (Z.log2 n - Z.log2 (Z.pos d))%Z in
  let '(a, b) := shifted n d k in
  if (a <? Z.pos b)%Z then (k - 1)%Z else k.

(** The double nearest to [n / d], for [0 < n]: a significand of at most
    53 bits times a power of two that is at least [2 ^ -1074]. *)
Definition nearest (n : Z) (d : positive) : number :=
  let e := Z.max (binade n d - 52) (-1074) in
  let '(a, b) := shifted n d e in
  let m := nearest_even a b in
  if (0 <=? e)%Z then
    if (2 ^ 1024 <=? m * 2 ^ e)%Z then PosInf
    else Fin (inject_Z (m * 2 ^ e))
  else Fin (m # Z.to_pos (2 ^ (- e))).

Definition opposite (x : number) : number :=
  match x with
  | Fin q => Fin (- q)
  | PosInf => NegInf
  | NegInf => PosInf
  | NaN => NaN
  end.

(** The double nearest to a rational. *)
Definition round (q : Q) : number :=
  match Qnum q with
  | Z0 => Fin 0
  | Zpos n => nearest (Zpos n) (Qden q)
  | Zneg n => opposite (nearest (Zpos n) (Qden q))
  end.
Arguments round : simpl never.
Arguments nearest : simpl never.

(** Half the relative distance between neighbouring doubles, and half the
    smallest positive double: the bounds on the error of [round]. *)
Definition epsilon : Q := (2 ^ (-53))%Q.
Definition tiny : Q := (2 ^ (-1075))%Q.

(** [a / b] on finite operands: dividing by zero gives NaN or an infinity
    (the zero is taken as +0). *)
Definition div (a b : Q) : number :=
  if Qeq_bool b 0 then
    match (a ?= 0)%Q with
    | Eq => NaN
    | Gt => PosInf
    | Lt => NegInf
    end
  else round (a / b).

(** [Math.floor] *)
Definition floor (x : number) : integral :=
  match x with
  | Fin q => Int (Qfloor q)
  | NaN => INaN
  | PosInf => IPosInf
  | NegInf => INegInf
  end.

(** [Math.min(x, k)] for an integer constant [k]. *)
Definition min (x : integral) (k : Z) : integral :=
  match x with
  | Int z => Int (Z.min z k)
  | INaN => INaN
  | IPosInf => Int k
  | INegInf => INegInf
  end.

(** [x >= k] and [x < k] for an integer constant [k]; false on NaN. *)
Definition geZ (x : integral) (k : Z) : bool :=
  match x with
  | Int z => (k <=? z)%Z
  | IPosInf => true
  | INaN | INegInf => false
  end.

Definition ltZ (x : integral) (k : Z) : bool :=
  match x with
  | Int z => (z <? k)%Z
  | INegInf => true
  | INaN | IPosInf => false
  end.

(** [x > y] on Numbers; false as soon as one side is NaN. *)
Definition gt (x y : number) : bool :=
  match x, y with
  | NaN, _ | _, NaN => false
  | PosInf, PosInf => false
  | PosInf, _ => true
  | _, PosInf => false
  | NegInf, _ => false
  | Fin _, NegInf => true
  | Fin a, Fin b => negb (Qle_bool a b)
  end.

(** [x <= y] on Numbers; false as soon as one side is NaN. *)
Definition le (x y : number) : bool :=
  match x, y with
  | NaN, _ | _, NaN => false
  | NegInf, _ => true
  | _, PosInf => true
  | PosInf, _ => false
  | Fin _, NegInf => false
  | Fin a, Fin b => Qle_bool a b
  end.

(** [Number.isFinite] on a possibly-null value. *)
Definition isFinite (x : option number) : bool :=
  match x with
  | Some (Fin _) => true
  | _ => false
  end.

(** [isNaN] on a Number. *)
Definition isNaN (x : number) : bool :=
  match x with
  | NaN => true
  | _ => false
  end.

(** An array that may have empty slots: [None] is a hole, as an assignment
    past the end of an array leaves them. *)
Definition array (A : Type) : Type := list (option A).

(** The array without holes that holds the elements of a list. *)
Definition dense {A : Type} (l : list A) : array A := map Some l.

(** The elements an array holds, in order. *)
Definition present {A : Type} (a : array A) : list A := omap id a.

(** [arr.filter((_, i) => keep i)]: the callback sees the element index; it
    is not called for a hole, and the result has no holes. *)
Fixpoint filter_from {A : Type} (keep : nat -> bool) (i : nat)
         (a : list (option A)) : list A :=
  match a with
  | [] => []
  | Some x :: a' =>
      if keep i then x :: filter_from keep (S i) a'
      else filter_from keep (S i) a'
  | None :: a' => filter_from keep (S i) a'
  end.

Definition filter_index {A : Type} (keep : nat -> bool) (a : array A)
  : list A :=
  filter_from keep 0 a.


(** *** Strings *)

(** White space, among the ASCII characters: space, tab, line feed,
    vertical tab, form feed and carriage return.  The white space beyond
    ASCII that [trim] and [parseFloat] also skip is not modelled. *)
Definition is_ws (c : ascii) : bool :=
  let n := nat_of_ascii c in
  (n =? 32)%nat || ((9 <=? n)%nat && (n <=? 13)%nat).

Fixpoint trimStart (s : string) : string :=
  match s with
  | String c s' => if is_ws c then trimStart s' else s
  | EmptyString => EmptyString
  end.

Fixpoint trimEnd (s : string) : string :=
  match s with
  | String c s' =>
      match trimEnd s' with
      | EmptyString => if is_ws c then EmptyString else String c EmptyString
      | r => String c r
      end
  | EmptyString => EmptyString
  end.

(** [s.trim()] *)
Definition trim (s : string) : string := trimEnd (trimStart s).

Definition upper (c : ascii) : ascii :=
  let n := nat_of_ascii c in
  if ((97 <=? n)%nat && (n <=? 122)%nat) then ascii_of_nat (n - 32) else c.

(** [s.toUpperCase()], on ASCII letters; other bytes are kept. *)
Fixpoint toUpperCase (s : string) : string :=
  match s with
  | String c s' => String (upper c) (toUpperCase s')
  | EmptyString => EmptyString
  end.

(** Truthiness of a string: only the empty string is falsy. *)
Definition truthy (s : string) : bool :=
  match s with
  | EmptyString => false
  | _ => true
  end.

(** *** parseFloat

    The longest prefix of the trimmed input that is a decimal literal
    ([+-]? then [Infinity], or digits with an optional fraction and an
    optional exponent) is converted; with no such prefix the result is
    NaN.  The value is computed on the rationals directly: it is the number
    the literal denotes, not rounded to a double, so a literal beyond the
    range of the doubles does not overflow. *)

Definition digit_of (c : ascii) : option Z :=
  let n := nat_of_ascii c in
  if ((48 <=? n)%nat && (n <=? 57)%nat) then Some (Z.of_nat (n - 48))
  else None.

(** Reads a run of decimal digits: its value, its length, and the rest. *)
Fixpoint digits (s : string) (acc : Z) (len : nat) : Z * nat * string :=
  match s with
  | String c s' =>
      match digit_of c with
      | Some d => digits s' (10 * acc + d)%Z (S len)
      | None => (acc, len, s)
      end
  | EmptyString => (acc, len, s)
  end.

Fixpoint strip_prefix (p s : string) : option string :=
  match p, s with
  | EmptyString, _ => Some s
  | String a p', String b s' =>
      if Ascii.eqb a b then strip_prefix p' s' else None
  | String _ _, EmptyString => None
  end.

(** The exponent part [[eE][+-]?digits], 0 when absent or incomplete. *)
Definition exponent (s : string) : Z :=
  match s with
  | String c s' =>
      if Ascii.eqb c "e" || Ascii.eqb c "E" then
        let '(neg, s'') :=
          match s' with
          | String "-" r => (true, r)
          | String "+" r => (false, r)
          | _ => (false, s')
          end in
        let '(e, len, _) := digits s'' 0%Z 0%nat in
        match len with
        | O => 0%Z
        | S _ => if neg then (- e)%Z else e
        end
      else 0%Z
  | EmptyString => 0%Z
  end.

Definition scale (m e : Z) : Q := Qred (inject_Z m * Qpower 10 e).

Definition parse_unsigned (s : string) : option number :=
  match strip_prefix "Infinity" s with
  | Some _ => Some PosInf
  | None =>
      let '(ip, ni, r1) := digits s 0%Z 0%nat in
      match r1 with
      | String "." r2 =>
          let '(m, nf, r3) := digits r2 ip 0%nat in
          match ni, nf with
          | O, O => None
          | _, _ => Some (Fin (scale m (exponent r3 - Z.of_nat nf)))
          end
      | _ =>
          match ni with
          | O => None
          | S _ => Some (Fin (scale ip (exponent r1)))
          end
      end
  end.

Definition negate (x : number) : number :=
  match x with
  | Fin q => Fin (Qred (- q))
  | NaN => NaN
  | PosInf => NegInf
  | NegInf => PosInf
  end.

Definition parseFloat (s : string) : number :=
  let t := trimStart s in
  let '(neg, u) :=
    match t with
    | String "-" r => (true, r)
    | String "+" r => (false, r)
    | _ => (false, t)
    end in
  match parse_unsigned u with
  | Some x => if neg then negate x else x
  | None => NaN
  end.

(** [parseFloat(v)] for a value that may be [undefined]: the argument is
    first converted to the string "undefined", which is not a number. *)
Definition parseFloat_any (v : option string) : number :=
  match v with
  | Some s => parseFloat s
  | None => NaN
  end.

(** *** Number.prototype.toFixed

    For a finite [x]: the integer [n] with [n / 10^f] closest to [|x|]
    (the larger on a tie), printed with [f] fraction digits after the sign.
    The exponent form used for magnitudes of 10^21 and more is not
    modelled. *)

Fixpoint pad_left (width : nat) (s : string) : string :=
  match width with
  | O => s
  | S w => if (String.length s <? width)%nat then pad_left w ("0" +:+ s) else s
  end.

Definition toFixed (x : number) (f : nat) : string :=
  match x with
  | NaN => "NaN"
  | PosInf => "Infinity"
  | NegInf => "-Infinity"
  | Fin q =>
      let sign := if Qle_bool 0 q then "" else "-" in
      let p := (10 ^ Z.of_nat f)%Z in
      let n := Qfloor (Qabs q * inject_Z p + (1 # 2))%Q in
      let whole := pretty (n / p)%Z in
      match f with
      | O => sign +:+ whole
      | S _ => sign +:+ whole +:+ "." +:+ pad_left f (pretty (n mod p)%Z)
      end
  end.

(** Arithmetic on Numbers, as far as the components use it. *)
Definition mulQ (x : number) (k : Q) : number :=
  match x with
  | Fin q => round (q * k)
  | NaN => NaN
  | PosInf => match (k ?= 0)%Q with Gt => PosInf | Lt => NegInf | Eq => NaN end
  | NegInf => match (k ?= 0)%Q with Gt => NegInf | Lt => PosInf | Eq => NaN end
  end.

(** ToNumber on a possibly-null value: [null] converts to 0. *)
Definition toNumber (v : option number) : number :=
  match v with
  | Some x => x
  | None => Fin 0
  end.

(** The outcome of evaluating an expression that may throw. *)
Inductive outcome (A : Type) : Type :=
| Ok (a : A)
| TypeError.
Arguments Ok {A} a.
Arguments TypeError {A}.

Definition bind {A B : Type} (m : outcome A) (k : A -> outcome B)
  : outcome B :=
  match m with
  | Ok a => k a
  | TypeError => TypeError
  end.

(** [v.toFixed(f)] on a possibly-null receiver: a property access on
    [null] throws. *)
Definition toFixed_on (v : option number) (f : nat) : outcome string :=
  match v with
  | Some x => Ok (toFixed x f)
  | None => TypeError
  end.


(** *** Array.prototype.sort with a comparator

    The comparator returns a Number whose sign orders its arguments; the
    sort is stable, so the result is fixed by the input: an element stays
    before the later elements it does not compare greater than. *)

(** The comparator [(a, b) => key(b) - key(a)], which sorts descending. *)
Definition descending {A : Type} (key : A -> Q) (a b : A) : Q :=
  key b - key a.

(** [a] may stand before [b] in a descending order. *)
Definition notBelow {A : Type} (key : A -> Q) (a b : A) : Prop :=
  (key b <= key a)%Q.

Fixpoint insert_by {A : Type} (cmp : A -> A -> Q) (x : A) (l : list A)
  : list A :=
  match l with
  | [] => [x]
  | y :: l' =>
      if Qle_bool (cmp x y) 0 then x :: y :: l'
      else y :: insert_by cmp x l'
  end.

Fixpoint sort {A : Type} (cmp : A -> A -> Q) (l : list A) : list A :=
  match l with
  | [] => []
  | x :: l' => insert_by cmp x (sort cmp l')
  end.

(** *** Further built-ins *)

Definition lower (c : ascii) : ascii :=
  let n := nat_of_ascii c in
  if ((65 <=? n)%nat && (n <=? 90)%nat) then ascii_of_nat (n + 32) else c.

(** [s.toLowerCase()], on ASCII letters; other bytes are kept. *)
Fixpoint toLowerCase (s : string) : string :=
  match s with
  | String c s' => String (lower c) (toLowerCase s')
  | EmptyString => EmptyString
  end.

(** [s.startsWith(p)] *)
Definition startsWith (s p : string) : bool :=
  match strip_prefix p s with
  | Some _ => true
  | None => false
  end.

(** [x + y] on Numbers. *)
Definition add (x y : number) : number :=
  match x, y with
  | NaN, _ | _, NaN => NaN
  | PosInf, NegInf | NegInf, PosInf => NaN
  | PosInf, _ | _, PosInf => PosInf
  | NegInf, _ | _, NegInf => NegInf
  | Fin a, Fin b => round (a + b)
  end.

(** [x - y] on Numbers. *)
Definition sub (x y : number) : number :=
  match x, y with
  | NaN, _ | _, NaN => NaN
  | PosInf, PosInf | NegInf, NegInf => NaN
  | PosInf, _ | _, NegInf => PosInf
  | NegInf, _ | _, PosInf => NegInf
  | Fin a, Fin b => round (a - b)
  end.

(** The sign of a product with an infinite factor, from the other factor. *)
Definition signed (positive : bool) (k : Q) : number :=
  match (k ?= 0)%Q with
  | Eq => NaN
  | Gt => if positive then PosInf else NegInf
  | Lt => if positive then NegInf else PosInf
  end.

(** [x * y] on Numbers. *)
Definition mul (x y : number) : number :=
  match x, y with
  | NaN, _ | _, NaN => NaN
  | Fin a, Fin b => round (a * b)
  | PosInf, Fin k | Fin k, PosInf => signed true k
  | NegInf, Fin k | Fin k, NegInf => signed false k
  | PosInf, PosInf | NegInf, NegInf => PosInf
  | PosInf, NegInf | NegInf, PosInf => NegInf
  end.

(** [x / y] on Numbers. *)
Definition quot (x y : number) : number :=
  match x, y with
  | NaN, _ | _, NaN => NaN
  | Fin a, Fin b => div a b
  | Fin _, PosInf | Fin _, NegInf => Fin 0
  | PosInf, Fin k => if Qle_bool 0 k then PosInf else NegInf
  | NegInf, Fin k => if Qle_bool 0 k then NegInf else PosInf
  | _, _ => NaN
  end.

(** [x >= y] and [x < y] on Numbers; false as soon as one side is NaN. *)
Definition ge (x y : number) : bool := le y x.

Definition lt (x y : number) : bool := gt y x.

(** [v || 0] for a possibly-missing Number: a missing value, 0 and NaN
    are falsy. *)
Definition orZero (v : option number) : number :=
  match v with
  | Some (Fin q) => if Qeq_bool q 0 then Fin 0 else Fin q
  | Some NaN | None => Fin 0
  | Some x => x
  end.

(** An optional numeric property of an object parsed from JSON, where the
    difference matters: absent ([undefined]), [null], or a number. *)
Inductive optional : Type :=
| Absent
| Null
| Present (x : Q).

(** ToNumber on such a property: [undefined] converts to NaN, [null] to
    0. *)
Definition numberOf (v : optional) : number :=
  match v with
  | Present x => Fin x
  | Null => Fin 0
  | Absent => NaN
  end.

(** [arr[i]] for an integer index: [undefined] outside the array. *)
Definition at_index {A : Type} (l : list A) (i : Z) : option A :=
  if (i <? 0)%Z then None else l !! Z.to_nat i.


End JS.

(** ** lib/utils.ts *)

(** [formatPercent(value, decimals = 2)]:
    [`${(value * 100).toFixed(decimals)}%`] *)
Definition formatPercent (value : JS.number) (decimals : nat) : string :=
  JS.toFixed (JS.mulQ value 100) decimals +:+ "%".

(** ** lib/types.ts

    Values that arrive in a JSON response are finite numbers, carried as [Q];
    where a field may hold [null] or a non-finite value it is an
    [option JS.number], [None] standing for [null]. *)

Inductive asset_class : Type := Equity | Bond | Cash.

Module PortfolioPosition.
Record t : Type := {
  ticker : string;
  quantity : JS.number;
  asset_class : asset_class;
  avg_price : option JS.number;
  purchase_date : option string
}.
End PortfolioPosition.

Module RiskDriver.
Record t : Type := {
  name : string;
  contribution_pct : Q
}.
End RiskDriver.

Module PerformanceMetrics.
Record t : Type := {
  sharpe_ratio : option JS.number;
  sortino_ratio : option JS.number;
  annualized_return : option JS.number;
  risk_free_rate : option JS.number
}.
End PerformanceMetrics.

(** An entry of [CorrelationData.correlations]. *)
Module Correlation.
Record t : Type := {
  ticker1 : string;
  ticker2 : string;
  correlation : Q
}.
End Correlation.

Module CorrelationData.
Record t : Type := {
  tickers : list string;
  correlations : list Correlation.t
}.
End CorrelationData.

Module MonteCarloData.
Record percentiles : Type := {
  p1 : Q;
  p5 : Q;
  p25 : Q;
  p50 : Q;
  p75 : Q;
  p95 : Q;
  p99 : Q
}.
Record distribution : Type := {
  mean : Q;
  std : Q;
  min : Q;
  max : Q;
  pct : percentiles
}.
Record t : Type := {
  mc_var_95 : Q;
  mc_cvar_95 : Q;
  num_simulations : Q;
  confidence_level : Q;
  dist : distribution;
  simulations : list Q
}.
End MonteCarloData.

Module PositionDetail.
Record t : Type := {
  ticker : string;
  quantity : Q;
  current_price : Q;
  value : Q;
  weight : Q;
  volatility : Q;
  risk_contribution_pct : Q;
  marginal_risk : Q;
  avg_price : option Q;
  cost_basis : option Q;
  unrealized_pl : option Q;
  unrealized_pl_pct : JS.optional;
  purchase_date : option string
}.
End PositionDetail.

(** [ret] is the field [return]; the weights are the entries of the
    [weights] object in the order of [Object.entries]. *)
Module OptimalPortfolio.
Record t : Type := {
  weights : list (string * Q);
  ret : option JS.number;
  volatility : option JS.number;
  sharpe : option JS.number
}.
End OptimalPortfolio.

(** ** components/PortfolioForm.tsx *)

Module PortfolioForm.

Record validation : Type := {
  isValid : option bool;
  name : option string;
  message : option string
}.

Record state : Type := {
  ticker : string;
  quantity : string;
  assetClass : asset_class;
  avgPrice : string;
  purchaseDate : string;
  validationState : validation;
  editingIndex : option Z
}.

(** What a handler passes to [onPositionsChange], if anything.  An array
    assignment past the end leaves [holes] empty slots before the new
    element. *)
Inductive change : Type :=
| Unchanged
| Positions (ps : list PortfolioPosition.t)
| Sparse (ps : list PortfolioPosition.t) (holes : nat)
         (p : PortfolioPosition.t).

Definition unvalidated : validation :=
  {| isValid := None; name := None; message := None |}.

(** The fields are emptied; the asset class is kept. *)
Definition reset (st : state) : state :=
  {| ticker := ""; quantity := ""; assetClass := assetClass st;
     avgPrice := ""; purchaseDate := "";
     validationState := unvalidated; editingIndex := None |}.

Definition cancelEdit (st : state) : state := reset st.

Definition newPosition (st : state) : PortfolioPosition.t :=
  {| PortfolioPosition.ticker := JS.toUpperCase (ticker st);
     PortfolioPosition.quantity := JS.parseFloat (quantity st);
     PortfolioPosition.asset_class := assetClass st;
     PortfolioPosition.avg_price :=
       if JS.truthy (avgPrice st) then Some (JS.parseFloat (avgPrice st))
       else None;
     PortfolioPosition.purchase_date :=
       if JS.truthy (purchaseDate st) then Some (purchaseDate st)
       else None |}.

(** [updatedPositions = [...positions]; updatedPositions[i] = p] *)
Definition assign (positions : list PortfolioPosition.t) (i : Z)
           (p : PortfolioPosition.t) : change :=
  if (i <? 0)%Z then Positions positions
  else if (i <? Z.of_nat (length positions))%Z
       then Positions (<[Z.to_nat i := p]> positions)
       else match (Z.to_nat i - length positions)%nat with
            | O => Positions (positions ++ [p])
            | S h => Sparse positions (S h) p
            end.

Definition handleAddPosition (positions : list PortfolioPosition.t) (st : state)
  : change * state :=
  if negb (JS.truthy (ticker st)) || negb (JS.truthy (quantity st))
  then (Unchanged, st)
  else match isValid (validationState st) with
       | Some false => (Unchanged, st)
       | _ =>
           match editingIndex st with
           | Some i => (assign positions i (newPosition st), reset st)
           | None => (Positions (positions ++ [newPosition st]), reset st)
           end
       end.

(** The condition under which [handleAddPosition] goes on: ticker and
    quantity are non-empty and the ticker has not been flagged invalid. *)
Definition accepts (st : state) : Prop :=
  JS.truthy (ticker st) = true
  /\ JS.truthy (quantity st) = true
  /\ isValid (validationState st) <> Some false.

(** The array that [onPositionsChange] receives. *)
Definition passed (c : change) : option (JS.array PortfolioPosition.t) :=
  match c with
  | Unchanged => None
  | Positions ps => Some (JS.dense ps)
  | Sparse ps holes p => Some (JS.dense ps ++ repeat None holes ++ [Some p])
  end.

Definition handleRemovePosition (positions : JS.array PortfolioPosition.t)
           (st : state) (index : Z) : list PortfolioPosition.t * state :=
  (JS.filter_index (fun i => negb (Z.of_nat i =? index)%Z) positions,
   match editingIndex st with
   | Some e => if (e =? index)%Z then cancelEdit st else st
   | None => st
   end).

(** *** Editing a position *)

Section Edit.

(** [Number.prototype.toString]: the shortest-digits algorithm that prints a
    Number is not modelled. *)
Variable toString : JS.number -> string.

(** [handleEditPosition]: the fields of [positions[index]] are loaded into
    the form; reading a field of a missing element throws. *)
Definition handleEditPosition (positions : list PortfolioPosition.t)
           (st : state) (index : Z) : JS.outcome state :=
  match JS.at_index positions index with
  | None => JS.TypeError
  | Some position =>
      JS.Ok
        {| ticker := PortfolioPosition.ticker position;
           quantity := toString (PortfolioPosition.quantity position);
           assetClass := PortfolioPosition.asset_class position;
           avgPrice :=
             match PortfolioPosition.avg_price position with
             | Some a => if JS.truthy (toString a) then toString a else ""
             | None => ""
             end;
           purchaseDate :=
             match PortfolioPosition.purchase_date position with
             | Some d => if JS.truthy d then d else ""
             | None => ""
             end;
           validationState :=
             {| isValid := Some true; name := Some ""; message := None |};
           editingIndex := Some index |}
  end.

End Edit.

(** *** The summary above the list *)

(** [positions.reduce((sum, pos) => sum + pos.quantity * (pos.avg_price || 0), 0)] *)
Definition totalInvestment (positions : list PortfolioPosition.t)
  : JS.number :=
  fold_left
    (fun sum pos =>
       JS.add sum (JS.mul (PortfolioPosition.quantity pos)
                          (JS.orZero (PortfolioPosition.avg_price pos))))
    positions (JS.Fin 0).

(** [riskData?.total_value || 0], from the total value of the analysis, if
    there is one. *)
Definition currentPortfolioValue (total_value : option JS.number)
  : JS.number :=
  JS.orZero total_value.

Definition netGain (positions : list PortfolioPosition.t)
           (total_value : option JS.number) : JS.number :=
  JS.sub (currentPortfolioValue total_value) (totalInvestment positions).

(** [totalInvestment > 0 ? (netGain / totalInvestment) * 100 : 0] *)
Definition netGainPct (positions : list PortfolioPosition.t)
           (total_value : option JS.number) : JS.number :=
  if JS.gt (totalInvestment positions) (JS.Fin 0)
  then JS.mul (JS.quot (netGain positions total_value)
                       (totalInvestment positions))
              (JS.Fin 100)
  else JS.Fin 0.

End PortfolioForm.

(** ** components/ImportModal.tsx *)

Module ImportModal.

Record mapping : Type := {
  ticker : string;
  quantity : string;
  type : string
}.

Inductive result : Type :=
| Error (msg : string)
| Import (positions : list PortfolioPosition.t).

(** The callback of [parsedData.map]; [None] is the [null] that the
    following [filter] drops.  A parsed row maps a header to its cell. *)
Definition parseRow (m : mapping) (row : gmap string string)
  : option PortfolioPosition.t :=
  let ticker := (fun s => JS.toUpperCase (JS.trim s)) <$> row !! ticker m in
  let quantity := JS.parseFloat_any (row !! quantity m) in
  match ticker with
  | None => None
  | Some t =>
      if negb (JS.truthy t) || JS.isNaN quantity then None
      else Some {| PortfolioPosition.ticker := t;
                   PortfolioPosition.quantity := quantity;
                   PortfolioPosition.asset_class := Equity;
                   PortfolioPosition.avg_price := None;
                   PortfolioPosition.purchase_date := None |}
  end.

Definition handleConfirm (m : mapping) (parsedData : list (gmap string string))
  : result :=
  if negb (JS.truthy (ticker m)) || negb (JS.truthy (quantity m))
  then Error "Please map Ticker and Quantity columns"
  else
    let positions := omap (parseRow m) parsedData in
    match positions with
    | [] => Error "No valid positions found"
    | _ => Import positions
    end.

(** *** Reading the file *)

Inductive step : Type := upload | preview.

Record state : Type := {
  current : step;
  parsedData : list (gmap string string);
  columns : mapping;
  error : option string
}.

(** What the CSV parser hands to [complete]: its errors, the rows, and the
    header fields, if it found any. *)
Record results : Type := {
  errors : list string;
  data : list (gmap string string);
  fields : option (list string)
}.

Definition tickerNames : list string := ["ticker"; "symbol"; "asset"; "code"].

Definition quantityNames : list string :=
  ["quantity"; "qty"; "shares"; "units"].

(** [headers.find(h => names.includes(h.toLowerCase())) || ''] *)
Definition detect (names headers : list string) : string :=
  match List.find (fun h => existsb (String.eqb (JS.toLowerCase h)) names)
                  headers with
  | Some h => h
  | None => ""
  end.

(** The [complete] callback of [handleFileUpload]. *)
Definition complete (st : state) (r : results) : state :=
  match errors r with
  | _ :: _ =>
      {| current := current st; parsedData := parsedData st;
         columns := columns st; error := Some "Error parsing CSV" |}
  | [] =>
      let headers := match fields r with Some f => f | None => [] end in
      {| current := preview;
         parsedData := data r;
         columns := {| ticker := detect tickerNames headers;
                       quantity := detect quantityNames headers;
                       type := type (columns st) |};
         error := None |}
  end.

(** [handleClose]: back to the upload step, without rows or error; the
    column mapping stays. *)
Definition handleClose (st : state) : state :=
  {| current := upload; parsedData := []; columns := columns st;
     error := None |}.

(** [handleConfirm] on the state of the modal: the positions handed to
    [onImport], if any, and the state afterwards. *)
Definition confirm (st : state) : option (list PortfolioPosition.t) * state :=
  match handleConfirm (columns st) (parsedData st) with
  | Error msg =>
      (None, {| current := current st; parsedData := parsedData st;
                columns := columns st; error := Some msg |})
  | Import positions => (Some positions, handleClose st)
  end.

(** A text of white space only. *)
Fixpoint blank (s : string) : bool :=
  match s with
  | EmptyString => true
  | String c s' => JS.is_ws c && blank s'
  end.

(** A text that is empty or starts with a character that is no white
    space. *)
Definition headed (s : string) : bool :=
  match s with
  | EmptyString => true
  | String c _ => negb (JS.is_ws c)
  end.

End ImportModal.

(** ** app/analysis/page.tsx *)

Module PortfolioAnalysis.

(** [removePosition]: [setPositions(positions.filter((_, i) => i !== index))] *)
Definition removePosition (positions : JS.array PortfolioPosition.t)
           (index : Z) : list PortfolioPosition.t :=
  JS.filter_index (fun i => negb (Z.of_nat i =? index)%Z) positions.

(** [handleImport]: [setPositions(prev => [...prev, ...importedPositions])] *)
Definition handleImport (prev importedPositions : list PortfolioPosition.t)
  : list PortfolioPosition.t :=
  prev ++ importedPositions.

(** The positions sent by [analyzePortfolio] in the request body; nothing
    is sent for an empty portfolio. *)
Definition analyzePortfolio (positions : list PortfolioPosition.t)
  : option (list PortfolioPosition.t) :=
  match positions with
  | [] => None
  | _ =>
      Some (map (fun p =>
                   {| PortfolioPosition.ticker := PortfolioPosition.ticker p;
                      PortfolioPosition.quantity :=
                        PortfolioPosition.quantity p;
                      PortfolioPosition.asset_class :=
                        PortfolioPosition.asset_class p;
                      PortfolioPosition.avg_price :=
                        PortfolioPosition.avg_price p;
                      PortfolioPosition.purchase_date :=
                        PortfolioPosition.purchase_date p |})
                positions)
  end.

End PortfolioAnalysis.

(** The tickers of a portfolio, in order. *)
Definition tickers (positions : list PortfolioPosition.t) : list string :=
  map PortfolioPosition.ticker positions.

(** ** components/MonteCarloVaR.tsx *)

Module MonteCarloVaR.

Record bin : Type := {
  value : JS.number;
  count : nat
}.

Definition binCount : Z := 50.

(** [(max - min) / binCount] *)
Definition binSize (data : MonteCarloData.t) : JS.number :=
  JS.quot (JS.sub (JS.Fin (MonteCarloData.max (MonteCarloData.dist data)))
                  (JS.Fin (MonteCarloData.min (MonteCarloData.dist data))))
          (JS.Fin (inject_Z binCount)).

(** The bins pushed by the first loop, all with count 0:
    [value: min + (i + 0.5) * binSize]. *)
Definition emptyBins (data : MonteCarloData.t) : list bin :=
  map (fun i : nat =>
         {| value :=
              JS.add (JS.Fin (MonteCarloData.min (MonteCarloData.dist data)))
                     (JS.mul (JS.add (JS.Fin (inject_Z (Z.of_nat i)))
                                     (JS.Fin (1 # 2)))
                             (binSize data));
            count := 0 |})
      (seq 0 (Z.to_nat binCount)).

(** [(sim - min) / binSize] *)
Definition quotient (data : MonteCarloData.t) (sim : Q) : JS.number :=
  JS.quot (JS.sub (JS.Fin sim)
                  (JS.Fin (MonteCarloData.min (MonteCarloData.dist data))))
          (binSize data).

(** [Math.min(Math.floor((sim - min) / binSize), binCount - 1)] *)
Definition binIndex (data : MonteCarloData.t) (sim : Q) : JS.integral :=
  JS.min (JS.floor (quotient data sim)) (binCount - 1).

(** [bins[i].count++]: reading [count] of a missing element throws. *)
Definition increment (bins : list bin) (i : JS.integral)
  : JS.outcome (list bin) :=
  match i with
  | JS.Int z =>
      if (z <? 0)%Z then JS.TypeError
      else match bins !! Z.to_nat z with
           | Some b =>
               JS.Ok (<[Z.to_nat z := {| value := value b;
                                         count := S (count b) |}]> bins)
           | None => JS.TypeError
           end
  | _ => JS.TypeError
  end.

(** The body of [data.simulations.forEach]. *)
Definition countSim (data : MonteCarloData.t) (bins : list bin) (sim : Q)
  : JS.outcome (list bin) :=
  let i := binIndex data sim in
  if JS.geZ i 0 && JS.ltZ i binCount then increment bins i
  else JS.Ok bins.

Definition createHistogram (data : MonteCarloData.t) : JS.outcome (list bin) :=
  fold_left (fun acc sim => JS.bind acc (fun bins => countSim data bins sim))
            (MonteCarloData.simulations data)
            (JS.Ok (emptyBins data)).

(** The bin in which a simulation is counted, if it is counted. *)
Definition binOf (data : MonteCarloData.t) (sim : Q) : option nat :=
  match binIndex data sim with
  | JS.Int z => if (0 <=? z)%Z && (z <? binCount)%Z then Some (Z.to_nat z)
                else None
  | _ => None
  end.

(** The effect of [count++] on a bin. *)
Definition bump (b : bin) : bin :=
  {| value := value b; count := S (count b) |}.

Definition inBin (data : MonteCarloData.t) (k : nat) (sim : Q) : bool :=
  match binOf data sim with
  | Some j => (j =? k)%nat
  | None => false
  end.

Definition countAt (bins : list bin) (k : nat) : nat :=
  match bins !! k with
  | Some b => count b
  | None => 0
  end.

Definition counted (data : MonteCarloData.t) (sim : Q) : bool :=
  match binOf data sim with
  | Some _ => true
  | None => false
  end.

Definition total (bins : list bin) : nat :=
  fold_right (fun b n => (count b + n)%nat) 0%nat bins.

End MonteCarloVaR.

(** ** components/CorrelationHeatmap.tsx *)

Module CorrelationHeatmap.

Definition getCorrelationColor (correlation : JS.number) : string :=
  if JS.gt correlation (JS.Fin (7 # 10)) then "bg-red-500"
  else if JS.gt correlation (JS.Fin (3 # 10)) then "bg-orange-400"
  else if JS.gt correlation (JS.Fin 0) then "bg-yellow-300"
  else if JS.gt correlation (JS.Fin (- (3 # 10))) then "bg-blue-300"
  else if JS.gt correlation (JS.Fin (- (7 # 10))) then "bg-blue-400"
  else "bg-blue-500".

Definition getTextColor (correlation : Q) : string :=
  if JS.gt (JS.Fin (Qabs correlation)) (JS.Fin (1 # 2)) then "text-white"
  else "text-slate-900".

(** [`${ticker1}-${ticker2}`] *)
Definition key (ticker1 ticker2 : string) : string :=
  ticker1 +:+ "-" +:+ ticker2.

(** [correlations.forEach(item => corrMap.set(key, item.correlation))] *)
Definition corrMap (correlations : list Correlation.t) : gmap string Q :=
  fold_left
    (fun m item =>
       <[key (Correlation.ticker1 item) (Correlation.ticker2 item)
         := Correlation.correlation item]> m)
    correlations ∅.

(** [corrMap.get(key) || 0]: a missing entry and a zero both give 0. *)
Definition lookup (m : gmap string Q) (ticker1 ticker2 : string) : Q :=
  match m !! key ticker1 ticker2 with
  | Some c => if Qeq_bool c 0 then 0 else c
  | None => 0
  end.

Record cell : Type := {
  correlation : Q;
  bgColor : string;
  textColor : string;
  text : string
}.

Definition renderCell (data : CorrelationData.t) (ticker1 ticker2 : string)
  : cell :=
  let c := lookup (corrMap (CorrelationData.correlations data))
                  ticker1 ticker2 in
  {| correlation := c;
     bgColor := getCorrelationColor (JS.Fin c);
     textColor := getTextColor c;
     text := JS.toFixed (JS.Fin c) 2 |}.

(** The table body: one row per ticker, one cell per ticker. *)
Definition renderRows (data : CorrelationData.t) : list (list cell) :=
  map (fun ticker1 =>
         map (fun ticker2 => renderCell data ticker1 ticker2)
             (CorrelationData.tickers data))
      (CorrelationData.tickers data).

Definition itemKey (item : Correlation.t) : string :=
  key (Correlation.ticker1 item) (Correlation.ticker2 item).

(** A ticker without the separator character. *)
Fixpoint hyphenFree (ticker : string) : bool :=
  match ticker with
  | EmptyString => true
  | String c rest => negb (Ascii.eqb c "-") && hyphenFree rest
  end.

Definition blue (color : string) : Prop :=
  color = "bg-blue-300" \/ color = "bg-blue-400" \/ color = "bg-blue-500".

End CorrelationHeatmap.

(** ** components/RiskCharts.tsx *)

Module RiskCharts.

Record slice : Type := { slice_name : string; slice_value : Q }.
Record bar : Type := { bar_name : string; risk : Q }.

(** The comparators [(a, b) => b.weight - a.weight] and
    [(a, b) => b.risk_contribution_pct - a.risk_contribution_pct], computed
    on the rationals directly: the sort uses the sign of the difference
    only, which the rounded difference of two doubles shares. *)
Definition byWeight (a b : PositionDetail.t) : Q :=
  PositionDetail.weight b - PositionDetail.weight a.

Definition byRisk (a b : PositionDetail.t) : Q :=
  PositionDetail.risk_contribution_pct b
  - PositionDetail.risk_contribution_pct a.

Definition pieData (positions : list PositionDetail.t) : list slice :=
  map (fun pos => {| slice_name := PositionDetail.ticker pos;
                     slice_value := PositionDetail.weight pos |})
      (JS.sort byWeight positions).

Definition riskData (positions : list PositionDetail.t) : list bar :=
  map (fun pos => {| bar_name := PositionDetail.ticker pos;
                     risk := PositionDetail.risk_contribution_pct pos |})
      (JS.sort byRisk positions).

End RiskCharts.

(** ** components/PerformanceMetrics.tsx and the other readers of the ratios *)

Module PerformanceMetricsComponent.

Record level : Type := { label : string; color : string; bgColor : string }.

(** The comparisons convert a [null] ratio to 0. *)
Definition getRatioLevel (ratio : option JS.number) : level :=
  let r := JS.toNumber ratio in
  if JS.gt r (JS.Fin (3 # 2)) then
    {| label := "Excellent"; color := "text-green-700";
       bgColor := "bg-green-50" |}
  else if JS.gt r (JS.Fin 1) then
    {| label := "Good"; color := "text-blue-700"; bgColor := "bg-blue-50" |}
  else if JS.gt r (JS.Fin (1 # 2)) then
    {| label := "Fair"; color := "text-yellow-700";
       bgColor := "bg-yellow-50" |}
  else
    {| label := "Poor"; color := "text-red-700"; bgColor := "bg-red-50" |}.

Record view : Type := {
  sharpeLevel : level;
  sharpeText : string;
  sortinoLevel : level;
  sortinoText : string;
  returnText : string;
  riskFreeText : string
}.

(** What the component displays; rendering throws when [toFixed] is called
    on a [null] ratio. *)
Definition render (data : PerformanceMetrics.t) : JS.outcome view :=
  let sharpeLevel := getRatioLevel (PerformanceMetrics.sharpe_ratio data) in
  let sortinoLevel := getRatioLevel (PerformanceMetrics.sortino_ratio data) in
  JS.bind (JS.toFixed_on (PerformanceMetrics.sharpe_ratio data) 2)
    (fun sharpeText =>
  JS.bind (JS.toFixed_on (PerformanceMetrics.sortino_ratio data) 2)
    (fun sortinoText =>
  JS.Ok {| sharpeLevel := sharpeLevel;
           sharpeText := sharpeText;
           sortinoLevel := sortinoLevel;
           sortinoText := sortinoText;
           returnText :=
             formatPercent
               (JS.toNumber (PerformanceMetrics.annualized_return data)) 2;
           riskFreeText :=
             formatPercent
               (JS.toNumber (PerformanceMetrics.risk_free_rate data)) 2 |})).

End PerformanceMetricsComponent.

Module RiskMetrics.
(** The Sharpe cell: [data.performance.sharpe_ratio.toFixed(2)] *)
Definition sharpeCell (performance : PerformanceMetrics.t)
  : JS.outcome string :=
  JS.toFixed_on (PerformanceMetrics.sharpe_ratio performance) 2.
End RiskMetrics.

Module BenchmarkComparison.
(** The portfolio's Sharpe cell: [portfolioSharpe.toFixed(2)], where the
    page passes [riskData.performance.sharpe_ratio]. *)
Definition sharpeCell (portfolioSharpe : option JS.number)
  : JS.outcome string :=
  JS.toFixed_on portfolioSharpe 2.
End BenchmarkComparison.

Module ExportPDF.
(** The 'Sharpe Ratio' row of the key-metrics table of [exportToPDF]. *)
Definition sharpeRow (performance : PerformanceMetrics.t)
  : JS.outcome (list string) :=
  JS.bind (JS.toFixed_on (PerformanceMetrics.sharpe_ratio performance) 2)
    (fun v => JS.Ok ["Sharpe Ratio"; v; "Risk-adjusted return measure"]).
End ExportPDF.

(** ** components/ScenarioTester.tsx *)

Module ScenarioTester.

Record ScenarioImpact : Type := {
  scenario_name : string;
  description : string;
  date_range : string * string;
  duration_days : Q;
  severity : string;
  icon : string;
  market_shock_pct : Q;
  original_value : Q;
  projected_value : Q;
  projected_loss : Q;
  loss_pct : Q
}.

(** The effect that requests a test runs it only for a selected scenario
    and a positive portfolio value. *)
Definition requestsTest (selectedScenario : string) (portfolioValue : Q)
  : bool :=
  JS.truthy selectedScenario && JS.gt (JS.Fin portfolioValue) (JS.Fin 0).

(** The fraction handed to [formatPercent]: [impact.loss_pct / 100]. *)
Definition declineFraction (impact : ScenarioImpact) : JS.number :=
  JS.quot (JS.Fin (loss_pct impact)) (JS.Fin 100).

(** The line under the projected loss:
    [{formatPercent(impact.loss_pct / 100)} decline] *)
Definition declineText (impact : ScenarioImpact) : string :=
  formatPercent (declineFraction impact) 2 +:+ " decline".

Definition getSeverityColor (severity : string) : string :=
  if String.eqb severity "extreme"
  then "bg-red-100 text-red-800 border-red-300"
  else if String.eqb severity "severe"
       then "bg-orange-100 text-orange-800 border-orange-300"
       else "bg-yellow-100 text-yellow-800 border-yellow-300".

End ScenarioTester.

(** ** components/EfficientFrontier.tsx *)

Module EfficientFrontier.

(** The Return cell of an optimal portfolio, guarded by [Number.isFinite]. *)
Definition returnText (p : OptimalPortfolio.t) : string :=
  if JS.isFinite (OptimalPortfolio.ret p)
  then formatPercent (JS.toNumber (OptimalPortfolio.ret p)) 2
  else "-".

(** The Risk cell is formatted without a guard. *)
Definition riskText (p : OptimalPortfolio.t) : string :=
  formatPercent (JS.toNumber (OptimalPortfolio.volatility p)) 2.


End EfficientFrontier.

(** ** The analytics API, as the specification describes it

    The engine behind [/api/analyze], [/api/optimize] and
    [/api/scenarios/{id}/test] is not part of the front-end sources; the
    definitions of this module follow the design document. *)

Module Backend.

Local Open Scope Q_scope.

(** *** Scenario module *)

(** Modelled from the spec: a scenario catalog entry (the catalog is missing
    from the sources): id, name, description, severity, date range and the
    aggregate market_shock_pct, with the icon and duration that the impact
    carries. *)
Record Scenario : Type := {
  id : string;
  name : string;
  description : string;
  severity : string;
  icon : string;
  date_range : string * string;
  duration_days : Q;
  market_shock_pct : Q
}.

(** Modelled from the spec: [testScenario], the scenario module of the
    analytics engine, is missing from the sources.  Applying a scenario to
    a value V yields projected_value = V * (1 + market_shock_pct),
    projected_loss = V - projected_value, loss_pct = market_shock_pct. *)
Definition testScenario (scenario : Scenario) (currentValue : Q)
  : ScenarioTester.ScenarioImpact :=
  let projected := currentValue * (1 + market_shock_pct scenario) in
  {| ScenarioTester.scenario_name := name scenario;
     ScenarioTester.description := description scenario;
     ScenarioTester.date_range := date_range scenario;
     ScenarioTester.duration_days := duration_days scenario;
     ScenarioTester.severity := severity scenario;
     ScenarioTester.icon := icon scenario;
     ScenarioTester.market_shock_pct := market_shock_pct scenario;
     ScenarioTester.original_value := currentValue;
     ScenarioTester.projected_value := projected;
     ScenarioTester.projected_loss := currentValue - projected;
     ScenarioTester.loss_pct := market_shock_pct scenario |}.

(** *** Explanation generator *)

(** Modelled from the spec: the explanation generator is missing from the
    sources.  It ranks positions by risk_contribution_pct descending; the
    ranking is deterministic, positions of equal contribution keeping their
    order. *)
Definition rank (positions : list PositionDetail.t)
  : list PositionDetail.t :=
  JS.sort RiskCharts.byRisk positions.

(** Modelled from the spec: the explanation generator emits the top k
    positions of the ranking as top_drivers, each with its name and
    contribution. *)
Definition top_drivers (k : nat) (positions : list PositionDetail.t)
  : list RiskDriver.t :=
  map (fun pos =>
         {| RiskDriver.name := PositionDetail.ticker pos;
            RiskDriver.contribution_pct :=
              PositionDetail.risk_contribution_pct pos |})
      (firstn k (rank positions)).

(** *** Performance module *)

Section Performance.

(** Standard deviation of a sample and the square root, as provided by
    the numeric library. *)
Variable std : list Q -> Q.
Variable sqrt : Q -> Q.

(** Modelled from the spec: the performance module is missing from the
    sources.  The negative daily returns are the only ones that enter the
    downside deviation. *)
Definition negative_returns (returns : list Q) : list Q :=
  List.filter (fun r => negb (Qle_bool 0 r)) returns.

(** Modelled from the spec: downside deviation (performance module, missing
    from the sources) is the std of only the negative daily returns,
    annualized; it does not exist without negative returns. *)
Definition downside_deviation (returns : list Q) : option Q :=
  match negative_returns returns with
  | [] => None
  | negatives => Some (std negatives * sqrt 252)
  end.

(** Modelled from the spec: a ratio of the performance module (missing from
    the sources) whose denominator is missing or zero is reported as null,
    not as NaN or a division by zero. *)
Definition ratio (excess : Q) (deviation : option Q) : option JS.number :=
  match deviation with
  | None => None
  | Some d => if Qeq_bool d 0 then None else Some (JS.Fin (excess / d))
  end.

(** Modelled from the spec: the performance metrics of the result (module
    missing from the sources): sharpe_ratio = (annualized_return -
    risk_free_rate) / volatility_annualized, and sortino_ratio uses the
    downside deviation. *)
Definition performance (returns : list Q)
           (annualized_return risk_free_rate volatility_annualized : Q)
  : PerformanceMetrics.t :=
  {| PerformanceMetrics.sharpe_ratio :=
       ratio (annualized_return - risk_free_rate)
             (Some volatility_annualized);
     PerformanceMetrics.sortino_ratio :=
       ratio (annualized_return - risk_free_rate)
             (downside_deviation returns);
     PerformanceMetrics.annualized_return :=
       Some (JS.Fin annualized_return);
     PerformanceMetrics.risk_free_rate := Some (JS.Fin risk_free_rate) |}.

End Performance.

(** *** Optimizer *)

(** Modelled from the spec: the sum of a weight vector (the optimizer is
    missing from the sources). *)
Definition sumQ (l : list Q) : Q := fold_right Qplus 0 l.

(** Modelled from the spec: the sum of the weights of a weights mapping (the
    optimizer is missing from the sources). *)
Definition total (w : list (string * Q)) : Q := sumQ (map snd w).

(** *** Finite outputs *)

#[local] Unset Elimination Schemes.

(** Modelled from the spec: a result object (RiskOutput, OptimizationResult)
    as it is assembled before it is serialised; the assembly is missing from
    the sources. *)
Inductive json : Type :=
| JNull
| JBool (b : bool)
| JNumber (x : JS.number)
| JString (s : string)
| JArray (items : list json)
| JObject (fields : list (string * json)).

#[local] Set Elimination Schemes.

(** Modelled from the spec: the reason reported for a number that is not
    finite (the assembly of the result is missing from the sources). *)
Definition reason_of (x : JS.number) : option string :=
  match x with
  | JS.Fin _ => None
  | JS.NaN => Some "not a number"
  | JS.PosInf => Some "positive overflow"
  | JS.NegInf => Some "negative overflow"
  end.

(** Modelled from the spec: the assembly of the result is missing from
    the sources.  Any NaN or Infinity is caught and converted to an
    explicit null with a reported reason; [path] names the field. *)
Fixpoint sanitize (path : string) (v : json) : json * list (string * string) :=
  match v with
  | JNumber x =>
      match reason_of x with
      | Some why => (JNull, [(path, why)])
      | None => (v, [])
      end
  | JArray items =>
      let fix go (i : nat) (l : list json) : list json * list (string * string) :=
        match l with
        | [] => ([], [])
        | item :: l' =>
            let '(item', r1) := sanitize (path +:+ "/" +:+ pretty i) item in
            let '(rest, r2) := go (S i) l' in
            (item' :: rest, r1 ++ r2)
        end in
      let '(items', reasons) := go 0%nat items in
      (JArray items', reasons)
  | JObject fields =>
      let fix go (l : list (string * json))
        : list (string * json) * list (string * string) :=
        match l with
        | [] => ([], [])
        | (k, item) :: l' =>
            let '(item', r1) := sanitize (path +:+ "/" +:+ k) item in
            let '(rest, r2) := go l' in
            ((k, item') :: rest, r1 ++ r2)
        end in
      let '(fields', reasons) := go fields in
      (JObject fields', reasons)
  | _ => (v, [])
  end.

(** Modelled from the spec: "all numeric outputs must be finite" -- every
    number in the value is finite (the assembly of the result is missing
    from the sources). *)
Fixpoint finite (v : json) : Prop :=
  match v with
  | JNumber x => JS.isFinite (Some x) = true
  | JArray items =>
      (fix all (l : list json) : Prop :=
         match l with
         | [] => True
         | item :: l' => finite item /\ all l'
         end) items
  | JObject fields =>
      (fix all (l : list (string * json)) : Prop :=
         match l with
         | [] => True
         | (_, item) :: l' => finite item /\ all l'
         end) fields
  | _ => True
  end.

(** Modelled from the spec: the number of NaN and infinite numbers in a
    value, which are what must not leak to the caller (the assembly of the
    result is missing from the sources). *)
Fixpoint leaks (v : json) : nat :=
  match v with
  | JNumber x => if JS.isFinite (Some x) then 0 else 1
  | JArray items =>
      (fix sum (l : list json) : nat :=
         match l with
         | [] => 0
         | item :: l' => leaks item + sum l'
         end) items
  | JObject fields =>
      (fix sum (l : list (string * json)) : nat :=
         match l with
         | [] => 0
         | (_, item) :: l' => leaks item + sum l'
         end) fields
  | _ => 0
  end%nat.

#[local] Unset Elimination Schemes.

(** Modelled from the spec: "converted to an explicit null" -- what a value
    becomes when each NaN and each infinity in it, and nothing else, is
    replaced by null (the assembly of the result is missing from the
    sources).  The arrays keep their length and order, the objects their
    keys, and every other value stays what it is. *)
Inductive nulled : json -> json -> Prop :=
| nulled_null : nulled JNull JNull
| nulled_bool (b : bool) : nulled (JBool b) (JBool b)
| nulled_string (s : string) : nulled (JString s) (JString s)
| nulled_finite (x : JS.number) :
    JS.isFinite (Some x) = true -> nulled (JNumber x) (JNumber x)
| nulled_number (x : JS.number) :
    JS.isFinite (Some x) = false -> nulled (JNumber x) JNull
| nulled_array (items items' : list json) :
    Forall2 nulled items items' -> nulled (JArray items) (JArray items')
| nulled_object (fields fields' : list (string * json)) :
    Forall2 (fun kv kv' => fst kv = fst kv' /\ nulled (snd kv) (snd kv'))
            fields fields' ->
    nulled (JObject fields) (JObject fields').

#[local] Set Elimination Schemes.

(** Modelled from the spec: [at_path root v p x] -- the number [x] is found
    in the value [v], itself at [root], under the path [p]; the path adds
    the index of an array item or the key of an object field (the assembly
    of the result is missing from the sources). *)
Inductive at_path : string -> json -> string -> JS.number -> Prop :=
| at_number (root : string) (x : JS.number) :
    at_path root (JNumber x) root x
| at_item (root : string) (items : list json) (i : nat) (item : json)
          (p : string) (x : JS.number) :
    items !! i = Some item ->
    at_path (root +:+ "/" +:+ pretty i) item p x ->
    at_path root (JArray items) p x
| at_field (root : string) (fields : list (string * json)) (i : nat)
           (k : string) (item : json) (p : string) (x : JS.number) :
    fields !! i = Some (k, item) ->
    at_path (root +:+ "/" +:+ k) item p x ->
    at_path root (JObject fields) p x.

(** Modelled from the spec: what the policy asks of [sanitize] on one value
    (the assembly of the result is missing from the sources): each NaN and
    each infinity, and nothing else, is replaced by null; the reasons
    reported are those of the numbers replaced, each under the path of its
    number, one for each. *)
Definition clean (v : json) : Prop :=
  forall path,
    nulled v (fst (sanitize path v))
    /\ (forall p why,
          In (p, why) (snd (sanitize path v))
          <-> exists x, at_path path v p x /\ reason_of x = Some why)
    /\ length (snd (sanitize path v)) = leaks v.

End Backend.

(** ** lib/utils.ts: risk level *)

Module Utils.

Record level : Type := { label : string; color : string; bgColor : string }.



End Utils.

(** The place of a ratio label on the scale from Poor to Excellent. *)
Definition ratioRank (label : string) : nat :=
  if String.eqb label "Excellent" then 3
  else if String.eqb label "Good" then 2
  else if String.eqb label "Fair" then 1
  else 0.

(** ** components/DrawdownChart.tsx *)

Module DrawdownChart.

Definition getSeverityColor (drawdown : JS.number) : string :=
  if JS.ge drawdown (JS.Fin (- (5 # 100))) then "text-green-700"
  else if JS.ge drawdown (JS.Fin (- (10 # 100))) then "text-yellow-700"
  else if JS.ge drawdown (JS.Fin (- (20 # 100))) then "text-orange-700"
  else "text-red-700".

Definition getSeverityLabel (drawdown : JS.number) : string :=
  if JS.ge drawdown (JS.Fin (- (5 # 100))) then "Low"
  else if JS.ge drawdown (JS.Fin (- (10 # 100))) then "Moderate"
  else if JS.ge drawdown (JS.Fin (- (20 # 100))) then "High"
  else "Severe".

(** The text colour of the current-drawdown figure:
    [data.current_drawdown < -0.05 ? 'text-orange-700' : 'text-green-700'] *)
Definition currentColor (current_drawdown : JS.number) : string :=
  if JS.lt current_drawdown (JS.Fin (- (5 # 100))) then "text-orange-700"
  else "text-green-700".

(** The place of a severity label on the scale from Low to Severe. *)
Definition severityRank (label : string) : nat :=
  if String.eqb label "Severe" then 3
  else if String.eqb label "High" then 2
  else if String.eqb label "Moderate" then 1
  else 0.

End DrawdownChart.

(** ** middleware.ts *)

Module Middleware.

Inductive response : Type :=
| Redirect (pathname : string)
| Next.

(** The handler wrapped by [auth]: [isLoggedIn] is [!!req.auth], and a
    redirect goes to the given path on the same origin. *)
Definition middleware (isLoggedIn : bool) (pathname : string) : response :=
  let isPortfolioRoute := JS.startsWith pathname "/portfolio" in
  let isHomeRoute := String.eqb pathname "/" in
  if isHomeRoute && isLoggedIn then Redirect "/portfolio"
  else if isPortfolioRoute && negb isLoggedIn then Redirect "/"
  else Next.

End Middleware.

(** ** components/SavePortfolioModal.tsx *)

Module SavePortfolioModal.

Record state : Type := {
  name : string;
  description : string;
  loading : bool;
  error : option string
}.

(** How [onSave] ends: it returns, or throws an [Error] with a message, or
    throws something else. *)
Inductive saved : Type :=
| Returned
| ThrewError (message : string)
| ThrewOther.

Record submitted : Type := {
  after : state;
  calls : list (string * string);
  closed : bool
}.

(** [handleSubmit]: the state afterwards, the calls made to [onSave], and
    whether [onClose] was called. *)
Definition handleSubmit (onSave : string -> string -> saved) (st : state)
  : submitted :=
  if negb (JS.truthy (JS.trim (name st))) then
    {| after := {| name := name st; description := description st;
                   loading := loading st;
                   error := Some "Portfolio name is required" |};
       calls := [];
       closed := false |}
  else
    match onSave (name st) (description st) with
    | Returned =>
        {| after := {| name := ""; description := ""; loading := false;
                       error := None |};
           calls := [(name st, description st)];
           closed := true |}
    | ThrewError message =>
        {| after := {| name := name st; description := description st;
                       loading := false; error := Some message |};
           calls := [(name st, description st)];
           closed := false |}
    | ThrewOther =>
        {| after := {| name := name st; description := description st;
                       loading := false;
                       error := Some "Failed to save portfolio" |};
           calls := [(name st, description st)];
           closed := false |}
    end.

(** [{error && (<div ...>{error}</div>)}]: the text of the error box, if
    the box is rendered; an empty message renders none. *)
Definition errorBox (st : state) : option string :=
  match error st with
  | Some message => if JS.truthy message then Some message else None
  | None => None
  end.

End SavePortfolioModal.

(** ** components/BacktestChart.tsx *)

Module BacktestChart.

Record data : Type := {
  dates : list string;
  portfolio : list Q;
  benchmark : list Q
}.

Record point : Type := {
  date : string;
  Portfolio : option Q;
  Benchmark : option Q
}.

(** [data.dates.map((date, i) => ({date, Portfolio: data.portfolio[i],
    Benchmark: data.benchmark[i]}))] *)
Definition chartData (d : data) : list point :=
  imap (fun i date => {| date := date;
                         Portfolio := portfolio d !! i;
                         Benchmark := benchmark d !! i |})
       (dates d).

(** [series[series.length - 1]]: the last value, [undefined] for an empty
    series. *)
Definition final (series : list Q) : option Q :=
  JS.at_index series (Z.of_nat (length series) - 1).

(** [((final - 10000) / 10000) * 100]; an [undefined] operand gives NaN.
    Computed on the rationals directly: the sign is that of the double the
    chart computes, the last digits of the quotient may differ. *)
Definition totalReturn (series : list Q) : JS.number :=
  match final series with
  | Some v => JS.Fin ((v - 10000) / 10000 * 100)
  | None => JS.NaN
  end.

(** The total-return label:
    [{portfolioReturn > 0 ? '+' : ''}{portfolioReturn.toFixed(1)}%] *)
Definition returnLabel (d : data) : string :=
  (if JS.gt (totalReturn (portfolio d)) (JS.Fin 0) then "+" else "")
  +:+ JS.toFixed (totalReturn (portfolio d)) 1 +:+ "%".

(** The colour of the label: green when [portfolioReturn >= 0]. *)
Definition returnColor (d : data) : string :=
  if JS.ge (totalReturn (portfolio d)) (JS.Fin 0) then "text-green-600"
  else "text-red-600".

(** The colour of the final value: green when the portfolio did not do
    worse than the benchmark. *)
Definition finalColor (d : data) : string :=
  if JS.ge (totalReturn (portfolio d)) (totalReturn (benchmark d))
  then "text-green-600" else "text-slate-700".

End BacktestChart.

(** ** components/RiskCharts.tsx: the palette *)

Module Palette.

Definition COLORS : list string :=
  ["#3b82f6"; "#10b981"; "#f59e0b"; "#ef4444"; "#8b5cf6"; "#ec4899"].

(** [COLORS[index % COLORS.length]] *)
Definition fill (index : nat) : option string :=
  COLORS !! (index mod length COLORS)%nat.

End Palette.

(** ** components/PortfolioForm.tsx: the rows of the position list *)

Module PositionRow.

(** [new Map(riskData.positions.map(p => [p.ticker, p]))] *)
Definition riskPositionsMap (positions : list PositionDetail.t)
  : gmap string PositionDetail.t :=
  fold_left (fun m p => <[PositionDetail.ticker p := p]> m) positions ∅.

(** [riskPositionsMap?.get(position.ticker)], where the map is [null]
    without an analysis. *)
Definition riskPos (riskPositions : option (list PositionDetail.t))
           (position : PortfolioPosition.t) : option PositionDetail.t :=
  match riskPositions with
  | Some l => riskPositionsMap l !! PortfolioPosition.ticker position
  | None => None
  end.

(** The colour of the P/L line of a row with risk data:
    [riskPos.unrealized_pl && riskPos.unrealized_pl >= 0 ? green : red] *)
Definition plColor (riskPos : PositionDetail.t) : string :=
  match PositionDetail.unrealized_pl riskPos with
  | Some x =>
      if negb (Qeq_bool x 0) && JS.ge (JS.Fin x) (JS.Fin 0)
      then "text-green-600" else "text-red-600"
  | None => "text-red-600"
  end.

(** The text of the P/L line; [None] is the dash shown for a missing or
    zero P/L. *)
Definition plText (riskPos : PositionDetail.t) : option string :=
  match PositionDetail.unrealized_pl riskPos with
  | Some x =>
      if Qeq_bool x 0 then None
      else Some ((if JS.ge (JS.Fin x) (JS.Fin 0) then "+" else "")
                 +:+ JS.toFixed (JS.Fin x) 2)
  | None => None
  end.

End PositionRow.

(** ** components/HoldingsTable.tsx *)

Module HoldingsTable.

(** [pos.unrealized_pl ? pos.unrealized_pl > 0 : null]: a missing value
    and 0 are falsy. *)
Definition isProfit (pos : PositionDetail.t) : option bool :=
  match PositionDetail.unrealized_pl pos with
  | Some x =>
      if Qeq_bool x 0 then None else Some (JS.gt (JS.Fin x) (JS.Fin 0))
  | None => None
  end.

(** [pos.avg_price !== undefined && pos.avg_price !== null] *)
Definition hasCostBasis (pos : PositionDetail.t) : bool :=
  match PositionDetail.avg_price pos with
  | Some _ => true
  | None => false
  end.

(** The colour of the Unrealized P/L and Return % cells. *)
Definition plColor (pos : PositionDetail.t) : string :=
  match isProfit pos with
  | Some true => "text-green-600"
  | Some false => "text-red-600"
  | None => "text-slate-400"
  end.

Inductive icon : Type := TrendingUp | TrendingDown.

(** The Return % cell: a dash ([None]) without a cost basis, else the icon
    [isProfit ? TrendingUp : TrendingDown] and
    [formatPercent(pos.unrealized_pl_pct! / 100)]. *)
Definition returnCell (pos : PositionDetail.t) : option (icon * string) :=
  if hasCostBasis pos then
    Some (match isProfit pos with
          | Some true => TrendingUp
          | _ => TrendingDown
          end,
          formatPercent
            (JS.quot (JS.numberOf (PositionDetail.unrealized_pl_pct pos))
                     (JS.Fin 100)) 2)
  else None.

End HoldingsTable.

(** ** lib/api.ts: the cloud-sync requests *)

Module Api.

(** What [fetch] gives: the request is rejected with an Error, or a
    response arrives with its [ok] flag and a body that [response.json()]
    parses ([inr]) or rejects with an Error ([inl], its message). *)
Inductive fetched (A : Type) : Type :=
| Rejected (message : string)
| Responded (ok : bool) (json : string + A).
Arguments Rejected {A} message.
Arguments Responded {A} ok json.

(** How an async function ends: with a value, or with the Error thrown. *)
Inductive settled (A : Type) : Type :=
| Fulfilled (a : A)
| Thrown (message : string).
Arguments Fulfilled {A} a.
Arguments Thrown {A} message.

(** The body shared by the cloud-sync requests:
    [if (!response.ok) throw new Error(failure); return response.json()] *)
Definition respond {A : Type} (failure : string) (r : fetched A)
  : settled A :=
  match r with
  | Rejected message => Thrown message
  | Responded false _ => Thrown failure
  | Responded true (inl message) => Thrown message
  | Responded true (inr a) => Fulfilled a
  end.

Definition savePortfolio {A : Type} (r : fetched A) : settled A :=
  respond "Failed to save portfolio" r.

Definition getPortfolio {A : Type} (r : fetched A) : settled A :=
  respond "Failed to load portfolio" r.

Definition deletePortfolio {A : Type} (r : fetched A) : settled A :=
  respond "Failed to delete portfolio" r.

(** [!token] is false for a non-empty string only. *)
Definition usable (token : option string) : option string :=
  match token with
  | Some t => if JS.truthy t then Some t else None
  | None => None
  end.

End Api.

(** A portfolio as the server stores it; the fields the page reads. *)
Module StoredPortfolio.
Record t : Type := {
  id : Z;
  name : string;
  positions : list PortfolioPosition.t
}.
End StoredPortfolio.

Module PortfolioSummary.
Record t : Type := {
  id : Z;
  name : string;
  updated_at : string;
  description : option string
}.
End PortfolioSummary.

(** ** components/CloudLoadModal.tsx *)

Module CloudLoadModal.

Record state : Type := {
  portfolios : list PortfolioSummary.t;
  loading : bool;
  loadingId : option Z;
  error : option string
}.

Record deleted : Type := {
  afterDelete : state;
  deleteRequests : list (Z * string);
  alerts : list string
}.

(** [handleDelete]: [confirmed] is the answer to the confirmation dialog,
    [response] what the DELETE request gives. *)
Definition handleDelete {A : Type} (token : option string) (confirmed : bool)
           (response : Api.fetched A) (st : state) (id : Z) : deleted :=
  match Api.usable token with
  | Some t =>
      if confirmed then
        match Api.deletePortfolio response with
        | Api.Fulfilled _ =>
            {| afterDelete :=
                 {| portfolios :=
                      List.filter
                        (fun p => negb (PortfolioSummary.id p =? id)%Z)
                        (portfolios st);
                    loading := loading st;
                    loadingId := loadingId st;
                    error := error st |};
               deleteRequests := [(id, t)];
               alerts := [] |}
        | Api.Thrown _ =>
            {| afterDelete := st;
               deleteRequests := [(id, t)];
               alerts := ["Failed to delete portfolio"] |}
        end
      else {| afterDelete := st; deleteRequests := []; alerts := [] |}
  | None => {| afterDelete := st; deleteRequests := []; alerts := [] |}
  end.

Record loaded : Type := {
  afterLoad : state;
  loadRequests : list (Z * string);
  onLoad : list StoredPortfolio.t;
  closed : bool
}.

(** [handleLoad]: [response] is what the GET request gives; [onLoad] lists
    the calls made to the [onLoad] property and [closed] tells whether
    [onClose] was called. *)
Definition handleLoad (token : option string)
           (response : Api.fetched StoredPortfolio.t) (st : state) (id : Z)
  : loaded :=
  match Api.usable token with
  | Some t =>
      match Api.getPortfolio response with
      | Api.Fulfilled detailed =>
          {| afterLoad :=
               {| portfolios := portfolios st;
                  loading := loading st;
                  loadingId := None;
                  error := error st |};
             loadRequests := [(id, t)];
             onLoad := [detailed];
             closed := true |}
      | Api.Thrown _ =>
          {| afterLoad :=
               {| portfolios := portfolios st;
                  loading := loading st;
                  loadingId := None;
                  error := Some "Failed to load portfolio details" |};
             loadRequests := [(id, t)];
             onLoad := [];
             closed := false |}
      end
  | None =>
      {| afterLoad := st; loadRequests := []; onLoad := []; closed := false |}
  end.

End CloudLoadModal.

(** ** app/portfolio/page.tsx: the state of the page *)

Module PortfolioPage.

Inductive tab : Type := manage | analytics.

Record state (RiskOutput : Type) : Type := {
  positions : list PortfolioPosition.t;
  riskData : option RiskOutput;
  loading : bool;
  error : option string;
  selectedPeriod : string;
  isSaveOpen : bool;
  isCloudLoadOpen : bool;
  activeTab : tab;
  activePortfolioId : option Z;
  currentPortfolioName : option string
}.
Arguments positions {RiskOutput} _.
Arguments riskData {RiskOutput} _.
Arguments loading {RiskOutput} _.
Arguments error {RiskOutput} _.
Arguments selectedPeriod {RiskOutput} _.
Arguments isSaveOpen {RiskOutput} _.
Arguments isCloudLoadOpen {RiskOutput} _.
Arguments activeTab {RiskOutput} _.
Arguments activePortfolioId {RiskOutput} _.
Arguments currentPortfolioName {RiskOutput} _.

Section Handlers.

Context {RiskOutput : Type}.

(** [handleCloudLoad] *)
Definition handleCloudLoad (st : state RiskOutput) (data : StoredPortfolio.t)
  : state RiskOutput :=
  {| positions := StoredPortfolio.positions data;
     riskData := None;
     loading := loading st;
     error := error st;
     selectedPeriod := selectedPeriod st;
     isSaveOpen := isSaveOpen st;
     isCloudLoadOpen := isCloudLoadOpen st;
     activeTab := activeTab st;
     activePortfolioId := Some (StoredPortfolio.id data);
     currentPortfolioName := Some (StoredPortfolio.name data) |}.

(** The [onClose] handed to the cloud modal: [setIsCloudLoadOpen(false)] *)
Definition closeCloudLoad (st : state RiskOutput) : state RiskOutput :=
  {| positions := positions st;
     riskData := riskData st;
     loading := loading st;
     error := error st;
     selectedPeriod := selectedPeriod st;
     isSaveOpen := isSaveOpen st;
     isCloudLoadOpen := false;
     activeTab := activeTab st;
     activePortfolioId := activePortfolioId st;
     currentPortfolioName := currentPortfolioName st |}.

(** The [onClose] handed to the save modal: [setIsSaveOpen(false)] *)
Definition closeSave (st : state RiskOutput) : state RiskOutput :=
  {| positions := positions st;
     riskData := riskData st;
     loading := loading st;
     error := error st;
     selectedPeriod := selectedPeriod st;
     isSaveOpen := false;
     isCloudLoadOpen := isCloudLoadOpen st;
     activeTab := activeTab st;
     activePortfolioId := activePortfolioId st;
     currentPortfolioName := currentPortfolioName st |}.

(** The body of a save request: name, description, positions and token. *)
Record saveRequest : Type := {
  saveName : string;
  saveDescription : string;
  savePositions : list PortfolioPosition.t;
  saveToken : string
}.

Record savedNew : Type := {
  outcome : SavePortfolioModal.saved;
  afterSave : state RiskOutput;
  saveAlerts : list string;
  saveRequests : list saveRequest
}.

(** [handleSaveNew]: [response] is what the POST request gives. *)
Definition handleSaveNew (token : option string)
           (response : Api.fetched StoredPortfolio.t) (st : state RiskOutput)
           (name description : string) : savedNew :=
  match Api.usable token with
  | None =>
      {| outcome := SavePortfolioModal.Returned;
         afterSave := st;
         saveAlerts := ["You must be logged in to save portfolios."];
         saveRequests := [] |}
  | Some t =>
      let sent := [{| saveName := name; saveDescription := description;
                      savePositions := positions st; saveToken := t |}] in
      match Api.savePortfolio response with
      | Api.Fulfilled saved =>
          {| outcome := SavePortfolioModal.Returned;
             afterSave :=
               {| positions := positions st;
                  riskData := riskData st;
                  loading := loading st;
                  error := error st;
                  selectedPeriod := selectedPeriod st;
                  isSaveOpen := false;
                  isCloudLoadOpen := isCloudLoadOpen st;
                  activeTab := activeTab st;
                  activePortfolioId := Some (StoredPortfolio.id saved);
                  currentPortfolioName :=
                    Some (StoredPortfolio.name saved) |};
             saveAlerts := [];
             saveRequests := sent |}
      | Api.Thrown message =>
          {| outcome := SavePortfolioModal.ThrewError message;
             afterSave := st;
             saveAlerts := [];
             saveRequests := sent |}
      end
  end.

Record saveFlow : Type := {
  pageAfter : state RiskOutput;
  modalAfter : SavePortfolioModal.state;
  flowAlerts : list string;
  flowRequests : list saveRequest
}.

(** Submitting the save modal as the page mounts it:
    [<SavePortfolioModal onClose={() => setIsSaveOpen(false)}
    onSave={handleSaveNew} />]. *)
Definition submitSave (token : option string)
           (response : Api.fetched StoredPortfolio.t) (st : state RiskOutput)
           (modal : SavePortfolioModal.state) : saveFlow :=
  let r := SavePortfolioModal.handleSubmit
             (fun name description =>
                outcome (handleSaveNew token response st name description))
             modal in
  match SavePortfolioModal.calls r with
  | (name, description) :: _ =>
      let s := handleSaveNew token response st name description in
      {| pageAfter := if SavePortfolioModal.closed r
                      then closeSave (afterSave s) else afterSave s;
         modalAfter := SavePortfolioModal.after r;
         flowAlerts := saveAlerts s;
         flowRequests := saveRequests s |}
  | [] =>
      {| pageAfter := st;
         modalAfter := SavePortfolioModal.after r;
         flowAlerts := [];
         flowRequests := [] |}
  end.

(** Loading from the cloud modal as the page mounts it:
    [<CloudLoadModal onClose={() => setIsCloudLoadOpen(false)}
    token={session?.id_token} onLoad={handleCloudLoad} />]. *)
Definition loadFromCloud (token : option string)
           (response : Api.fetched StoredPortfolio.t) (st : state RiskOutput)
           (modal : CloudLoadModal.state) (id : Z)
  : state RiskOutput * CloudLoadModal.state :=
  let r := CloudLoadModal.handleLoad token response modal id in
  let st1 := fold_left handleCloudLoad (CloudLoadModal.onLoad r) st in
  (if CloudLoadModal.closed r then closeCloudLoad st1 else st1,
   CloudLoadModal.afterLoad r).

(** How the [try] block of [analyzePortfolio] ends: with the parsed
    analysis, or with an Error whose message is either that of the failed
    request or the one extracted from the error body. *)
Inductive attempt : Type :=
| Received (data : RiskOutput)
| Failed (message : string).

(** [analyzePortfolio] on the page: the state afterwards and the request
    made, if any (the period and the positions sent). *)
Definition analyzePortfolio (st : state RiskOutput) (a : attempt)
  : state RiskOutput * option (string * list PortfolioPosition.t) :=
  match PortfolioAnalysis.analyzePortfolio (positions st) with
  | None =>
      ({| positions := positions st;
          riskData := riskData st;
          loading := loading st;
          error := Some "Please add at least one position";
          selectedPeriod := selectedPeriod st;
          isSaveOpen := isSaveOpen st;
          isCloudLoadOpen := isCloudLoadOpen st;
          activeTab := activeTab st;
          activePortfolioId := activePortfolioId st;
          currentPortfolioName := currentPortfolioName st |},
       None)
  | Some body =>
      ({| positions := positions st;
          riskData := match a with
                      | Received data => Some data
                      | Failed _ => riskData st
                      end;
          loading := false;
          error := match a with
                   | Received _ => None
                   | Failed message => Some message
                   end;
          selectedPeriod := selectedPeriod st;
          isSaveOpen := isSaveOpen st;
          isCloudLoadOpen := isCloudLoadOpen st;
          activeTab := activeTab st;
          activePortfolioId := activePortfolioId st;
          currentPortfolioName := currentPortfolioName st |},
       Some (selectedPeriod st, body))
  end.

(** [handleAnalyze]: [await analyzePortfolio(); setActiveTab('analytics')] *)
Definition handleAnalyze (st : state RiskOutput) (a : attempt)
  : state RiskOutput * option (string * list PortfolioPosition.t) :=
  let st' := fst (analyzePortfolio st a) in
  ({| positions := positions st';
      riskData := riskData st';
      loading := loading st';
      error := error st';
      selectedPeriod := selectedPeriod st';
      isSaveOpen := isSaveOpen st';
      isCloudLoadOpen := isCloudLoadOpen st';
      activeTab := analytics;
      activePortfolioId := activePortfolioId st';
      currentPortfolioName := currentPortfolioName st' |},
   snd (analyzePortfolio st a)).

(** What the analytics tab shows under the error banner:
    [loading ? spinner : riskData ? results : placeholder] *)
Inductive panel : Type :=
| Spinner
| Results (data : RiskOutput)
| Placeholder.

Definition shown (st : state RiskOutput) : panel :=
  if loading st then Spinner
  else match riskData st with
       | Some data => Results data
       | None => Placeholder
       end.

(** [{error && (<div ...>{error}</div>)}]: the text of the error banner
    above the panel, if the banner is rendered; an empty message renders
    none. *)
Definition banner (st : state RiskOutput) : option string :=
  match error st with
  | Some message => if JS.truthy message then Some message else None
  | None => None
  end.

End Handlers.

End PortfolioPage.

(** ** Sample data used by the examples *)

Module Sample.

Definition position (ticker : string) (quantity : Q) : PortfolioPosition.t :=
  {| PortfolioPosition.ticker := ticker;
     PortfolioPosition.quantity := JS.Fin quantity;
     PortfolioPosition.asset_class := Equity;
     PortfolioPosition.avg_price := None;
     PortfolioPosition.purchase_date := None |}.

Definition emptyForm : PortfolioForm.state :=
  {| PortfolioForm.ticker := "";
     PortfolioForm.quantity := "";
     PortfolioForm.assetClass := Equity;
     PortfolioForm.avgPrice := "";
     PortfolioForm.purchaseDate := "";
     PortfolioForm.validationState := PortfolioForm.unvalidated;
     PortfolioForm.editingIndex := None |}.

Definition form (ticker quantity : string) : PortfolioForm.state :=
  {| PortfolioForm.ticker := ticker;
     PortfolioForm.quantity := quantity;
     PortfolioForm.assetClass := Equity;
     PortfolioForm.avgPrice := "";
     PortfolioForm.purchaseDate := "";
     PortfolioForm.validationState :=
       {| PortfolioForm.isValid := Some true;
          PortfolioForm.name := Some "Apple Inc.";
          PortfolioForm.message := None |};
     PortfolioForm.editingIndex := None |}.

Definition columns : ImportModal.mapping :=
  {| ImportModal.ticker := "Symbol";
     ImportModal.quantity := "Shares";
     ImportModal.type := "Equity" |}.

Definition row (symbol shares : string) : gmap string string :=
  <["Symbol" := symbol]> (<["Shares" := shares]> ∅).

(** The metrics of a cash-only portfolio with both ratios reported as
    [null]. *)
Definition nullRatios : PerformanceMetrics.t :=
  {| PerformanceMetrics.sharpe_ratio := None;
     PerformanceMetrics.sortino_ratio := None;
     PerformanceMetrics.annualized_return := Some (JS.Fin 0);
     PerformanceMetrics.risk_free_rate := Some (JS.Fin (2 # 100)) |}.

(** The same metrics with both ratios reported as the number 0. *)
Definition zeroRatios : PerformanceMetrics.t :=
  {| PerformanceMetrics.sharpe_ratio := Some (JS.Fin 0);
     PerformanceMetrics.sortino_ratio := Some (JS.Fin 0);
     PerformanceMetrics.annualized_return := Some (JS.Fin 0);
     PerformanceMetrics.risk_free_rate := Some (JS.Fin (2 # 100)) |}.

(** The double that a decimal literal denotes. *)
Definition double (literal : Q) : Q :=
  match JS.round literal with
  | JS.Fin q => q
  | _ => 0
  end.

(** A crash of 34%, as a catalog entry. *)
Definition crash : Backend.Scenario :=
  {| Backend.id := "covid_crash";
     Backend.name := "COVID-19 Crash";
     Backend.description := "Pandemic sell-off";
     Backend.severity := "severe";
     Backend.icon := "!";
     Backend.date_range := ("2020-02-19", "2020-03-23");
     Backend.duration_days := 33;
     Backend.market_shock_pct := - (34 # 100) |}.

Definition correlation (ticker1 ticker2 : string) (c : Q) : Correlation.t :=
  {| Correlation.ticker1 := ticker1;
     Correlation.ticker2 := ticker2;
     Correlation.correlation := c |}.

(** A matrix that lists only the pair (AAPL, MSFT). *)
Definition upperOnly : CorrelationData.t :=
  {| CorrelationData.tickers := ["AAPL"; "MSFT"];
     CorrelationData.correlations := [correlation "AAPL" "MSFT" (4 # 5)] |}.

Definition monteCarlo (min max : Q) (simulations : list Q) : MonteCarloData.t :=
  {| MonteCarloData.mc_var_95 := 0;
     MonteCarloData.mc_cvar_95 := 0;
     MonteCarloData.num_simulations := inject_Z (Z.of_nat (length simulations));
     MonteCarloData.confidence_level := 95 # 100;
     MonteCarloData.dist :=
       {| MonteCarloData.mean := min; MonteCarloData.std := 0;
          MonteCarloData.min := min; MonteCarloData.max := max;
          MonteCarloData.pct :=
            {| MonteCarloData.p1 := min; MonteCarloData.p5 := min;
               MonteCarloData.p25 := min; MonteCarloData.p50 := min;
               MonteCarloData.p75 := max; MonteCarloData.p95 := max;
               MonteCarloData.p99 := max |} |};
     MonteCarloData.simulations := simulations |}.

(** A form that edits the position at [index]. *)
Definition editing (ticker quantity : string) (index : Z)
  : PortfolioForm.state :=
  {| PortfolioForm.ticker := ticker;
     PortfolioForm.quantity := quantity;
     PortfolioForm.assetClass := Equity;
     PortfolioForm.avgPrice := "";
     PortfolioForm.purchaseDate := "";
     PortfolioForm.validationState :=
       {| PortfolioForm.isValid := Some true;
          PortfolioForm.name := Some "";
          PortfolioForm.message := None |};
     PortfolioForm.editingIndex := Some index |}.

(** Three holdings. *)
Definition holdings : list PortfolioPosition.t :=
  [position "AAPL" 100; position "MSFT" 50; position "GOOGL" 30].

(** Printing of a Number that is an integer; used on such Numbers only. *)
Definition integerToString (x : JS.number) : string :=
  match x with
  | JS.Fin q => pretty (Qnum q)
  | JS.NaN => "NaN"
  | JS.PosInf => "Infinity"
  | JS.NegInf => "-Infinity"
  end.

(** The modal before a file is chosen. *)
Definition closedModal : ImportModal.state :=
  {| ImportModal.current := ImportModal.upload;
     ImportModal.parsedData := [];
     ImportModal.columns :=
       {| ImportModal.ticker := ""; ImportModal.quantity := "";
          ImportModal.type := "Equity" |};
     ImportModal.error := None |}.

(** A file whose header names neither a ticker nor a quantity column. *)
Definition unnamedColumns : ImportModal.results :=
  {| ImportModal.errors := [];
     ImportModal.data :=
       [<["Name" := "aapl"]> (<["Held" := "5"]> ∅)];
     ImportModal.fields := Some ["Name"; "Held"] |}.

(** The analysis of one holding: [price] per unit and an unrealized P/L. *)
Definition detail (ticker : string) (price : Q) (pl : option Q)
  : PositionDetail.t :=
  {| PositionDetail.ticker := ticker;
     PositionDetail.quantity := 1;
     PositionDetail.current_price := price;
     PositionDetail.value := price;
     PositionDetail.weight := 1;
     PositionDetail.volatility := 0;
     PositionDetail.risk_contribution_pct := 0;
     PositionDetail.marginal_risk := 0;
     PositionDetail.avg_price := None;
     PositionDetail.cost_basis := None;
     PositionDetail.unrealized_pl := pl;
     PositionDetail.unrealized_pl_pct := JS.Absent;
     PositionDetail.purchase_date := None |}.

End Sample.

(** * Properties *)

(** ** The built-ins on sample inputs *)

(** Arithmetic rounds as doubles do: 0.58 on [0, 1] falls in bin 28, since
    0.58 / 0.02 rounds below 29; a fraction divided by 100 and multiplied
    by 100 again need not come back; 1e308 * 1e308 overflows. *)
Example rounding_samples :
  MonteCarloVaR.binOf (Sample.monteCarlo 0 1 []) (Sample.double (58 # 100))
  = Some 28%nat
  /\ formatPercent (JS.quot (JS.Fin (Sample.double (- (805 # 1000))))
                            (JS.Fin 100)) 2
     = "-0.80%"
  /\ formatPercent (JS.quot (JS.Fin (Sample.double (3625 # 1000)))
                            (JS.Fin 100)) 2
     = "3.62%"
  /\ JS.toFixed (JS.Fin (Sample.double (1005 # 1000))) 2 = "1.00"
  /\ JS.toFixed (JS.Fin (1 # 8)) 2 = "0.13"
  /\ JS.mul (JS.Fin (Sample.double (10 ^ 308)))
            (JS.Fin (Sample.double (10 ^ 308)))
     = JS.PosInf.
Proof.
  repeat split; vm_compute; reflexivity.
Qed.

Example parseFloat_samples :
  JS.parseFloat "  -5.25e1abc" = JS.Fin (- (105 # 2))
  /\ JS.parseFloat "0" = JS.Fin 0
  /\ JS.parseFloat ".5" = JS.Fin (1 # 2)
  /\ JS.parseFloat "1." = JS.Fin 1
  /\ JS.parseFloat "1e" = JS.Fin 1
  /\ JS.parseFloat "1.5E-2" = JS.Fin (3 # 200)
  /\ JS.parseFloat "-Infinity" = JS.NegInf
  /\ JS.parseFloat "." = JS.NaN
  /\ JS.parseFloat "abc" = JS.NaN
  /\ JS.parseFloat "" = JS.NaN.
Proof. repeat split. Qed.

Example toFixed_samples :
  JS.toFixed (JS.Fin (1 # 3)) 2 = "0.33"
  /\ JS.toFixed (JS.Fin (5 # 1000)) 2 = "0.01"
  /\ JS.toFixed (JS.Fin (- (1 # 1000))) 2 = "-0.00"
  /\ JS.toFixed (JS.Fin (12345 # 10)) 2 = "1234.50"
  /\ JS.toFixed (JS.Fin (- (34 # 100))) 0 = "-0"
  /\ JS.toFixed JS.NaN 2 = "NaN"
  /\ formatPercent (JS.Fin (1234 # 10000)) 2 = "12.34%".
Proof. repeat split. Qed.

Example string_samples :
  JS.trim "  a b  " = "a b"
  /\ JS.trim "   " = ""
  /\ JS.toUpperCase "brk.b" = "BRK.B"
  /\ JS.truthy "0" = true
  /\ JS.truthy "" = false.
Proof. repeat split. Qed.

Example division_samples :
  JS.div 0 0 = JS.NaN
  /\ JS.div 5 0 = JS.PosInf
  /\ JS.div (- 5) 0 = JS.NegInf
  /\ JS.min (JS.floor JS.PosInf) 49 = JS.Int 49
  /\ JS.min (JS.floor JS.NaN) 49 = JS.INaN.
Proof. repeat split. Qed.

Example sort_is_stable :
  JS.sort (fun a b : string * Q => (snd b - snd a)%Q)
          [("a", 1%Q); ("b", 3%Q); ("c", 1%Q); ("d", 3%Q)]
  = [("b", 3%Q); ("d", 3%Q); ("a", 1%Q); ("c", 1%Q)].
Proof. reflexivity. Qed.

(** ** Removing a position *)

Section Removal.

Context {A : Type}.

Lemma filter_from_ne (k : Z) (i : nat) (l : list A) :
  (k < Z.of_nat i)%Z ->
  JS.filter_from (fun j => negb (Z.of_nat j =? k)%Z) i (JS.dense l) = l.
Proof.
  revert i. induction l as [|x l IH]; intros i Hk; simpl; [reflexivity|].
  destruct (Z.eqb_spec (Z.of_nat i) k) as [E|_]; [lia|]. simpl.
  f_equal. apply IH. lia.
Qed.

Lemma filter_from_delete (k : Z) (i : nat) (l : list A) :
  (Z.of_nat i <= k)%Z ->
  JS.filter_from (fun j => negb (Z.of_nat j =? k)%Z) i (JS.dense l)
  = firstn (Z.to_nat k - i) l ++ skipn (S (Z.to_nat k - i)) l.
Proof.
  revert i. induction l as [|x l IH]; intros i Hk; simpl.
  - now rewrite firstn_nil.
  - destruct (Z.eqb_spec (Z.of_nat i) k) as [E|N]; simpl.
    + replace (Z.to_nat k - i)%nat with 0%nat by lia. simpl.
      apply filter_from_ne. lia.
    + replace (Z.to_nat k - i)%nat with (S (Z.to_nat k - S i)) by lia.
      simpl. f_equal. apply IH. lia.
Qed.

Lemma filter_index_delete (k : Z) (l : list A) :
  (0 <= k)%Z ->
  JS.filter_index (fun j => negb (Z.of_nat j =? k)%Z) (JS.dense l)
  = firstn (Z.to_nat k) l ++ skipn (S (Z.to_nat k)) l.
Proof.
  intros Hk. unfold JS.filter_index.
  rewrite filter_from_delete by lia. now rewrite Nat.sub_0_r.
Qed.

Lemma filter_index_outside (k : Z) (l : list A) :
  (k < 0 \/ Z.of_nat (length l) <= k)%Z ->
  JS.filter_index (fun j => negb (Z.of_nat j =? k)%Z) (JS.dense l) = l.
Proof.
  intros [Hk|Hk]; unfold JS.filter_index.
  - apply filter_from_ne. lia.
  - rewrite filter_from_delete by lia. rewrite Nat.sub_0_r.
    rewrite firstn_all2 by lia. rewrite skipn_all2 by lia.
    apply app_nil_r.
Qed.

(** On an array with holes the filter keeps the elements present at the
    other indices. *)
Lemma filter_from_present_ne (k : Z) (i : nat) (a : JS.array A) :
  (k < Z.of_nat i)%Z ->
  JS.filter_from (fun j => negb (Z.of_nat j =? k)%Z) i a = JS.present a.
Proof.
  revert i. induction a as [|[x|] a IH]; intros i Hk; [reflexivity| |].
  - cbn [JS.filter_from].
    destruct (Z.eqb_spec (Z.of_nat i) k) as [E|_]; [lia|]. cbn [negb].
    unfold JS.present. cbn [omap]. simpl. f_equal. apply IH. lia.
  - cbn [JS.filter_from]. unfold JS.present. cbn [omap]. simpl.
    apply IH. lia.
Qed.

Lemma filter_from_present (k : Z) (i : nat) (a : JS.array A) :
  (Z.of_nat i <= k)%Z ->
  JS.filter_from (fun j => negb (Z.of_nat j =? k)%Z) i a
  = JS.present (firstn (Z.to_nat k - i) a ++ skipn (S (Z.to_nat k - i)) a).
Proof.
  revert i. induction a as [|slot a IH]; intros i Hk.
  - now rewrite firstn_nil.
  - destruct (Z.eqb_spec (Z.of_nat i) k) as [E|N].
    + replace (Z.to_nat k - i)%nat with 0%nat by lia.
      cbn [firstn skipn app].
      destruct slot as [x|]; cbn [JS.filter_from].
      * destruct (Z.eqb_spec (Z.of_nat i) k) as [_|N]; [|lia]. cbn [negb].
        apply filter_from_present_ne. lia.
      * apply filter_from_present_ne. lia.
    + replace (Z.to_nat k - i)%nat with (S (Z.to_nat k - S i)) by lia.
      cbn [firstn skipn app].
      destruct slot as [x|]; cbn [JS.filter_from].
      * destruct (Z.eqb_spec (Z.of_nat i) k) as [E|_]; [lia|]. cbn [negb].
        unfold JS.present. cbn [omap]. simpl. f_equal.
        apply (IH (S i)). lia.
      * unfold JS.present. cbn [omap]. simpl. apply (IH (S i)). lia.
Qed.

Lemma filter_index_present (k : Z) (a : JS.array A) :
  JS.filter_index (fun j => negb (Z.of_nat j =? k)%Z) a
  = if (0 <=? k)%Z
    then JS.present (firstn (Z.to_nat k) a ++ skipn (S (Z.to_nat k)) a)
    else JS.present a.
Proof.
  unfold JS.filter_index. destruct (Z.leb_spec 0 k) as [Hk|Hk].
  - rewrite filter_from_present by lia. now rewrite Nat.sub_0_r.
  - apply filter_from_present_ne. lia.
Qed.

End Removal.

(** C9, as amended.  Removing the position at index [i] -- from the page
    ([removePosition]) or from the form ([handleRemovePosition]), which
    compute the same list -- keeps the positions present at the other
    indices, in their order, and drops the empty slots of the array with
    the removed one.  From an array without empty slots, with
    [0 <= i < length], it gives a list one shorter that is the original
    without its [i]-th element: the positions before [i] stay where they
    are, the positions after [i] move up by one, in the same order; for an
    index outside [0, length) that list is unchanged. *)
Theorem removePosition_deletes_index
        (positions : JS.array PortfolioPosition.t) (st : PortfolioForm.state)
        (i : Z) :
  fst (PortfolioForm.handleRemovePosition positions st i)
  = PortfolioAnalysis.removePosition positions i
  /\ PortfolioAnalysis.removePosition positions i
     = (if (0 <=? i)%Z
        then JS.present (firstn (Z.to_nat i) positions
                         ++ skipn (S (Z.to_nat i)) positions)
        else JS.present positions)
  /\ (forall l : list PortfolioPosition.t,
         positions = JS.dense l ->
         ((0 <= i < Z.of_nat (length l))%Z ->
          PortfolioAnalysis.removePosition positions i
          = firstn (Z.to_nat i) l ++ skipn (S (Z.to_nat i)) l
          /\ length (PortfolioAnalysis.removePosition positions i)
             = (length l - 1)%nat
          /\ (forall j : nat, (j < Z.to_nat i)%nat ->
                PortfolioAnalysis.removePosition positions i !! j = l !! j)
          /\ (forall j : nat, (Z.to_nat i <= j)%nat ->
                PortfolioAnalysis.removePosition positions i !! j
                = l !! S j))
         /\ ((i < 0 \/ Z.of_nat (length l) <= i)%Z ->
             PortfolioAnalysis.removePosition positions i = l)).
Proof.
  split; [reflexivity|]. unfold PortfolioAnalysis.removePosition.
  split; [apply filter_index_present|].
  intros l ->. split.
  - intros Hi. rewrite filter_index_delete by lia.
    assert (Hlen : length (firstn (Z.to_nat i) l) = Z.to_nat i)
      by (rewrite length_firstn; lia).
    repeat split.
    + rewrite length_app, Hlen, length_skipn. lia.
    + intros j Hj. rewrite lookup_app_l by lia.
      now apply lookup_take_lt.
    + intros j Hj. rewrite lookup_app_r by lia. rewrite Hlen.
      rewrite lookup_drop. f_equal. lia.
  - apply filter_index_outside.
Qed.

(** C9, counterexample to the claim as stated.  GOOGL, at index 2 of three
    positions, is being edited while the two positions before it are
    removed; the update then writes at index 2 of a list of one and leaves
    an empty slot at index 1.  Removing index 2 of that array of length 3
    gives a list of length 1, not 2, and removing the index 7, outside the
    array, does not leave it unchanged: the empty slot is dropped. *)
Lemma removal_from_a_sparse_array_drops_the_holes :
  let st := Sample.editing "googl" "10" 2 in
  let once := fst (PortfolioForm.handleRemovePosition
                     (JS.dense Sample.holdings) st 0) in
  let twice := fst (PortfolioForm.handleRemovePosition (JS.dense once) st 0) in
  let sparse := [Some (Sample.position "GOOGL" 30); None;
                 Some (Sample.position "GOOGL" 10)] in
  snd (PortfolioForm.handleRemovePosition (JS.dense once) st 0) = st
  /\ PortfolioForm.passed (fst (PortfolioForm.handleAddPosition twice st))
     = Some sparse
  /\ length sparse = 3%nat
  /\ PortfolioAnalysis.removePosition sparse 2
     = [Sample.position "GOOGL" 30]
  /\ length (PortfolioAnalysis.removePosition sparse 2)
     <> (length sparse - 1)%nat
  /\ JS.dense (PortfolioAnalysis.removePosition sparse 7) <> sparse.
Proof.
  split; [reflexivity|]. split; [vm_compute; reflexivity|].
  split; [reflexivity|]. split; [reflexivity|].
  split; [vm_compute; lia | vm_compute; discriminate].
Qed.

(** ** Rounding to the nearest double *)

Section Rounding.

Local Open Scope Q_scope.


Lemma nearest_even_nonneg (a : Z) (b : positive) :
  (0 <= a)%Z -> (0 <= JS.nearest_even a b)%Z.
Proof.
  intros Ha. unfold JS.nearest_even.
  assert (Hq : (0 <= a / Z.pos b)%Z) by (apply Z.div_pos; lia).
  destruct (2 * (a mod Z.pos b) ?= Z.pos b)%Z; [|lia|lia].
  destruct (Z.even (a / Z.pos b)); lia.
Qed.

Lemma nearest_even_close (a : Z) (b : positive) :
  (Z.abs (2 * (JS.nearest_even a b * Z.pos b - a)) <= Z.pos b)%Z.
Proof.
  unfold JS.nearest_even.
  pose proof (Z.div_mod a (Z.pos b) ltac:(lia)) as Hdm.
  pose proof (Z.mod_pos_bound a (Z.pos b) ltac:(lia)) as Hr.
  set (q := (a / Z.pos b)%Z) in *. set (r := (a mod Z.pos b)%Z) in *.
  destruct (Z.compare_spec (2 * r) (Z.pos b)) as [E|L|G].
  - destruct (Z.even q); nia.
  - nia.
  - nia.
Qed.

Lemma nearest_even_error (a : Z) (b : positive) :
  Qabs (inject_Z (JS.nearest_even a b) - (a # b)) <= 1 # 2.
Proof.
  pose proof (nearest_even_close a b) as H.
  set (m := JS.nearest_even a b) in *.
  apply Qabs_Qle_condition.
  unfold Qle, Qminus, Qplus, Qopp, inject_Z. simpl.
  rewrite !Z.mul_1_r. split; lia.
Qed.

Lemma pow2_pos (e : Z) : 0 < 2 ^ e.
Proof. apply Qpower_0_lt. reflexivity. Qed.

Lemma pow2_add (a b : Z) : 2 ^ (a + b) == 2 ^ a * 2 ^ b.
Proof. apply Qpower_plus. discriminate. Qed.

Lemma pow2_Z (e : Z) : (0 <= e)%Z -> inject_Z (2 ^ e) == 2 ^ e.
Proof. intros He. now rewrite Zpower_Qpower. Qed.

Lemma pow2_Zpos (e : Z) :
  (0 <= e)%Z -> inject_Z (Z.pos (Z.to_pos (2 ^ e))) == 2 ^ e.
Proof.
  intros He. rewrite Z2Pos.id by (apply Z.pow_pos_nonneg; lia).
  now apply pow2_Z.
Qed.

(** [JS.shifted n d e] is [n / d] divided by [2 ^ e]. *)
Lemma shifted_spec (n : Z) (d : positive) (e : Z) :
  (fst (JS.shifted n d e) # snd (JS.shifted n d e)) * 2 ^ e == n # d.
Proof.
  unfold JS.shifted. destruct (Z.leb_spec 0 e) as [He|He]; simpl.
  - rewrite (Qmake_Qdiv n (d * _)), (Qmake_Qdiv n d).
    rewrite Pos2Z.inj_mul, inject_Z_mult, pow2_Zpos by exact He.
    pose proof (pow2_pos e) as Hp. set (p := 2 ^ e) in *. clearbody p.
    field. repeat split;
      first [intros E; rewrite E in Hp; discriminate Hp
            | unfold Qeq; simpl; lia].
  - rewrite (Qmake_Qdiv (n * _) d), (Qmake_Qdiv n d).
    rewrite inject_Z_mult, pow2_Z by lia.
    assert (E : 2 ^ e == / 2 ^ (- e)).
    { rewrite <- Qpower_opp. now rewrite Z.opp_involutive. }
    rewrite E. pose proof (pow2_pos (- e)) as Hp.
    set (p := 2 ^ (- e)) in *. clearbody p. field.
    repeat split;
      first [intros E'; rewrite E' in Hp; discriminate Hp
            | unfold Qeq; simpl; lia].
Qed.

Lemma shifted_nonneg (n : Z) (d : positive) (e : Z) :
  (0 <= n)%Z -> (0 <= fst (JS.shifted n d e))%Z.
Proof.
  intros Hn. unfold JS.shifted. destruct (0 <=? e)%Z; simpl; [exact Hn|].
  apply Z.mul_nonneg_nonneg; [exact Hn|]. apply Z.pow_nonneg. lia.
Qed.

(** The JS.binade of a positive fraction lies below it. *)
Lemma binade_below (n : Z) (d : positive) :
  (0 < n)%Z -> 2 ^ JS.binade n d <= n # d.
Proof.
  intros Hn. unfold JS.binade.
  set (k := (Z.log2 n - Z.log2 (Z.pos d))%Z).
  pose proof (shifted_spec n d k) as Hs.
  destruct (JS.shifted n d k) as [a b] eqn:E. simpl in Hs.
  destruct (Z.ltb_spec a (Z.pos b)) as [Hlt|Hge].
  - destruct (Z.log2_spec n Hn) as [Hn1 _].
    destruct (Z.log2_spec (Z.pos d) ltac:(lia)) as [_ Hd2].
    pose proof (Z.log2_nonneg n) as Hln.
    pose proof (Z.log2_nonneg (Z.pos d)) as Hld.
    replace (k - 1)%Z with (Z.log2 n + - Z.succ (Z.log2 (Z.pos d)))%Z
      by (subst k; lia).
    rewrite pow2_add, Qpower_opp.
    rewrite <- !pow2_Z by lia.
    rewrite (Qmake_Qdiv n d).
    assert (H1 : inject_Z (2 ^ Z.log2 n) <= inject_Z n)
      by (rewrite <- Zle_Qle; exact Hn1).
    assert (H2 : inject_Z (Z.pos d) <= inject_Z (2 ^ Z.succ (Z.log2 (Z.pos d))))
      by (rewrite <- Zle_Qle; lia).
    assert (H3 : 0 < inject_Z (Z.pos d)) by reflexivity.
    assert (H4 : 0 < inject_Z (2 ^ Z.log2 n)).
    { change 0 with (inject_Z 0). rewrite <- Zlt_Qlt.
      apply Z.pow_pos_nonneg; lia. }
    set (x := inject_Z (2 ^ Z.log2 n)) in *.
    set (y := inject_Z (2 ^ Z.succ (Z.log2 (Z.pos d)))) in *.
    set (u := inject_Z n) in *. set (v := inject_Z (Z.pos d)) in *.
    clearbody x y u v. clear - H1 H2 H3 H4.
    apply Qle_shift_div_l; [exact H3|].
    apply Qle_trans with (x * / y * y).
    + apply Qmult_le_l.
      * apply Qmult_lt_0_compat; [exact H4|]. apply Qinv_lt_0_compat. lra.
      * exact H2.
    + assert (E : x * / y * y == x) by (field; lra). rewrite E. exact H1.
  - rewrite <- Hs.
    assert (H1 : 1 <= a # b).
    { unfold Qle. simpl. lia. }
    pose proof (pow2_pos k) as Hp.
    set (p := 2 ^ k) in *. set (c := a # b) in *. clearbody p c.
    clear - H1 Hp. nra.
Qed.


(** The value [JS.nearest] gives, before the overflow test: an integer [m]
    times [2 ^ e], within half of [2 ^ e] of the fraction. *)
Lemma nearest_value (n : Z) (d : positive) :
  (0 < n)%Z ->
  exists m : Z,
    (0 <= m)%Z
    /\ Qabs (inject_Z m * 2 ^ Z.max (JS.binade n d - 52) (-1074) - (n # d))
       <= 2 ^ Z.max (JS.binade n d - 52) (-1074) * (1 # 2)
    /\ (JS.nearest n d = JS.PosInf
        /\ 2 ^ 1024 <= inject_Z m * 2 ^ Z.max (JS.binade n d - 52) (-1074)
        \/ exists r, JS.nearest n d = JS.Fin r
                     /\ r == inject_Z m * 2 ^ Z.max (JS.binade n d - 52) (-1074)).
Proof.
  intros Hn. unfold JS.nearest.
  set (e := Z.max (JS.binade n d - 52) (-1074)).
  pose proof (shifted_spec n d e) as Hs.
  pose proof (shifted_nonneg n d e ltac:(lia)) as Ha.
  destruct (JS.shifted n d e) as [a b]. simpl in Hs, Ha.
  pose proof (nearest_even_nonneg a b Ha) as Hm.
  pose proof (nearest_even_error a b) as Herr.
  set (m := JS.nearest_even a b) in *.
  exists m. split; [exact Hm|]. split.
  - rewrite <- Hs. pose proof (pow2_pos e) as Hp.
    set (p := 2 ^ e) in *. clearbody p.
    assert (E : inject_Z m * p - (a # b) * p == (inject_Z m - (a # b)) * p)
      by ring.
    rewrite E, Qabs_Qmult, (Qabs_pos p) by lra.
    rewrite (Qmult_comm p). apply Qmult_le_compat_r; [exact Herr | lra].
  - destruct (Z.leb_spec 0 e) as [He|He].
    + destruct (Z.leb_spec (2 ^ 1024) (m * 2 ^ e)) as [Hbig|_].
      { left. split; [reflexivity|].
        rewrite <- (pow2_Z e), <- inject_Z_mult by exact He.
        rewrite <- (pow2_Z 1024) by lia. now rewrite <- Zle_Qle. }
      right. eexists. split; [reflexivity|].
      now rewrite inject_Z_mult, pow2_Z.
    + right. eexists. split; [reflexivity|].
      rewrite Qmake_Qdiv, pow2_Zpos by lia.
      assert (E : 2 ^ e == / 2 ^ (- e)).
      { rewrite <- Qpower_opp. now rewrite Z.opp_involutive. }
      rewrite E. reflexivity.
Qed.

Lemma epsilon_value : JS.epsilon == 1 # 9007199254740992.
Proof. reflexivity. Qed.

Lemma half_ulp (n : Z) (d : positive) :
  (0 < n)%Z ->
  2 ^ Z.max (JS.binade n d - 52) (-1074) * (1 # 2) <= (n # d) * JS.epsilon + JS.tiny.
Proof.
  intros Hn. pose proof (binade_below n d Hn) as Hk.
  assert (Hq : 0 < n # d) by (unfold Qlt; simpl; lia).
  assert (Ht : 0 < JS.tiny) by apply pow2_pos.
  assert (He : 0 < JS.epsilon) by apply pow2_pos.
  destruct (Z.max_spec (JS.binade n d - 52) (-1074)) as [[_ ->]|[_ ->]].
  - change (2 ^ (-1074) * (1 # 2)) with JS.tiny.
    assert (0 <= (n # d) * JS.epsilon) by (apply Qmult_le_0_compat; lra).
    lra.
  - replace (JS.binade n d - 52)%Z with (JS.binade n d + -53 + 1)%Z by lia.
    rewrite !pow2_add. change (2 ^ 1) with 2. fold JS.epsilon.
    set (p := 2 ^ JS.binade n d) in *. set (q := n # d) in *.
    clearbody p q.
    assert (p * JS.epsilon <= q * JS.epsilon)
      by (apply Qmult_le_compat_r; lra).
    assert (E : p * JS.epsilon * 2 * (1 # 2) == p * JS.epsilon) by ring.
    rewrite E. lra.
Qed.

Lemma nearest_error (n : Z) (d : positive) (r : Q) :
  (0 < n)%Z -> JS.nearest n d = JS.Fin r ->
  0 <= r /\ Qabs (r - (n # d)) <= (n # d) * JS.epsilon + JS.tiny.
Proof.
  intros Hn Hr.
  destruct (nearest_value n d Hn)
    as (m & Hm & Herr & [[Hinf _]|(r' & Hr' & E)]); [congruence|].
  rewrite Hr in Hr'. injection Hr' as <-.
  pose proof (half_ulp n d Hn) as Hu.
  pose proof (pow2_pos (Z.max (JS.binade n d - 52) (-1074))) as Hp.
  split.
  - rewrite E. apply Qmult_le_0_compat; [|lra].
    change 0 with (inject_Z 0). now rewrite <- Zle_Qle.
  - rewrite E. eapply Qle_trans; [exact Herr | exact Hu].
Qed.


Lemma nearest_finite (n : Z) (d : positive) :
  (0 < n)%Z -> n # d <= 2 ^ 1023 -> exists r, JS.nearest n d = JS.Fin r.
Proof.
  intros Hn Hq.
  destruct (nearest_value n d Hn)
    as (m & Hm & Herr & [[_ Hbig]|(r & Hr & _)]); [|now exists r].
  exfalso. pose proof (half_ulp n d Hn) as Hu.
  assert (Hpos : 0 < n # d) by (unfold Qlt; simpl; lia).
  apply Qabs_Qle_condition in Herr as [_ Hup].
  assert (Ht : JS.tiny <= 1) by discriminate.
  assert (Hv : 2 ^ 1023 * JS.epsilon + 1 < 2 ^ 1023) by reflexivity.
  assert (Hd : 2 ^ 1024 == 2 * 2 ^ 1023) by reflexivity.
  assert (He : (n # d) * JS.epsilon <= 2 ^ 1023 * JS.epsilon).
  { apply Qmult_le_compat_r; [exact Hq | discriminate]. }
  set (v := inject_Z m * 2 ^ Z.max (JS.binade n d - 52) (-1074)) in *.
  set (h := 2 ^ Z.max (JS.binade n d - 52) (-1074) * (1 # 2)) in *.
  set (q := n # d) in *. set (B := 2 ^ 1023) in *.
  set (qe := q * JS.epsilon) in *. set (Be := B * JS.epsilon) in *.
  set (C := 2 ^ 1024) in *.
  clearbody v h q B qe Be C. clear - Hbig Hu Hup Ht Hv Hd He Hq. lra.
Qed.

Lemma round_not_NaN (q : Q) : JS.round q <> JS.NaN.
Proof.
  unfold JS.round. destruct q as [[|n|n] d]; simpl; [discriminate| |].
  - destruct (nearest_value (Z.pos n) d ltac:(lia))
      as (m & _ & _ & [[-> _]|(r & -> & _)]); discriminate.
  - destruct (nearest_value (Z.pos n) d ltac:(lia))
      as (m & _ & _ & [[-> _]|(r & -> & _)]); discriminate.
Qed.

(** Rounding keeps the sign. *)
Lemma round_nonneg (q : Q) :
  0 <= q -> JS.round q = JS.PosInf \/ exists r, JS.round q = JS.Fin r /\ 0 <= r.
Proof.
  intros Hq. unfold JS.round. destruct q as [[|n|n] d]; simpl.
  - right. exists 0. split; [reflexivity | discriminate].
  - destruct (JS.nearest (Z.pos n) d) as [r| | |] eqn:E.
    + right. exists r. split; [reflexivity|].
      now destruct (nearest_error (Z.pos n) d r ltac:(lia) E).
    + destruct (nearest_value (Z.pos n) d ltac:(lia))
        as (m & _ & _ & [[H _]|(r & H & _)]); congruence.
    + now left.
    + destruct (nearest_value (Z.pos n) d ltac:(lia))
        as (m & _ & _ & [[H _]|(r & H & _)]); congruence.
  - exfalso. unfold Qle in Hq. simpl in Hq. lia.
Qed.

Lemma Qopp_opp_eq (q : Q) : q = - - q.
Proof. destruct q as [a b]. unfold Qopp. simpl. now rewrite Z.opp_involutive. Qed.

Lemma round_opp (q : Q) : JS.round (- q) = JS.opposite (JS.round q).
Proof.
  unfold JS.round. destruct q as [[|n|n] d]; simpl; [reflexivity|reflexivity|].
  destruct (JS.nearest (Z.pos n) d) as [r| | |]; simpl; try reflexivity.
  f_equal. destruct r as [a b]. unfold Qopp. simpl.
  now rewrite Z.opp_involutive.
Qed.

Lemma round_nonpos (q : Q) :
  q <= 0 -> JS.round q = JS.NegInf \/ exists r, JS.round q = JS.Fin r /\ r <= 0.
Proof.
  intros Hq.
  assert (Ho : JS.round q = JS.opposite (JS.round (- q)))
    by (rewrite <- round_opp; f_equal; apply Qopp_opp_eq).
  rewrite Ho.
  destruct (round_nonneg (- q)) as [->|(r & -> & Hr)]; [lra| |].
  - now left.
  - right. exists (- r). split; [reflexivity | lra].
Qed.

Lemma round_error_nonneg (q r : Q) :
  0 <= q -> JS.round q = JS.Fin r -> Qabs (r - q) <= Qabs q * JS.epsilon + JS.tiny.
Proof.
  intros Hq. rewrite (Qabs_pos q Hq). unfold JS.round.
  destruct q as [[|n|n] d]; cbn [Qnum Qden].
  - intros [= <-]. discriminate.
  - intros H. now destruct (nearest_error (Z.pos n) d r ltac:(lia) H).
  - exfalso. unfold Qle in Hq. simpl in Hq. lia.
Qed.

Lemma round_error (q r : Q) :
  JS.round q = JS.Fin r -> Qabs (r - q) <= Qabs q * JS.epsilon + JS.tiny.
Proof.
  destruct (Qlt_le_dec q 0) as [Hneg|Hpos]; [|now apply round_error_nonneg].
  assert (Hr : JS.round q = JS.opposite (JS.round (- q)))
    by (rewrite <- round_opp; f_equal; apply Qopp_opp_eq).
  rewrite Hr.
  destruct (JS.round (- q)) as [r'| | |] eqn:E; cbn [JS.opposite];
    try discriminate.
  intros [= <-].
  pose proof (round_error_nonneg (- q) r' ltac:(lra) E) as H.
  rewrite Qabs_opp in H.
  assert (Eb : - r' - q == - (r' - - q)) by ring.
  rewrite Eb, Qabs_opp. exact H.
Qed.

Lemma round_finite (q : Q) :
  Qabs q <= 2 ^ 1023 -> exists r, JS.round q = JS.Fin r.
Proof.
  unfold JS.round. destruct q as [[|n|n] d]; simpl; intros Hq.
  - now exists 0.
  - apply nearest_finite; [lia|].
    exact Hq.
  - destruct (nearest_finite (Z.pos n) d ltac:(lia)) as [r ->].
    + exact Hq.
    + now exists (- r).
Qed.


Lemma round_zero (q : Q) : q == 0 -> JS.round q = JS.Fin 0.
Proof.
  destruct q as [n d]. unfold Qeq. simpl. rewrite Z.mul_1_r.
  intros ->. reflexivity.
Qed.

(** The sign of a difference and of a quotient by a positive number. *)
Lemma sub_nonneg (a b : Q) :
  b <= a ->
  JS.sub (JS.Fin a) (JS.Fin b) = JS.PosInf
  \/ exists r, JS.sub (JS.Fin a) (JS.Fin b) = JS.Fin r /\ 0 <= r.
Proof. intros H. cbn [JS.sub]. apply round_nonneg. lra. Qed.

Lemma sub_nonpos (a b : Q) :
  a <= b ->
  JS.sub (JS.Fin a) (JS.Fin b) = JS.NegInf
  \/ exists r, JS.sub (JS.Fin a) (JS.Fin b) = JS.Fin r /\ r <= 0.
Proof. intros H. cbn [JS.sub]. apply round_nonpos. lra. Qed.

Lemma quot_nonneg (x : JS.number) (b : Q) :
  0 < b ->
  (x = JS.PosInf \/ exists r, x = JS.Fin r /\ 0 <= r) ->
  JS.quot x (JS.Fin b) = JS.PosInf
  \/ exists r, JS.quot x (JS.Fin b) = JS.Fin r /\ 0 <= r.
Proof.
  intros Hb [->|(r & -> & Hr)]; cbn [JS.quot].
  - left. assert (E : Qle_bool 0 b = true) by (apply Qle_bool_iff; lra).
    now rewrite E.
  - unfold JS.div.
    destruct (Qeq_bool b 0) eqn:E; [apply Qeq_bool_eq in E; lra|].
    apply round_nonneg. apply Qle_shift_div_l; lra.
Qed.

Lemma quot_nonpos (x : JS.number) (b : Q) :
  0 < b ->
  (x = JS.NegInf \/ exists r, x = JS.Fin r /\ r <= 0) ->
  JS.quot x (JS.Fin b) = JS.NegInf
  \/ exists r, JS.quot x (JS.Fin b) = JS.Fin r /\ r <= 0.
Proof.
  intros Hb [->|(r & -> & Hr)]; cbn [JS.quot].
  - left. assert (E : Qle_bool 0 b = true) by (apply Qle_bool_iff; lra).
    now rewrite E.
  - unfold JS.div.
    destruct (Qeq_bool b 0) eqn:E; [apply Qeq_bool_eq in E; lra|].
    apply round_nonpos. apply Qle_shift_div_r; lra.
Qed.

(** Dividing by 100 and multiplying by 100, as [formatPercent(x / 100)]
    does, gives back [x] up to the rounding of the two operations. *)
Lemma hundredth_times_100 (x : Q) :
  Qabs x <= 2 ^ 1000 ->
  exists y,
    JS.mulQ (JS.quot (JS.Fin x) (JS.Fin 100)) 100 = JS.Fin y
    /\ Qabs (y - x) <= Qabs x * (1 # 2251799813685248) + 102 * JS.tiny.
Proof.
  intros Hx. cbn [JS.quot]. unfold JS.div.
  change (Qeq_bool 100 0) with false. cbv iota.
  assert (Ediv : x / 100 == x * (1 # 100)) by (field; discriminate).
  assert (Ha : Qabs (x / 100) == Qabs x * (1 # 100)).
  { rewrite Ediv, Qabs_Qmult. reflexivity. }
  pose proof (Qabs_nonneg x) as HA.
  assert (HB : 2 ^ 1000 * 2 + 100 <= 2 ^ 1023) by discriminate.
  assert (HT : 0 < JS.tiny) by apply pow2_pos.
  assert (HT1 : JS.tiny <= 1) by discriminate.
  destruct (round_finite (x / 100)) as [r1 Hr1].
  { rewrite Ha. set (A := Qabs x) in *. set (B := 2 ^ 1000) in *.
    set (C := 2 ^ 1023) in *. clearbody A B C.
    clear - Hx HA HB. lra. }
  rewrite Hr1. cbn [JS.mulQ].
  pose proof (round_error _ _ Hr1) as E1.
  rewrite Ha, epsilon_value in E1.
  assert (Hr1a : Qabs r1 <= Qabs x * (1 # 100)
                             + (Qabs x * (1 # 100) * (1 # 9007199254740992)
                                + JS.tiny)).
  { assert (E : r1 == x / 100 + (r1 - x / 100)) by ring.
    rewrite E at 1. eapply Qle_trans; [apply Qabs_triangle|].
    rewrite Ha. apply Qplus_le_r. exact E1. }
  assert (Hm : Qabs (r1 * 100) == 100 * Qabs r1).
  { rewrite Qabs_Qmult. change (Qabs 100) with 100. ring. }
  destruct (round_finite (r1 * 100)) as [y Hy].
  { rewrite Hm. set (A := Qabs x) in *. set (R := Qabs r1) in *.
    set (B := 2 ^ 1000) in *. set (C := 2 ^ 1023) in *.
    set (T := JS.tiny) in *. clearbody A R B C T.
    clear - Hx HA HB HT HT1 Hr1a. lra. }
  exists y. split; [exact Hy|].
  pose proof (round_error _ _ Hy) as E2.
  rewrite Hm, epsilon_value in E2.
  apply Qabs_Qle_condition in E1 as [E1a E1b].
  apply Qabs_Qle_condition in E2 as [E2a E2b].
  apply Qabs_Qle_condition.
  rewrite Ediv in E1a, E1b.
  set (A := Qabs x) in *. set (R := Qabs r1) in *. set (T := JS.tiny) in *.
  clearbody A R T. clear - HA HT Hr1a E1a E1b E2a E2b.
  split; lra.
Qed.

End Rounding.

(** ** The Monte Carlo histogram *)

Section Histogram.

Import MonteCarloVaR.

Variable data : MonteCarloData.t.

Local Abbreviation lo := (MonteCarloData.min (MonteCarloData.dist data)).
Local Abbreviation hi := (MonteCarloData.max (MonteCarloData.dist data)).

Lemma binOf_lt (sim : Q) (k : nat) :
  binOf data sim = Some k -> (k < 50)%nat.
Proof.
  unfold binOf, binCount. destruct (binIndex data sim); try discriminate.
  destruct (Z.leb_spec 0 z), (Z.ltb_spec z 50); simpl; try discriminate.
  intros [= <-]. lia.
Qed.

(** One step of the loop, in terms of [binOf]: the guarded access is
    always inside the array. *)
Lemma countSim_binOf (bins : list bin) (sim : Q) :
  length bins = 50%nat ->
  countSim data bins sim
  = JS.Ok match binOf data sim with
          | Some k => alter bump k bins
          | None => bins
          end.
Proof.
  intros Hlen. unfold countSim, binOf, binCount.
  destruct (binIndex data sim) as [z| | |]; simpl; try reflexivity.
  destruct (Z.leb_spec 0 z), (Z.ltb_spec z 50); simpl; try reflexivity.
  destruct (Z.ltb_spec z 0); [lia|].
  destruct (lookup_lt_is_Some_2 bins (Z.to_nat z)) as [b Hb]; [lia|].
  rewrite Hb. f_equal. unfold bump.
  apply list_eq. intros j. destruct (decide (j = Z.to_nat z)) as [->|Hj].
  - rewrite list_lookup_insert_eq by lia.
    rewrite list_lookup_alter_eq, Hb. reflexivity.
  - rewrite list_lookup_insert_ne by congruence.
    rewrite list_lookup_alter_ne by congruence. reflexivity.
Qed.

Lemma countAt_alter (bins : list bin) (k j : nat) :
  (k < length bins)%nat ->
  countAt (alter bump k bins) j
  = (countAt bins j + if (k =? j)%nat then 1 else 0)%nat.
Proof.
  intros Hk. unfold countAt. destruct (Nat.eqb_spec k j) as [->|Hkj].
  - rewrite list_lookup_alter_eq.
    destruct (lookup_lt_is_Some_2 bins j Hk) as [b ->]. simpl. lia.
  - rewrite list_lookup_alter_ne by congruence. lia.
Qed.

Lemma total_cons (b : bin) (bins : list bin) :
  total (b :: bins) = (count b + total bins)%nat.
Proof. reflexivity. Qed.

Lemma total_alter (bins : list bin) (k : nat) :
  (k < length bins)%nat -> total (alter bump k bins) = S (total bins).
Proof.
  revert k. induction bins as [|b bins IH]; intros k Hk; [simpl in Hk; lia|].
  destruct k as [|k].
  - change (alter bump 0%nat (b :: bins)) with (bump b :: bins).
    rewrite !total_cons. simpl. lia.
  - change (alter bump (S k) (b :: bins)) with (b :: alter bump k bins).
    rewrite !total_cons, IH by (simpl in Hk; lia). lia.
Qed.

Lemma map_value_alter (bins : list bin) (k : nat) :
  map value (alter bump k bins) = map value bins.
Proof.
  revert k. induction bins as [|b bins IH]; intros k; [reflexivity|].
  destruct k as [|k].
  - reflexivity.
  - change (alter bump (S k) (b :: bins)) with (b :: alter bump k bins).
    simpl. now rewrite IH.
Qed.

(** The loop never throws, keeps the 50 bins and their values, and counts
    every simulation in the bin [binOf] gives it. *)
Lemma forEach_counts (sims : list Q) (bins : list bin) :
  length bins = 50%nat ->
  exists bins',
    fold_left (fun acc sim => JS.bind acc (fun b => countSim data b sim))
              sims (JS.Ok bins) = JS.Ok bins'
    /\ length bins' = 50%nat
    /\ map value bins' = map value bins
    /\ (forall k, countAt bins' k
                  = (countAt bins k
                     + length (List.filter (inBin data k) sims))%nat)
    /\ total bins'
       = (total bins + length (List.filter (counted data) sims))%nat.
Proof.
  revert bins. induction sims as [|sim sims IH]; intros bins Hlen.
  - exists bins. simpl. repeat split; auto.
  - cbn [fold_left JS.bind]. rewrite countSim_binOf by assumption.
    destruct (binOf data sim) as [k|] eqn:Hk.
    + pose proof (binOf_lt _ _ Hk) as Hk50.
      assert (Hin : forall j, inBin data j sim = (k =? j)%nat)
        by (intros j; unfold inBin; now rewrite Hk).
      assert (Hcnt : counted data sim = true)
        by (unfold counted; now rewrite Hk).
      destruct (IH (alter bump k bins)) as (bins' & Hf & Hl & Hv & Hc & Ht);
        [now rewrite length_alter|].
      exists bins'. split; [exact Hf|]. split; [exact Hl|]. split.
      { rewrite Hv. apply map_value_alter. }
      split.
      * intros j. rewrite Hc, countAt_alter by lia.
        cbn [List.filter]. rewrite Hin.
        destruct (k =? j)%nat; simpl; lia.
      * rewrite Ht, total_alter by lia.
        cbn [List.filter]. rewrite Hcnt. simpl. lia.
    + assert (Hin : forall j, inBin data j sim = false)
        by (intros j; unfold inBin; now rewrite Hk).
      assert (Hcnt : counted data sim = false)
        by (unfold counted; now rewrite Hk).
      destruct (IH bins Hlen) as (bins' & Hf & Hl & Hv & Hc & Ht).
      exists bins'. split; [exact Hf|]. split; [exact Hl|].
      split; [exact Hv|]. split.
      * intros j. rewrite Hc. cbn [List.filter]. now rewrite Hin.
      * rewrite Ht. cbn [List.filter]. now rewrite Hcnt.
Qed.

Local Open Scope Q_scope.

Lemma Qfloor_nonneg (q : Q) : 0 <= q -> (0 <= Qfloor q)%Z.
Proof. intros H. apply (Qfloor_resp_le 0 q H). Qed.

Lemma Qfloor_neg (q : Q) : q < 0 -> (Qfloor q < 0)%Z.
Proof.
  intros H. pose proof (Qfloor_le q) as Hf.
  rewrite Zlt_Qlt. change (inject_Z 0) with 0. lra.
Qed.

(** A simulation is counted exactly when the quotient computed for it is
    at least 0 (which NaN is not), and then in one of the 50 bins. *)
Lemma binOf_quotient (sim : Q) :
  match binOf data sim with
  | Some k => (k <= 49)%nat /\ JS.ge (quotient data sim) (JS.Fin 0) = true
  | None => JS.ge (quotient data sim) (JS.Fin 0) = false
  end.
Proof.
  unfold binOf, binIndex, binCount, JS.ge.
  destruct (quotient data sim) as [q| | |]; cbn [JS.floor JS.min JS.le].
  - destruct (Qlt_le_dec q 0) as [Hneg|Hpos].
    + pose proof (Qfloor_neg q Hneg) as Hf.
      destruct (Z.leb_spec 0 (Z.min (Qfloor q) (50 - 1))); [lia|].
      simpl. destruct (Qle_bool 0 q) eqn:E; [|reflexivity].
      apply Qle_bool_iff in E. lra.
    + pose proof (Qfloor_nonneg q Hpos) as Hf.
      destruct (Z.leb_spec 0 (Z.min (Qfloor q) (50 - 1))); [|lia].
      destruct (Z.ltb_spec (Z.min (Qfloor q) (50 - 1)) 50); [|lia].
      simpl. split; [lia|]. now apply Qle_bool_iff.
  - reflexivity.
  - simpl. split; [lia | reflexivity].
  - reflexivity.
Qed.

Lemma counted_nonneg (sim : Q) :
  (quotient data sim = JS.PosInf
   \/ exists r, quotient data sim = JS.Fin r /\ 0 <= r) ->
  counted data sim = true.
Proof.
  intros Hq. pose proof (binOf_quotient sim) as H. unfold counted.
  destruct (binOf data sim); [reflexivity|].
  destruct Hq as [E|(r & E & Hr)]; rewrite E in H.
  - discriminate H.
  - unfold JS.ge in H. cbn [JS.le] in H.
    apply Qle_bool_iff in Hr. congruence.
Qed.

Lemma binOf_nonpos (sim : Q) :
  (quotient data sim = JS.NegInf
   \/ exists r, quotient data sim = JS.Fin r /\ r <= 0) ->
  binOf data sim = None \/ binOf data sim = Some 0%nat.
Proof.
  unfold binOf, binIndex, binCount.
  intros [->|(r & -> & Hr)]; cbn [JS.floor JS.min]; [now left|].
  assert (Hf : (Qfloor r <= 0)%Z).
  { pose proof (Qfloor_le r) as H. rewrite Zle_Qle.
    change (inject_Z 0) with 0. lra. }
  destruct (Z.leb_spec 0 (Z.min (Qfloor r) (50 - 1))); [|now left].
  right. replace (Z.min (Qfloor r) (50 - 1)) with 0%Z by lia. reflexivity.
Qed.

(** With a bin size that is a positive double, a simulation at or above
    [min] is counted; one below [min] is not, unless its quotient rounds
    to zero, and then it is counted in bin 0. *)
Lemma binOf_regular (b sim : Q) :
  binSize data = JS.Fin b -> 0 < b ->
  (lo <= sim -> counted data sim = true)
  /\ (sim < lo -> binOf data sim = None \/ binOf data sim = Some 0%nat).
Proof.
  intros Hb Hpos. split; intros Hs.
  - apply counted_nonneg. unfold quotient. rewrite Hb.
    apply quot_nonneg; [exact Hpos|]. apply sub_nonneg. exact Hs.
  - apply binOf_nonpos. unfold quotient. rewrite Hb.
    apply quot_nonpos; [exact Hpos|]. apply sub_nonpos. lra.
Qed.

(** With [min = max] the bin size is 0 and every quotient is NaN or an
    infinity: a simulation is counted in bin 49 or not at all, and one that
    is not above [min] is not counted. *)
Lemma binSize_zero : lo == hi -> binSize data = JS.Fin 0.
Proof.
  intros H. unfold binSize. cbn [JS.sub].
  rewrite (round_zero (hi - lo)) by lra. reflexivity.
Qed.

Lemma binOf_degenerate (sim : Q) :
  lo == hi ->
  (binOf data sim = None \/ binOf data sim = Some 49%nat)
  /\ (sim <= lo -> binOf data sim = None).
Proof.
  intros Heq. unfold binOf, binIndex, quotient.
  rewrite (binSize_zero Heq). cbn [JS.sub].
  destruct (JS.round (sim - lo)) as [r| | |] eqn:E; cbn [JS.quot].
  - unfold JS.div. change (Qeq_bool 0 0) with true. cbv iota.
    destruct (Qcompare_spec r 0) as [Hr|Hr|Hr]; cbn [JS.floor JS.min].
    + split; [now left | reflexivity].
    + split; [now left | reflexivity].
    + split; [now right|]. intros Hs.
      destruct (round_nonpos (sim - lo) ltac:(lra)) as [H|(r' & H & Hr')];
        rewrite E in H; [discriminate|].
      injection H as <-. lra.
  - split; [now left | reflexivity].
  - change (Qle_bool 0 0) with true. cbv iota. cbn [JS.floor JS.min].
    split; [now right|]. intros Hs.
    destruct (round_nonpos (sim - lo) ltac:(lra)) as [H|(r' & H & _)];
      rewrite E in H; discriminate.
  - change (Qle_bool 0 0) with true. cbv iota. cbn [JS.floor JS.min].
    split; [now left | reflexivity].
Qed.

Lemma countAt_emptyBins (k : nat) : countAt (emptyBins data) k = 0%nat.
Proof.
  unfold countAt, emptyBins. rewrite list_lookup_fmap.
  destruct (seq 0 (Z.to_nat binCount) !! k); reflexivity.
Qed.

Lemma total_emptyBins : total (emptyBins data) = 0%nat.
Proof.
  unfold emptyBins. generalize (seq 0 (Z.to_nat binCount)).
  intros l. induction l as [|i l IH]; [reflexivity|].
  simpl. exact IH.
Qed.

Lemma length_emptyBins : length (emptyBins data) = 50%nat.
Proof. unfold emptyBins. now rewrite length_map, length_seq. Qed.

Lemma filter_all {B : Type} (f : B -> bool) (l : list B) :
  Forall (fun x => f x = true) l -> List.filter f l = l.
Proof.
  induction 1 as [|x l Hx _ IH]; simpl; [reflexivity|].
  now rewrite Hx, IH.
Qed.

Lemma filter_none {B : Type} (f : B -> bool) (l : list B) :
  Forall (fun x => f x = false) l -> List.filter f l = [].
Proof.
  induction 1 as [|x l Hx _ IH]; simpl; [reflexivity|].
  now rewrite Hx, IH.
Qed.

(** C8, as amended.  [createHistogram] never throws -- no access falls
    outside the array -- and returns exactly 50 bins.  Bin [k] counts the
    simulations whose bin is [k], so every counted simulation is counted
    once.  A simulation is counted exactly when the quotient
    (s - min) / binSize, as computed in double arithmetic, is at least 0,
    however large: a value above max is not left out.  When binSize is a
    positive double, every simulation at or above min is counted, and one
    below min is not counted or (when its quotient rounds to zero) counted
    in bin 0; so the counts sum to the number of simulations when none is
    below min.  When min = max, other than 0, a simulation is counted in
    bin 49 or not at all, and not when it is at most min; so all 50 counts
    are 0 when all simulations lie in [min, max]. *)
Theorem createHistogram_counts :
  exists bins,
    createHistogram data = JS.Ok bins
    /\ length bins = 50%nat
    /\ (forall k, countAt bins k
                  = length (List.filter (inBin data k)
                                        (MonteCarloData.simulations data)))
    /\ total bins
       = length (List.filter (counted data) (MonteCarloData.simulations data))
    /\ (forall sim,
           match binOf data sim with
           | Some k =>
               (k <= 49)%nat
               /\ JS.ge (quotient data sim) (JS.Fin 0) = true
           | None => JS.ge (quotient data sim) (JS.Fin 0) = false
           end)
    /\ (forall b, binSize data = JS.Fin b -> 0 < b ->
        (forall sim,
            (lo <= sim -> counted data sim = true)
            /\ (sim < lo ->
                binOf data sim = None \/ binOf data sim = Some 0%nat))
        /\ (Forall (fun sim => lo <= sim) (MonteCarloData.simulations data) ->
            total bins = length (MonteCarloData.simulations data)))
    /\ (lo == hi -> ~ lo == 0 ->
        (forall sim,
            (binOf data sim = None \/ binOf data sim = Some 49%nat)
            /\ (sim <= lo -> binOf data sim = None))
        /\ (Forall (fun sim => lo <= sim <= hi)
                   (MonteCarloData.simulations data) ->
            Forall (fun b => count b = 0%nat) bins)).
Proof.
  destruct (forEach_counts (MonteCarloData.simulations data) (emptyBins data)
                           length_emptyBins)
    as (bins & Hf & Hl & _ & Hc & Ht).
  exists bins. split; [exact Hf|]. split; [exact Hl|].
  assert (Hc' : forall k, countAt bins k
                          = length (List.filter (inBin data k)
                                      (MonteCarloData.simulations data))).
  { intros k. now rewrite Hc, countAt_emptyBins. }
  split; [exact Hc'|].
  rewrite total_emptyBins in Ht. split; [exact Ht|].
  split; [exact binOf_quotient|]. split.
  - intros b Hb Hpos. split; [intros sim; now apply (binOf_regular b)|].
    intros Hall. rewrite Ht, filter_all; [reflexivity|].
    eapply Forall_impl; [exact Hall|]. intros sim Hs. simpl.
    now apply (binOf_regular b sim Hb Hpos).
  - intros Heq _. split; [intros sim; now apply binOf_degenerate|].
    intros Hall. apply Forall_lookup. intros k b Hk.
    specialize (Hc' k). unfold countAt in Hc'. rewrite Hk in Hc'.
    rewrite Hc', filter_none; [reflexivity|].
    eapply Forall_impl; [exact Hall|]. intros sim [_ Hs]. simpl.
    unfold inBin.
    destruct (binOf_degenerate sim Heq) as [_ Hn].
    rewrite Hn by lra. reflexivity.
Qed.

End Histogram.

(** C8, witness: three simulations inside [0, 100] are all counted. *)
Lemma createHistogram_counts_witness :
  exists bins,
    MonteCarloVaR.createHistogram (Sample.monteCarlo 0 100 [0; 37; 100]%Q)
    = JS.Ok bins
    /\ MonteCarloVaR.total bins = 3%nat.
Proof.
  destruct (createHistogram_counts (Sample.monteCarlo 0 100 [0; 37; 100]%Q))
    as (bins & Hf & _ & _ & _ & _ & Hreg & _).
  exists bins. split; [exact Hf|].
  edestruct Hreg as [_ Hall].
  - vm_compute. reflexivity.
  - reflexivity.
  - apply Hall. repeat constructor; discriminate.
Defined.

(** C8, counterexample to the claim as stated.  With min = max = 100 a
    simulation of 150 is counted in bin 49, so not all counts are 0; with
    min = 0 < max = 50 a simulation of 80 is counted although it is not in
    [min, max], so the counts do not sum to the number of simulations in
    that range. *)
Lemma createHistogram_counts_value_above_max :
  (exists bins,
      MonteCarloVaR.createHistogram (Sample.monteCarlo 100 100 [150]%Q)
      = JS.Ok bins
      /\ MonteCarloVaR.countAt bins 49 = 1%nat
      /\ ~ Forall (fun b => MonteCarloVaR.count b = 0%nat) bins)
  /\ (exists bins,
         MonteCarloVaR.createHistogram (Sample.monteCarlo 0 50 [80]%Q)
         = JS.Ok bins
         /\ MonteCarloVaR.total bins = 1%nat
         /\ length (List.filter (fun s => Qle_bool 0 s && Qle_bool s 50) [80]%Q)
            = 0%nat).
Proof.
  split.
  - eexists. split; [vm_compute; reflexivity|]. split; [reflexivity|].
    intros H. rewrite Forall_lookup in H.
    specialize (H 49%nat _ eq_refl). discriminate H.
  - eexists. split; [vm_compute; reflexivity|]. split; reflexivity.
Qed.

(** ** The correlation heatmap *)

Section Heatmap.

Import CorrelationHeatmap.

Lemma corrMap_absent (correlations : list Correlation.t)
      (m : gmap string Q) (k : string) :
  ~ In k (map itemKey correlations) ->
  fold_left
    (fun m item =>
       <[key (Correlation.ticker1 item) (Correlation.ticker2 item)
         := Correlation.correlation item]> m)
    correlations m !! k
  = m !! k.
Proof.
  revert m. induction correlations as [|item l IH]; intros m Hk; simpl.
  - reflexivity.
  - rewrite IH by (intros H; apply Hk; now right).
    apply lookup_insert_ne. intros E. apply Hk. left. exact E.
Qed.

Lemma lookup_absent (correlations : list Correlation.t)
      (ticker1 ticker2 : string) :
  ~ In (key ticker1 ticker2) (map itemKey correlations) ->
  lookup (corrMap correlations) ticker1 ticker2 = 0%Q.
Proof.
  intros Hk. unfold lookup, corrMap.
  rewrite corrMap_absent by exact Hk. now rewrite lookup_empty.
Qed.

Lemma append_empty (s : string) : "" +:+ s = s.
Proof. reflexivity. Qed.

Lemma append_String (c : ascii) (s t : string) :
  String c s +:+ t = String c (s +:+ t).
Proof. reflexivity. Qed.

(** The key determines the pair when the first tickers have no hyphen. *)
Lemma key_inj (a b c d : string) :
  hyphenFree a = true -> hyphenFree c = true ->
  key a b = key c d -> a = c /\ b = d.
Proof.
  unfold key. revert c.
  induction a as [|x a IH]; intros [|y c] Ha Hc E;
    rewrite ?append_empty, ?append_String in E.
  - injection E as E. split; [reflexivity | exact E].
  - injection E as <- _. discriminate Hc.
  - injection E as -> _. discriminate Ha.
  - injection E as -> E. simpl in Ha, Hc.
    apply andb_prop in Ha as [_ Ha]. apply andb_prop in Hc as [_ Hc].
    destruct (IH c Ha Hc E) as [-> ->]. split; reflexivity.
Qed.

Lemma color_nonpositive (x : JS.number) :
  JS.le x (JS.Fin 0) = true -> blue (getCorrelationColor x).
Proof.
  unfold blue, getCorrelationColor.
  destruct x as [q| | |]; simpl; try discriminate; [|auto].
  intros Hq. apply Qle_bool_iff in Hq.
  assert (H1 : Qle_bool q (7 # 10) = true) by (apply Qle_bool_iff; lra).
  assert (H2 : Qle_bool q (3 # 10) = true) by (apply Qle_bool_iff; lra).
  assert (H3 : Qle_bool q 0 = true) by (apply Qle_bool_iff; lra).
  rewrite H1, H2, H3. simpl.
  destruct (Qle_bool q (- (3 # 10))); simpl; [|auto].
  destruct (Qle_bool q (- (7 # 10))); simpl; auto.
Qed.

(** C10.  The lookup map is keyed by the string "ticker1-ticker2" alone.
    A cell whose key is produced by no entry of the correlations list
    shows the value 0 (text 0.00, colour bg-blue-300); for tickers
    without a hyphen this is every ordered pair that the list does not
    contain in that order, so a pair listed only in the reversed order
    and an unlisted diagonal pair show 0.  [getCorrelationColor] maps
    every correlation <= 0, including 0 itself, to a blue shade. *)
Theorem heatmap_absent_key_renders_zero :
  (forall (data : CorrelationData.t) (ticker1 ticker2 : string),
      ~ In (key ticker1 ticker2)
           (map itemKey (CorrelationData.correlations data)) ->
      correlation (renderCell data ticker1 ticker2) = 0%Q
      /\ text (renderCell data ticker1 ticker2) = "0.00"
      /\ bgColor (renderCell data ticker1 ticker2) = "bg-blue-300")
  /\ (forall (data : CorrelationData.t) (ticker1 ticker2 : string),
         hyphenFree ticker1 = true ->
         Forall (fun item => hyphenFree (Correlation.ticker1 item) = true)
                (CorrelationData.correlations data) ->
         ~ In (ticker1, ticker2)
              (map (fun item => (Correlation.ticker1 item,
                                 Correlation.ticker2 item))
                   (CorrelationData.correlations data)) ->
         correlation (renderCell data ticker1 ticker2) = 0%Q)
  /\ (forall x : JS.number,
         JS.le x (JS.Fin 0) = true -> blue (getCorrelationColor x))
  /\ getCorrelationColor (JS.Fin 0) = "bg-blue-300".
Proof.
  split; [|split; [|split]].
  - intros data t1 t2 Hk. unfold renderCell.
    rewrite (lookup_absent _ _ _ Hk). repeat split.
  - intros data t1 t2 H1 Hall Hpair. unfold renderCell. simpl.
    apply lookup_absent. intros Hin. apply Hpair.
    apply in_map_iff in Hin as (item & Hkey & Hitem).
    apply in_map_iff. exists item. split; [|exact Hitem].
    rewrite Forall_forall in Hall.
    unfold itemKey in Hkey.
    destruct (key_inj _ _ _ _ (Hall item ltac:(now apply list_elem_of_In)) H1 Hkey)
      as [-> ->].
    reflexivity.
  - exact color_nonpositive.
  - reflexivity.
Qed.

End Heatmap.

(** C10, witness: the matrix lists (AAPL, MSFT) only; the cells for the
    reversed pair and for the diagonal show 0. *)
Lemma heatmap_absent_key_renders_zero_witness :
  CorrelationHeatmap.correlation
    (CorrelationHeatmap.renderCell Sample.upperOnly "MSFT" "AAPL") = 0%Q
  /\ CorrelationHeatmap.correlation
       (CorrelationHeatmap.renderCell Sample.upperOnly "AAPL" "AAPL") = 0%Q
  /\ CorrelationHeatmap.blue
       (CorrelationHeatmap.getCorrelationColor (JS.Fin 0)).
Proof.
  destruct heatmap_absent_key_renders_zero as (Hkey & Hpair & Hblue & _).
  split; [|split].
  - apply (Hkey Sample.upperOnly "MSFT" "AAPL").
    simpl. intros [H|[]]. discriminate H.
  - apply (Hpair Sample.upperOnly "AAPL" "AAPL").
    + reflexivity.
    + repeat constructor.
    + simpl. intros [H|[]]. discriminate H.
  - apply Hblue. reflexivity.
Defined.

(** ** Building the portfolio: the form and the CSV import *)

Section Acceptance.

Import PortfolioForm.

Lemma handleAddPosition_accepts (positions : list PortfolioPosition.t) (st : state) :
  accepts st ->
  handleAddPosition positions st
  = (match editingIndex st with
     | Some i => assign positions i (newPosition st)
     | None => Positions (positions ++ [newPosition st])
     end, reset st).
Proof.
  intros (Ht & Hq & Hv). unfold handleAddPosition. rewrite Ht, Hq. simpl.
  destruct (isValid (validationState st)) as [[|]|]; try congruence;
    destruct (editingIndex st); reflexivity.
Qed.

Lemma handleAddPosition_changed (positions : list PortfolioPosition.t) (st : state) :
  fst (handleAddPosition positions st) <> Unchanged -> accepts st.
Proof.
  unfold handleAddPosition, accepts.
  destruct (JS.truthy (ticker st)), (JS.truthy (quantity st)); simpl;
    try congruence.
  destruct (isValid (validationState st)) as [[|]|]; simpl;
    intros H; repeat split; congruence.
Qed.

Lemma assign_members (positions : list PortfolioPosition.t) (i : Z)
      (p : PortfolioPosition.t) (ps : list PortfolioPosition.t) :
  assign positions i p = Positions ps ->
  forall x, In x ps -> In x positions \/ x = p.
Proof.
  unfold assign. destruct (Z.ltb_spec i 0).
  - intros [= <-] x Hx. now left.
  - destruct (Z.ltb_spec i (Z.of_nat (length positions))).
    + intros [= <-] x Hx. apply list_elem_of_In in Hx.
      apply list_elem_of_lookup in Hx as [j Hj].
      destruct (decide (j = Z.to_nat i)) as [->|Hne].
      * rewrite list_lookup_insert_eq in Hj by lia.
        right. congruence.
      * rewrite list_lookup_insert_ne in Hj by congruence.
        left. apply list_elem_of_In. eapply list_elem_of_lookup_2. exact Hj.
    + destruct (Z.to_nat i - length positions)%nat; [|discriminate].
      intros [= <-] x Hx. apply in_app_or in Hx as [Hx|[<-|[]]]; auto.
Qed.

End Acceptance.

Section CsvImport.

Import ImportModal.

Lemma parseRow_Some (m : mapping) (row : gmap string string)
      (p : PortfolioPosition.t) :
  parseRow m row = Some p ->
  JS.truthy (PortfolioPosition.ticker p) = true
  /\ JS.isNaN (PortfolioPosition.quantity p) = false
  /\ PortfolioPosition.quantity p = JS.parseFloat_any (row !! quantity m)
  /\ exists cell, row !! ticker m = Some cell
                  /\ PortfolioPosition.ticker p = JS.toUpperCase (JS.trim cell).
Proof.
  unfold parseRow. destruct (row !! ticker m) as [cell|]; simpl;
    [|discriminate].
  destruct (JS.truthy (JS.toUpperCase (JS.trim cell))) eqn:Ht; simpl;
    [|discriminate].
  destruct (JS.isNaN (JS.parseFloat_any (row !! quantity m))) eqn:Hq;
    [discriminate|].
  intros [= <-]. simpl. repeat split; auto. now exists cell.
Qed.

End CsvImport.

(** C5, as amended.  No positivity check is made when a position is built.
    The form accepts a position exactly when its ticker and quantity fields
    are non-empty and the ticker is not flagged invalid; every position of
    the list it passes on is an earlier one or the new one, whose quantity
    is [parseFloat] of the quantity field, whatever its sign.  The CSV
    import accepts a row exactly when its ticker cell is non-empty after
    trimming and its quantity cell does not parse to NaN; the quantity is the
    parsed number, whatever its sign. *)
Theorem accepted_quantity_is_the_parsed_number :
  (forall (positions : list PortfolioPosition.t) (st : PortfolioForm.state),
      PortfolioForm.accepts st ->
      fst (PortfolioForm.handleAddPosition positions st)
      = match PortfolioForm.editingIndex st with
        | Some i =>
            PortfolioForm.assign positions i (PortfolioForm.newPosition st)
        | None =>
            PortfolioForm.Positions
              (positions ++ [PortfolioForm.newPosition st])
        end)
  /\ (forall (positions ps : list PortfolioPosition.t) (st : PortfolioForm.state),
         fst (PortfolioForm.handleAddPosition positions st)
         = PortfolioForm.Positions ps ->
         PortfolioForm.accepts st
         /\ forall p, In p ps ->
              In p positions
              \/ (p = PortfolioForm.newPosition st
                  /\ PortfolioPosition.quantity p
                     = JS.parseFloat (PortfolioForm.quantity st)))
  /\ (forall (m : ImportModal.mapping) (rows : list (gmap string string))
             (ps : list PortfolioPosition.t),
         ImportModal.handleConfirm m rows = ImportModal.Import ps ->
         ps <> []
         /\ forall p, In p ps ->
              exists row, In row rows
                /\ ImportModal.parseRow m row = Some p
                /\ JS.isNaN (PortfolioPosition.quantity p) = false
                /\ PortfolioPosition.quantity p
                   = JS.parseFloat_any (row !! ImportModal.quantity m))
  /\ (forall (m : ImportModal.mapping) (rows : list (gmap string string))
             (row : gmap string string) (cell : string),
         JS.truthy (ImportModal.ticker m) = true ->
         JS.truthy (ImportModal.quantity m) = true ->
         In row rows ->
         row !! ImportModal.ticker m = Some cell ->
         JS.truthy (JS.toUpperCase (JS.trim cell)) = true ->
         JS.isNaN (JS.parseFloat_any (row !! ImportModal.quantity m)) = false ->
         exists ps p,
           ImportModal.handleConfirm m rows = ImportModal.Import ps
           /\ In p ps
           /\ PortfolioPosition.quantity p
              = JS.parseFloat_any (row !! ImportModal.quantity m)).
Proof.
  split; [|split; [|split]].
  - intros positions st Hacc.
    now rewrite (handleAddPosition_accepts positions st Hacc).
  - intros positions ps st Hres.
    assert (Hacc : PortfolioForm.accepts st).
    { apply (handleAddPosition_changed positions st). rewrite Hres.
      discriminate. }
    split; [exact Hacc|].
    rewrite (handleAddPosition_accepts positions st Hacc) in Hres.
    simpl in Hres. intros p Hp.
    destruct (PortfolioForm.editingIndex st) as [i|].
    + destruct (assign_members _ _ _ _ Hres p Hp) as [H| ->]; auto.
    + injection Hres as <-. apply in_app_or in Hp as [H|[<-|[]]]; auto.
  - intros m rows ps. unfold ImportModal.handleConfirm.
    destruct (negb (JS.truthy (ImportModal.ticker m))
              || negb (JS.truthy (ImportModal.quantity m))); [discriminate|].
    destruct (omap (ImportModal.parseRow m) rows) as [|p0 ps0] eqn:Hps;
      [discriminate|].
    intros [= <-]. split; [discriminate|].
    intros p Hp. apply list_elem_of_In in Hp. rewrite <- Hps in Hp.
    apply list_elem_of_omap in Hp as (row & Hrow & Hparse).
    exists row. split; [now apply list_elem_of_In|]. split; [exact Hparse|].
    destruct (parseRow_Some _ _ _ Hparse) as (_ & Hn & Hq & _). auto.
  - intros m rows row cell Hmt Hmq Hrow Hcell Ht Hq.
    unfold ImportModal.handleConfirm. rewrite Hmt, Hmq. simpl.
    set (p := {| PortfolioPosition.ticker := JS.toUpperCase (JS.trim cell);
                 PortfolioPosition.quantity :=
                   JS.parseFloat_any (row !! ImportModal.quantity m);
                 PortfolioPosition.asset_class := Equity;
                 PortfolioPosition.avg_price := None;
                 PortfolioPosition.purchase_date := None |}).
    assert (Hparse : ImportModal.parseRow m row = Some p).
    { unfold ImportModal.parseRow. rewrite Hcell. simpl. now rewrite Ht, Hq. }
    assert (Hin : p ∈ omap (ImportModal.parseRow m) rows).
    { apply list_elem_of_omap. exists row.
      split; [now apply list_elem_of_In | exact Hparse]. }
    destruct (omap (ImportModal.parseRow m) rows) as [|p0 ps0] eqn:Hps.
    + inversion Hin.
    + exists (p0 :: ps0), p. split; [reflexivity|].
      split; [now apply list_elem_of_In | reflexivity].
Qed.

(** C5, witness: the form with ticker "aapl" and quantity "-5" is accepted
    and appends a position with quantity -5. *)
Lemma accepted_quantity_is_the_parsed_number_witness :
  fst (PortfolioForm.handleAddPosition [] (Sample.form "aapl" "-5"))
  = PortfolioForm.Positions [PortfolioForm.newPosition (Sample.form "aapl" "-5")].
Proof.
  destruct accepted_quantity_is_the_parsed_number as (Hadd & _).
  apply (Hadd [] (Sample.form "aapl" "-5")).
  repeat split; discriminate.
Defined.

(** C5, counterexample to the claim as stated.  The form accepts quantity 0
    and the CSV import accepts quantity -5; neither is greater than 0. *)
Lemma nonpositive_quantity_is_accepted :
  (fst (PortfolioForm.handleAddPosition [] (Sample.form "aapl" "0"))
   = PortfolioForm.Positions [Sample.position "AAPL" 0]
   /\ JS.gt (PortfolioPosition.quantity (Sample.position "AAPL" 0)) (JS.Fin 0) = false)
  /\ (ImportModal.handleConfirm Sample.columns [Sample.row "tsla" "-5"]
      = ImportModal.Import [Sample.position "TSLA" (-5)]
      /\ JS.gt (PortfolioPosition.quantity (Sample.position "TSLA" (-5))) (JS.Fin 0)
         = false).
Proof.
  repeat split; vm_compute; reflexivity.
Qed.

(** ** Tickers of the portfolio *)

Lemma analyzePortfolio_sends_all (positions : list PortfolioPosition.t) :
  positions <> [] ->
  PortfolioAnalysis.analyzePortfolio positions = Some positions.
Proof.
  intros Hne. unfold PortfolioAnalysis.analyzePortfolio.
  destruct positions as [|p ps]; [congruence|]. f_equal.
  generalize (p :: ps). intros l.
  induction l as [|[] l IH]; simpl; [reflexivity|]. now rewrite IH.
Qed.

(** C6, as amended.  Tickers are not compared when the portfolio is built:
    the form (outside an edit) appends the new position and the import
    appends the imported rows, so the tickers of the result are the earlier
    tickers followed by the new ones, and [analyzePortfolio] submits every
    position of a non-empty portfolio as it stands.  The submitted tickers
    are therefore pairwise distinct exactly when the earlier and the new
    tickers are each pairwise distinct and have no ticker in common; a
    duplicate is neither rejected nor merged. *)
Theorem tickers_are_appended_unchecked :
  (forall (positions : list PortfolioPosition.t) (st : PortfolioForm.state),
      PortfolioForm.accepts st ->
      PortfolioForm.editingIndex st = None ->
      exists ps,
        fst (PortfolioForm.handleAddPosition positions st)
        = PortfolioForm.Positions ps
        /\ tickers ps
           = tickers positions ++ [JS.toUpperCase (PortfolioForm.ticker st)])
  /\ (forall prev imported : list PortfolioPosition.t,
         tickers (PortfolioAnalysis.handleImport prev imported)
         = tickers prev ++ tickers imported
         /\ (NoDup (tickers (PortfolioAnalysis.handleImport prev imported))
             <-> NoDup (tickers prev)
                 /\ NoDup (tickers imported)
                 /\ forall t, In t (tickers prev) -> ~ In t (tickers imported)))
  /\ (forall positions : list PortfolioPosition.t,
         positions <> [] ->
         PortfolioAnalysis.analyzePortfolio positions = Some positions).
Proof.
  split; [|split].
  - intros positions st Hacc Hedit.
    exists (positions ++ [PortfolioForm.newPosition st]).
    rewrite (handleAddPosition_accepts positions st Hacc), Hedit.
    split; [reflexivity|]. unfold tickers. now rewrite map_app.
  - intros prev imported. unfold PortfolioAnalysis.handleImport, tickers.
    rewrite map_app. split; [reflexivity|].
    rewrite NoDup_app. split.
    + intros (H1 & H2 & H3). repeat split; auto.
      intros t Ht Ht'. apply (H2 t); now apply list_elem_of_In.
    + intros (H1 & H2 & H3). repeat split; auto.
      intros t Ht Ht'. apply (H3 t); now apply list_elem_of_In.
  - exact analyzePortfolio_sends_all.
Qed.

(** C6, witness: adding "msft" to a portfolio holding AAPL. *)
Lemma tickers_are_appended_unchecked_witness :
  exists ps,
    fst (PortfolioForm.handleAddPosition [Sample.position "AAPL" 10]
                                         (Sample.form "msft" "5"))
    = PortfolioForm.Positions ps
    /\ tickers ps = ["AAPL"; "MSFT"].
Proof.
  destruct tickers_are_appended_unchecked as (Hadd & _).
  apply (Hadd [Sample.position "AAPL" 10] (Sample.form "msft" "5")).
  - repeat split; discriminate.
  - reflexivity.
Defined.

(** C6, counterexample to the claim as stated.  Adding "aapl" to a
    portfolio that holds AAPL, or importing a row for it, gives a portfolio
    with two AAPL positions, and that portfolio is submitted to analyze. *)
Lemma duplicate_ticker_is_submitted :
  let held := [Sample.position "AAPL" 10] in
  let twice := [Sample.position "AAPL" 10; Sample.position "AAPL" 5] in
  fst (PortfolioForm.handleAddPosition held (Sample.form "aapl" "5"))
  = PortfolioForm.Positions twice
  /\ (exists imported,
         ImportModal.handleConfirm Sample.columns [Sample.row "aapl" "5"]
         = ImportModal.Import imported
         /\ PortfolioAnalysis.handleImport held imported = twice)
  /\ PortfolioAnalysis.analyzePortfolio twice = Some twice
  /\ ~ NoDup (tickers twice).
Proof.
  intros held twice. subst held twice. split; [|split; [|split]].
  - vm_compute. reflexivity.
  - eexists. split; vm_compute; reflexivity.
  - vm_compute. reflexivity.
  - unfold tickers. simpl. intros H.
    inversion H as [|x l Hin _]. apply Hin. now left.
Qed.

(** ** Ranking by risk contribution *)

Section Sorting.

Local Open Scope Q_scope.

Context {A : Type}.
Variable key : A -> Q.

Local Abbreviation cmp := (JS.descending key).
Local Abbreviation before := (JS.notBelow key).

Lemma insert_by_perm (x : A) (l : list A) :
  Permutation (JS.insert_by cmp x l) (x :: l).
Proof.
  induction l as [|y l IH]; simpl; [reflexivity|].
  destruct (Qle_bool (cmp x y) 0); [reflexivity|].
  rewrite IH. apply perm_swap.
Qed.

Lemma sort_perm (l : list A) : Permutation (JS.sort cmp l) l.
Proof.
  induction l as [|x l IH]; simpl; [reflexivity|].
  rewrite insert_by_perm. now rewrite IH.
Qed.

Lemma insert_by_sorted (x : A) (l : list A) :
  StronglySorted before l -> StronglySorted before (JS.insert_by cmp x l).
Proof.
  induction 1 as [|y l Hs IH Hy]; simpl.
  - constructor; constructor.
  - destruct (Qle_bool (cmp x y) 0) eqn:E.
    + apply Qle_bool_iff in E. unfold JS.descending in E.
      constructor; [constructor; assumption|].
      constructor; [unfold JS.notBelow; lra|].
      eapply Forall_impl; [exact Hy|]. unfold JS.notBelow.
      intros z Hz. simpl in *. lra.
    + assert (Hxy : key x < key y).
      { apply Qnot_le_lt. intros H. unfold JS.descending in E.
        assert (E' : Qle_bool (key y - key x) 0 = true)
          by (apply Qle_bool_iff; lra).
        congruence. }
      constructor; [exact IH|].
      apply Forall_forall. intros z Hz. apply list_elem_of_In in Hz.
      apply (Permutation_in _ (insert_by_perm x l)) in Hz.
      destruct Hz as [<-|Hz].
      * unfold JS.notBelow. lra.
      * rewrite Forall_forall in Hy. apply Hy. now apply list_elem_of_In.
Qed.

Lemma sort_sorted (l : list A) : StronglySorted before (JS.sort cmp l).
Proof.
  induction l as [|x l IH]; simpl; [constructor|].
  now apply insert_by_sorted.
Qed.

Lemma in_skipn (k : nat) (l : list A) (b : A) :
  In b (skipn k l) -> In b l.
Proof.
  revert k. induction l as [|x l IH]; intros [|k] H; simpl in *; auto.
  right. now apply (IH k).
Qed.

(** In a sorted list, what follows the first [k] elements does not exceed
    any of them. *)
Lemma sorted_firstn_skipn (k : nat) (l : list A) :
  StronglySorted before l ->
  forall a b, In a (firstn k l) -> In b (skipn k l) -> key b <= key a.
Proof.
  intros Hs. revert k. induction Hs as [|x l Hs IH Hx]; intros k a b Ha Hb.
  - rewrite firstn_nil in Ha. destruct Ha.
  - destruct k as [|k]; simpl in Ha, Hb; [destruct Ha|].
    destruct Ha as [<-|Ha].
    + rewrite Forall_forall in Hx. apply Hx. apply list_elem_of_In.
      apply (in_skipn k l b Hb).
    + now apply (IH k).
Qed.

End Sorting.

(** C3.  The ranking by risk contribution is a function of the positions:
    the list behind the bar chart is the list of (ticker, risk) pairs of a
    permutation of the positions that is sorted in non-increasing order of
    risk_contribution_pct, and top_drivers are the first k entries of that
    ranking, so that no position left out contributes more than one of
    them. *)
Theorem risk_ranking_is_sorted_permutation
        (positions : list PositionDetail.t) (k : nat) :
  let ranked := JS.sort RiskCharts.byRisk positions in
  Permutation ranked positions
  /\ StronglySorted
       (fun a b => (PositionDetail.risk_contribution_pct b
                    <= PositionDetail.risk_contribution_pct a)%Q)
       ranked
  /\ RiskCharts.riskData positions
     = map (fun pos =>
              {| RiskCharts.bar_name := PositionDetail.ticker pos;
                 RiskCharts.risk := PositionDetail.risk_contribution_pct pos |})
           ranked
  /\ Backend.top_drivers k positions
     = map (fun pos =>
              {| RiskDriver.name := PositionDetail.ticker pos;
                 RiskDriver.contribution_pct :=
                   PositionDetail.risk_contribution_pct pos |})
           (firstn k ranked)
  /\ length (Backend.top_drivers k positions)
     = Nat.min k (length positions)
  /\ (forall driver rest,
         In driver (Backend.top_drivers k positions) ->
         In rest (skipn k ranked) ->
         (PositionDetail.risk_contribution_pct rest
          <= RiskDriver.contribution_pct driver)%Q).
Proof.
  intros ranked.
  pose proof (sort_perm PositionDetail.risk_contribution_pct positions)
    as Hperm.
  pose proof (sort_sorted PositionDetail.risk_contribution_pct positions)
    as Hsorted.
  change (JS.descending PositionDetail.risk_contribution_pct)
    with RiskCharts.byRisk in Hperm, Hsorted.
  fold ranked in Hperm, Hsorted.
  split; [exact Hperm|]. split; [exact Hsorted|].
  split; [reflexivity|]. split; [reflexivity|]. split.
  - unfold Backend.top_drivers, Backend.rank. fold ranked.
    rewrite length_map, length_firstn.
    now rewrite (Permutation_length Hperm).
  - intros driver rest Hd Hr.
    unfold Backend.top_drivers, Backend.rank in Hd. fold ranked in Hd.
    apply in_map_iff in Hd as (pos & <- & Hpos). simpl.
    exact (sorted_firstn_skipn PositionDetail.risk_contribution_pct
                               k ranked Hsorted pos rest Hpos Hr).
Qed.

(** ** Scenario impact *)

Lemma toFixed_Qeq (q q' : Q) (f : nat) :
  (q == q')%Q -> JS.toFixed (JS.Fin q) f = JS.toFixed (JS.Fin q') f.
Proof.
  intros H. unfold JS.toFixed.
  assert (Hs : Qle_bool 0 q = Qle_bool 0 q') by now rewrite H.
  assert (Hn : Qfloor (Qabs q * inject_Z (10 ^ Z.of_nat f) + (1 # 2))%Q
               = Qfloor (Qabs q' * inject_Z (10 ^ Z.of_nat f) + (1 # 2))%Q)
    by now rewrite H.
  rewrite Hs, Hn. reflexivity.
Qed.

(** C1, as amended.  For a scenario with shock [market_shock_pct] applied
    to a value V, the impact has projected_value = V * (1 + market_shock_pct),
    projected_loss = V - projected_value and loss_pct = market_shock_pct.
    The component does not consume loss_pct as that fraction but as a number
    of percent: it divides loss_pct by 100 and formats the result as a
    percentage, so the figure it prints is loss_pct itself, up to the
    rounding of the two operations, with two decimals. *)
Theorem scenario_impact_follows_shock (scenario : Backend.Scenario) (V : Q) :
  let impact := Backend.testScenario scenario V in
  let shock := Backend.market_shock_pct scenario in
  ScenarioTester.original_value impact = V
  /\ (ScenarioTester.projected_value impact == V * (1 + shock))%Q
  /\ (ScenarioTester.projected_loss impact
      == V - ScenarioTester.projected_value impact)%Q
  /\ ScenarioTester.loss_pct impact = shock
  /\ (forall shown : ScenarioTester.ScenarioImpact,
         (Qabs (ScenarioTester.loss_pct shown) <= 2 ^ 1000)%Q ->
         exists y : Q,
           ScenarioTester.declineText shown
           = (JS.toFixed (JS.Fin y) 2 +:+ "%") +:+ " decline"
           /\ (Qabs (y - ScenarioTester.loss_pct shown)
               <= Qabs (ScenarioTester.loss_pct shown)
                  * (1 # 2251799813685248)
                  + 102 * JS.tiny)%Q).
Proof.
  intros impact shock.
  split; [reflexivity|]. split; [reflexivity|]. split; [reflexivity|].
  split; [reflexivity|].
  intros shown Hx.
  destruct (hundredth_times_100 (ScenarioTester.loss_pct shown) Hx)
    as (y & Hy & Hb).
  exists y. split; [|exact Hb].
  unfold ScenarioTester.declineText, ScenarioTester.declineFraction,
    formatPercent.
  now rewrite Hy.
Qed.

(** C1, witness: the line printed for the crash of 34% on 100000 is its
    loss_pct up to rounding, with two decimals. *)
Lemma scenario_impact_follows_shock_witness :
  let impact := Backend.testScenario Sample.crash 100000 in
  exists y : Q,
    ScenarioTester.declineText impact
    = (JS.toFixed (JS.Fin y) 2 +:+ "%") +:+ " decline"
    /\ (Qabs (y - ScenarioTester.loss_pct impact)
        <= Qabs (ScenarioTester.loss_pct impact) * (1 # 2251799813685248)
           + 102 * JS.tiny)%Q.
Proof.
  intros impact.
  destruct (scenario_impact_follows_shock Sample.crash 100000)
    as (_ & _ & _ & _ & Hshown).
  apply (Hshown impact). vm_compute. discriminate.
Defined.

(** C1, counterexample to the claim as stated.  A crash of 34% applied to
    100000 loses 34000, and loss_pct is the shock -0.34; consumed as the
    value of the shock it would read -34.00%, but the line under the
    projected loss reads -0.34%. *)
Lemma shock_is_not_printed_as_a_percentage :
  let impact := Backend.testScenario Sample.crash 100000 in
  ScenarioTester.loss_pct impact = Backend.market_shock_pct Sample.crash
  /\ (ScenarioTester.projected_loss impact == 34000)%Q
  /\ formatPercent (JS.Fin (Backend.market_shock_pct Sample.crash)) 2
     +:+ " decline" = "-34.00% decline"
  /\ ScenarioTester.declineText impact = "-0.34% decline"
  /\ ScenarioTester.declineText impact
     <> formatPercent (JS.Fin (Backend.market_shock_pct Sample.crash)) 2
        +:+ " decline".
Proof.
  split; [reflexivity|]. split; [reflexivity|].
  split; [vm_compute; reflexivity|].
  split; [vm_compute; reflexivity|].
  vm_compute. discriminate.
Qed.

(** ** Undefined performance ratios *)

Section Ratios.

Local Open Scope Q_scope.

Variable std : list Q -> Q.
Variable sqrt : Q -> Q.

Lemma ratio_finite (excess : Q) (deviation : option Q) (r : JS.number) :
  Backend.ratio excess deviation = Some r -> JS.isFinite (Some r) = true.
Proof.
  unfold Backend.ratio. destruct deviation as [d|]; [|discriminate].
  destruct (Qeq_bool d 0); [discriminate|]. now intros [= <-].
Qed.

Lemma no_negative_returns (returns : list Q) :
  Forall (fun r => 0 <= r) returns ->
  Backend.downside_deviation std sqrt returns = None.
Proof.
  intros H. unfold Backend.downside_deviation, Backend.negative_returns.
  rewrite filter_none; [reflexivity|].
  eapply Forall_impl; [exact H|]. intros r Hr. simpl.
  apply Qle_bool_iff in Hr. now rewrite Hr.
Qed.

(** C4, as amended.  The ratios are never NaN or the result of a division
    by zero: the Sharpe ratio of a zero-volatility portfolio and the
    Sortino ratio of a portfolio without negative daily returns are
    reported as null.  The readers of the performance metrics do not
    accept null: the PerformanceMetrics and RiskMetrics components, the
    benchmark comparison and the PDF export call toFixed on the ratio,
    which throws on null, although getRatioLevel grades null as Poor.  A
    ratio that is a finite number is rendered; the number 0 is shown as
    0.00 with level Poor. *)
Theorem undefined_ratio_is_null_and_not_rendered
        (returns : list Q)
        (annualized_return risk_free_rate volatility_annualized : Q) :
  let data := Backend.performance std sqrt returns annualized_return
                                  risk_free_rate volatility_annualized in
  (forall r, PerformanceMetrics.sharpe_ratio data = Some r ->
             JS.isFinite (Some r) = true)
  /\ (forall r, PerformanceMetrics.sortino_ratio data = Some r ->
                JS.isFinite (Some r) = true)
  /\ (volatility_annualized == 0 ->
      PerformanceMetrics.sharpe_ratio data = None)
  /\ (Forall (fun r => 0 <= r) returns ->
      PerformanceMetrics.sortino_ratio data = None)
  /\ (PerformanceMetrics.sharpe_ratio data = None ->
      PerformanceMetricsComponent.render data = JS.TypeError
      /\ RiskMetrics.sharpeCell data = JS.TypeError
      /\ BenchmarkComparison.sharpeCell
           (PerformanceMetrics.sharpe_ratio data) = JS.TypeError
      /\ ExportPDF.sharpeRow data = JS.TypeError)
  /\ (PerformanceMetrics.sortino_ratio data = None ->
      PerformanceMetricsComponent.render data = JS.TypeError)
  /\ PerformanceMetricsComponent.label
       (PerformanceMetricsComponent.getRatioLevel None) = "Poor"
  /\ (forall (reported : PerformanceMetrics.t) (a b : Q),
         PerformanceMetrics.sharpe_ratio reported = Some (JS.Fin a) ->
         PerformanceMetrics.sortino_ratio reported = Some (JS.Fin b) ->
         exists view,
           PerformanceMetricsComponent.render reported = JS.Ok view
           /\ PerformanceMetricsComponent.sharpeText view
              = JS.toFixed (JS.Fin a) 2
           /\ PerformanceMetricsComponent.sortinoText view
              = JS.toFixed (JS.Fin b) 2
           /\ RiskMetrics.sharpeCell reported
              = JS.Ok (JS.toFixed (JS.Fin a) 2))
  /\ JS.toFixed (JS.Fin 0) 2 = "0.00"
  /\ PerformanceMetricsComponent.label
       (PerformanceMetricsComponent.getRatioLevel (Some (JS.Fin 0)))
     = "Poor".
Proof.
  intros data. subst data. unfold Backend.performance. cbn [
    PerformanceMetrics.sharpe_ratio PerformanceMetrics.sortino_ratio].
  split; [intros r; apply ratio_finite|].
  split; [intros r; apply ratio_finite|].
  split.
  { intros Hv. unfold Backend.ratio. now rewrite (Qeq_eq_bool _ _ Hv). }
  split.
  { intros Hr. now rewrite (no_negative_returns returns Hr). }
  split.
  { intros Hn.
    unfold PerformanceMetricsComponent.render, RiskMetrics.sharpeCell,
      BenchmarkComparison.sharpeCell, ExportPDF.sharpeRow.
    cbn [PerformanceMetrics.sharpe_ratio]. rewrite Hn.
    repeat split. }
  split.
  { intros Hn. unfold PerformanceMetricsComponent.render.
    cbn [PerformanceMetrics.sharpe_ratio PerformanceMetrics.sortino_ratio].
    rewrite Hn.
    destruct (Backend.ratio (annualized_return - risk_free_rate)
                            (Some volatility_annualized)); reflexivity. }
  split; [reflexivity|].
  split.
  { intros reported a b Ha Hb.
    unfold PerformanceMetricsComponent.render, RiskMetrics.sharpeCell.
    rewrite Ha, Hb. simpl. eexists. repeat split. }
  split; reflexivity.
Qed.

End Ratios.

(** C4, witness: three flat daily returns and zero volatility. *)
Lemma undefined_ratio_is_null_and_not_rendered_witness :
  let data := Backend.performance (fun _ => 0%Q) (fun x => x)
                                  [0; 0; 0]%Q 0 (2 # 100) 0 in
  PerformanceMetrics.sharpe_ratio data = None
  /\ PerformanceMetrics.sortino_ratio data = None
  /\ PerformanceMetricsComponent.render data = JS.TypeError.
Proof.
  intros data.
  destruct (undefined_ratio_is_null_and_not_rendered
              (fun _ => 0%Q) (fun x => x) [0; 0; 0]%Q 0 (2 # 100) 0)
    as (_ & _ & Hsharpe & Hsortino & Hthrows & _).
  assert (H1 : PerformanceMetrics.sharpe_ratio data = None)
    by (apply Hsharpe; reflexivity).
  assert (H2 : PerformanceMetrics.sortino_ratio data = None)
    by (apply Hsortino; repeat constructor; discriminate).
  split; [exact H1|]. split; [exact H2|].
  apply (Hthrows H1).
Defined.

(** C4, counterexample to the claim as stated.  With the ratios reported
    as null no reader accepts the value: rendering throws in each of them,
    while the same metrics with the ratios reported as 0 are rendered. *)
Lemma null_ratio_is_not_accepted :
  PerformanceMetricsComponent.render Sample.nullRatios = JS.TypeError
  /\ RiskMetrics.sharpeCell Sample.nullRatios = JS.TypeError
  /\ BenchmarkComparison.sharpeCell
       (PerformanceMetrics.sharpe_ratio Sample.nullRatios) = JS.TypeError
  /\ ExportPDF.sharpeRow Sample.nullRatios = JS.TypeError
  /\ (exists view,
         PerformanceMetricsComponent.render Sample.zeroRatios = JS.Ok view
         /\ PerformanceMetricsComponent.sharpeText view = "0.00"
         /\ PerformanceMetricsComponent.sortinoText view = "0.00").
Proof.
  split; [reflexivity|]. split; [reflexivity|]. split; [reflexivity|].
  split; [reflexivity|]. eexists. split; [reflexivity|]. split; reflexivity.
Qed.

(** ** Finite outputs *)

Section Finite.

Import Backend.

(** Induction over a JSON value and, with it, over its items or fields. *)
Lemma json_induction (P : json -> Prop) :
  P JNull ->
  (forall b, P (JBool b)) ->
  (forall x, P (JNumber x)) ->
  (forall s, P (JString s)) ->
  (forall items, Forall P items -> P (JArray items)) ->
  (forall fields, Forall (fun kv => P (snd kv)) fields ->
                  P (JObject fields)) ->
  forall v, P v.
Proof.
  intros Hnull Hbool Hnum Hstr Harr Hobj.
  fix IH 1. intros [|b|x|s|items|fields].
  - exact Hnull.
  - apply Hbool.
  - apply Hnum.
  - apply Hstr.
  - apply Harr. induction items as [|item items IHitems].
    + constructor.
    + constructor; [apply IH | exact IHitems].
  - apply Hobj. induction fields as [|[k item] fields IHfields].
    + constructor.
    + constructor; [apply IH | exact IHfields].
Qed.

(** What follows from [nulled] alone: the result has only finite numbers,
    and a value without NaN or infinities is returned as it is. *)
Lemma nulled_finite (v : json) :
  forall v', nulled v v' ->
             finite v' /\ leaks v' = 0%nat /\ (leaks v = 0%nat -> v' = v).
Proof.
  induction v as [|b|x|s|items IH|fields IH] using json_induction;
    intros v' Hn; inversion Hn; subst; clear Hn.
  - simpl. auto.
  - simpl. auto.
  - destruct x; try discriminate. simpl. auto.
  - destruct x; try discriminate; simpl; repeat split; auto; discriminate.
  - simpl. auto.
  - assert (H : finite (JArray items') /\ leaks (JArray items') = 0%nat
                /\ (leaks (JArray items) = 0%nat -> items' = items)).
    { induction H0 as [|item item' items items' Hitem _ IHall].
      - simpl. auto.
      - apply Forall_cons in IH as [IHitem IHitems].
        destruct (IHitem _ Hitem) as (Hf & Hz & Hid).
        destruct (IHall IHitems) as (Hf' & Hz' & Hid').
        simpl in *. repeat split; auto; [lia|].
        intros Hzero. f_equal; [apply Hid | apply Hid']; lia. }
    destruct H as (Hf & Hz & Hid). repeat split; auto.
    intros Hzero. f_equal. now apply Hid.
  - assert (H : finite (JObject fields') /\ leaks (JObject fields') = 0%nat
                /\ (leaks (JObject fields) = 0%nat -> fields' = fields)).
    { induction H0 as [|[k item] [k' item'] fields fields' [Hk Hitem] _ IHall].
      - simpl. auto.
      - apply Forall_cons in IH as [IHitem IHfields].
        simpl in Hk, Hitem, IHitem. subst k'.
        destruct (IHitem _ Hitem) as (Hf & Hz & Hid).
        destruct (IHall IHfields) as (Hf' & Hz' & Hid').
        simpl in *. repeat split; auto; [lia|].
        intros Hzero. f_equal; [f_equal; apply Hid | apply Hid']; lia. }
    destruct H as (Hf & Hz & Hid). repeat split; auto.
    intros Hzero. f_equal. now apply Hid.
Qed.

Lemma clean_number (x : JS.number) : clean (JNumber x).
Proof.
  intros path. split; [|split].
  - destruct x; simpl; constructor; reflexivity.
  - intros p why. split.
    + intros Hin. exists x. destruct x; simpl in Hin; try contradiction;
        destruct Hin as [E|[]]; injection E as <- <-;
        (split; [constructor | reflexivity]).
    + intros (y & Hat & Hwhy). inversion Hat; subst.
      simpl. rewrite Hwhy. now left.
  - destruct x; reflexivity.
Qed.

Lemma clean_array (items : list json) :
  Forall clean items -> clean (JArray items).
Proof.
  intros Hall path. cbn [sanitize].
  set (go := fix go (i : nat) (l : list json)
               : list json * list (string * string) :=
         match l with
         | [] => ([], [])
         | item :: l' =>
             let '(item', r1) := sanitize (path +:+ "/" +:+ pretty i) item in
             let '(rest, r2) := go (S i) l' in
             (item' :: rest, r1 ++ r2)
         end).
  assert (H : forall i,
             Forall2 nulled items (fst (go i items))
             /\ (forall p why,
                   In (p, why) (snd (go i items))
                   <-> exists j item x,
                       items !! j = Some item
                       /\ at_path (path +:+ "/" +:+ pretty (i + j)%nat)
                                  item p x
                       /\ reason_of x = Some why)
             /\ length (snd (go i items)) = leaks (JArray items)).
  { induction Hall as [|item items Hitem _ IH]; intros i.
    - simpl. split; [constructor|]. split; [|reflexivity].
      intros p why. split; [contradiction|].
      intros (j & item & x & Hj & _). discriminate Hj.
    - cbn [go]. fold go.
      destruct (Hitem (path +:+ "/" +:+ pretty i)) as (Hn & Hr & Hl).
      destruct (IH (S i)) as (Hn' & Hr' & Hl').
      destruct (sanitize (path +:+ "/" +:+ pretty i) item) as [item' r1].
      destruct (go (S i) items) as [rest r2]. cbn [fst snd] in *.
      split; [now constructor|]. split.
      + intros p why. rewrite in_app_iff, Hr, Hr'. split.
        * intros [(x & Hat & Hwhy) | (j & it & x & Hj & Hat & Hwhy)].
          -- exists 0%nat, item, x. rewrite Nat.add_0_r. auto.
          -- exists (S j), it, x.
             replace (i + S j)%nat with (S i + j)%nat by lia. auto.
        * intros (j & it & x & Hj & Hat & Hwhy). destruct j as [|j].
          -- left. exists x. injection Hj as <-.
             rewrite Nat.add_0_r in Hat. auto.
          -- right. exists j, it, x.
             replace (S i + j)%nat with (i + S j)%nat by lia. auto.
      + rewrite length_app, Hl, Hl'. reflexivity. }
  specialize (H 0%nat). destruct (go 0%nat items) as [items' reasons].
  cbn [fst snd] in *. destruct H as (Hn & Hr & Hl).
  split; [now constructor|]. split; [|exact Hl].
  intros p why. rewrite Hr. split.
  - intros (j & item & x & Hj & Hat & Hwhy). exists x.
    split; [|exact Hwhy]. now apply (at_item path items j item).
  - intros (x & Hat & Hwhy). inversion Hat; subst.
    now exists i, item, x.
Qed.

Lemma clean_object (fields : list (string * json)) :
  Forall (fun kv => clean (snd kv)) fields -> clean (JObject fields).
Proof.
  intros Hall path. cbn [sanitize].
  set (go := fix go (l : list (string * json))
               : list (string * json) * list (string * string) :=
         match l with
         | [] => ([], [])
         | (k, item) :: l' =>
             let '(item', r1) := sanitize (path +:+ "/" +:+ k) item in
             let '(rest, r2) := go l' in
             ((k, item') :: rest, r1 ++ r2)
         end).
  assert (H : Forall2 (fun kv kv' => fst kv = fst kv'
                                     /\ nulled (snd kv) (snd kv'))
                      fields (fst (go fields))
              /\ (forall p why,
                    In (p, why) (snd (go fields))
                    <-> exists j k item x,
                        fields !! j = Some (k, item)
                        /\ at_path (path +:+ "/" +:+ k) item p x
                        /\ reason_of x = Some why)
              /\ length (snd (go fields)) = leaks (JObject fields)).
  { induction Hall as [|[k item] fields Hitem _ IH].
    - simpl. split; [constructor|]. split; [|reflexivity].
      intros p why. split; [contradiction|].
      intros (j & k & item & x & Hj & _). discriminate Hj.
    - cbn [go]. fold go. simpl in Hitem.
      destruct (Hitem (path +:+ "/" +:+ k)) as (Hn & Hr & Hl).
      destruct IH as (Hn' & Hr' & Hl').
      destruct (sanitize (path +:+ "/" +:+ k) item) as [item' r1].
      destruct (go fields) as [rest r2]. cbn [fst snd] in *.
      split; [constructor; [split; [reflexivity | exact Hn] | exact Hn']|].
      split.
      + intros p why. rewrite in_app_iff, Hr, Hr'. split.
        * intros [(x & Hat & Hwhy) | (j & k' & it & x & Hj & Hat & Hwhy)].
          -- now exists 0%nat, k, item, x.
          -- now exists (S j), k', it, x.
        * intros (j & k' & it & x & Hj & Hat & Hwhy). destruct j as [|j].
          -- left. exists x. injection Hj as <- <-. auto.
          -- right. now exists j, k', it, x.
      + rewrite length_app, Hl, Hl'. reflexivity. }
  destruct (go fields) as [fields' reasons].
  cbn [fst snd] in *. destruct H as (Hn & Hr & Hl).
  split; [now constructor|]. split; [|exact Hl].
  intros p why. rewrite Hr. split.
  - intros (j & k & item & x & Hj & Hat & Hwhy). exists x.
    split; [|exact Hwhy]. now apply (at_field path fields j k item).
  - intros (x & Hat & Hwhy). inversion Hat; subst.
    now exists i, k, item, x.
Qed.

Lemma sanitize_clean (v : json) : clean v.
Proof.
  induction v using json_induction.
  - intros path. simpl. split; [constructor|]. split; [|reflexivity].
    intros p why. split; [contradiction|].
    intros (x & Hat & _). inversion Hat.
  - intros path. simpl. split; [constructor|]. split; [|reflexivity].
    intros p why. split; [contradiction|].
    intros (x & Hat & _). inversion Hat.
  - apply clean_number.
  - intros path. simpl. split; [constructor|]. split; [|reflexivity].
    intros p why. split; [contradiction|].
    intros (x & Hat & _). inversion Hat.
  - now apply clean_array.
  - now apply clean_object.
Qed.

(** C7.  In a delivered result each NaN and each infinity of the assembled
    value, and nothing else, is replaced by null: arrays keep their items
    in place, objects their keys, finite numbers and all other values stay.
    So every number of the delivered result is finite, and a value without
    NaN or infinities is delivered as it is, without a reason.  The reasons
    reported are exactly those of the replaced numbers, each under the path
    of its number, one for each.  The Return cell of an optimal portfolio
    shows "-" for a null as for any return that is not a finite number, and
    the formatted percentage otherwise. *)
Theorem delivered_numbers_are_finite (path : string) (raw : json) :
  nulled raw (fst (sanitize path raw))
  /\ finite (fst (sanitize path raw))
  /\ leaks (fst (sanitize path raw)) = 0%nat
  /\ (forall p why,
        In (p, why) (snd (sanitize path raw))
        <-> exists x, at_path path raw p x /\ reason_of x = Some why)
  /\ length (snd (sanitize path raw)) = leaks raw
  /\ (leaks raw = 0%nat -> sanitize path raw = (raw, []))
  /\ (forall p : OptimalPortfolio.t,
         EfficientFrontier.returnText p
         = match OptimalPortfolio.ret p with
           | Some (JS.Fin x) => formatPercent (JS.Fin x) 2
           | _ => "-"
           end).
Proof.
  destruct (sanitize_clean raw path) as (Hn & Hr & Hl).
  destruct (nulled_finite _ _ Hn) as (Hf & Hz & Hid).
  split; [exact Hn|]. split; [exact Hf|]. split; [exact Hz|].
  split; [exact Hr|]. split; [exact Hl|]. split.
  - intros Hzero. specialize (Hid Hzero). rewrite Hzero in Hl.
    destruct (sanitize path raw) as [v reasons]. simpl in *.
    destruct reasons; [now subst | discriminate].
  - intros p. unfold EfficientFrontier.returnText.
    destruct (OptimalPortfolio.ret p) as [[x| | |]|]; reflexivity.
Qed.

End Finite.

(** C7, witness: an optimal portfolio whose return overflowed is delivered
    with a null return in place, the volatility as it was, and one reason,
    reported under the path of the return. *)
Lemma delivered_numbers_are_finite_witness :
  let raw := Backend.JObject
               [("return", Backend.JNumber JS.PosInf);
                ("volatility", Backend.JNumber (JS.Fin (1 # 5)))] in
  Backend.nulled raw (Backend.JObject
                        [("return", Backend.JNull);
                         ("volatility", Backend.JNumber (JS.Fin (1 # 5)))])
  /\ In ("max_sharpe_portfolio/return", "positive overflow")
        (snd (Backend.sanitize "max_sharpe_portfolio" raw))
  /\ length (snd (Backend.sanitize "max_sharpe_portfolio" raw)) = 1%nat.
Proof.
  intros raw.
  destruct (delivered_numbers_are_finite "max_sharpe_portfolio" raw)
    as (Hn & _ & _ & Hr & Hl & _).
  split; [exact Hn|]. split; [|exact Hl].
  apply Hr. exists JS.PosInf. split; [|reflexivity].
  apply (Backend.at_field _ _ 0%nat "return" (Backend.JNumber JS.PosInf));
    [reflexivity|]. apply Backend.at_number.
Defined.

(** C9, witness: removing index 1 of three positions. *)
Lemma removePosition_deletes_index_witness :
  PortfolioAnalysis.removePosition
    (JS.dense [Sample.position "AAPL" 100; Sample.position "MSFT" 50;
               Sample.position "GOOGL" 30]) 1
  = [Sample.position "AAPL" 100; Sample.position "GOOGL" 30].
Proof.
  destruct (removePosition_deletes_index
              (JS.dense [Sample.position "AAPL" 100; Sample.position "MSFT" 50;
                         Sample.position "GOOGL" 30]) Sample.emptyForm 1)
    as (_ & _ & Hdense).
  destruct (Hdense _ eq_refl) as [Hin _].
  destruct Hin as (Heq & _); [simpl; lia|]. exact Heq.
Defined.


(** * Further properties of the components *)

(** ** Editing and updating a position *)

Section Editing.

Import PortfolioForm.

(** X1.  Submitting the form while it edits an index inside the list
    replaces exactly that position by the one built from the fields: the
    list keeps its length and every other position.  The form is emptied and
    leaves the edit, and submitting the emptied form again changes nothing. *)
Theorem update_replaces_the_edited_position
        (positions : list PortfolioPosition.t) (st : state) (i : Z) :
  accepts st ->
  editingIndex st = Some i ->
  (0 <= i < Z.of_nat (length positions))%Z ->
  exists ps,
    handleAddPosition positions st = (Positions ps, reset st)
    /\ length ps = length positions
    /\ ps !! Z.to_nat i = Some (newPosition st)
    /\ (forall j : nat, j <> Z.to_nat i -> ps !! j = positions !! j)
    /\ editingIndex (reset st) = None
    /\ (forall qs, handleAddPosition qs (reset st) = (Unchanged, reset st)).
Proof.
  intros Hacc Hedit Hi.
  exists (<[Z.to_nat i := newPosition st]> positions).
  rewrite (handleAddPosition_accepts positions st Hacc), Hedit.
  unfold assign.
  destruct (Z.ltb_spec i 0); [lia|].
  destruct (Z.ltb_spec i (Z.of_nat (length positions))); [|lia].
  split; [reflexivity|]. split; [apply length_insert|].
  split; [apply list_lookup_insert_eq; lia|].
  split; [intros j Hj; apply list_lookup_insert_ne; congruence|].
  split; reflexivity.
Qed.

(** X3.  Removing a position that stands before the edited one leaves the
    form in its edit of the same index, although the edited position has
    moved down by one.  The update that follows does not reach it: it stays
    as it was at the index before, and the new position overwrites the one
    that followed it, or is appended when the edited position was the last. *)
Theorem removal_before_the_edited_index_misdirects_the_update
        (positions : list PortfolioPosition.t) (st : state) (e j : Z) :
  accepts st ->
  editingIndex st = Some e ->
  (0 <= j < e)%Z ->
  (e < Z.of_nat (length positions))%Z ->
  let removed := fst (handleRemovePosition (JS.dense positions) st j) in
  snd (handleRemovePosition (JS.dense positions) st j) = st
  /\ removed !! Z.to_nat (e - 1) = positions !! Z.to_nat e
  /\ exists ps,
       fst (handleAddPosition removed st) = Positions ps
       /\ ps !! Z.to_nat (e - 1) = positions !! Z.to_nat e
       /\ ps !! Z.to_nat e = Some (newPosition st)
       /\ length ps
          = (if (e + 1 <? Z.of_nat (length positions))%Z
             then length positions - 1 else length positions)%nat.
Proof.
  intros Hacc Hedit Hj He removed.
  assert (Hrem : removed
                 = firstn (Z.to_nat j) positions
                   ++ skipn (S (Z.to_nat j)) positions).
  { subst removed. unfold handleRemovePosition. simpl.
    apply filter_index_delete. lia. }
  assert (Hlen : length removed = (length positions - 1)%nat).
  { rewrite Hrem, length_app, length_firstn, length_skipn. lia. }
  assert (Hshift : forall k : nat, (Z.to_nat j <= k)%nat ->
                                   removed !! k = positions !! S k).
  { intros k Hk. rewrite Hrem.
    rewrite lookup_app_r by (rewrite length_firstn; lia).
    rewrite length_firstn, lookup_drop. f_equal. lia. }
  split.
  { unfold handleRemovePosition. simpl. rewrite Hedit.
    destruct (Z.eqb_spec e j); [lia | reflexivity]. }
  assert (Hmoved : removed !! Z.to_nat (e - 1) = positions !! Z.to_nat e).
  { rewrite Hshift by lia. f_equal. lia. }
  split; [exact Hmoved|].
  rewrite (handleAddPosition_accepts removed st Hacc), Hedit.
  unfold assign. cbn [fst].
  destruct (Z.ltb_spec e 0); [lia|]. rewrite Hlen.
  destruct (Z.ltb_spec (e + 1) (Z.of_nat (length positions))) as [Hin|Hlast].
  - destruct (Z.ltb_spec e (Z.of_nat (length positions - 1))); [|lia].
    exists (<[Z.to_nat e := newPosition st]> removed).
    split; [reflexivity|]. split.
    + rewrite list_lookup_insert_ne by lia. exact Hmoved.
    + split; [apply list_lookup_insert_eq; lia|].
      now rewrite length_insert.
  - destruct (Z.ltb_spec e (Z.of_nat (length positions - 1))); [lia|].
    replace (Z.to_nat e - (length positions - 1))%nat with 0%nat by lia.
    exists (removed ++ [newPosition st]).
    split; [reflexivity|]. split.
    + rewrite lookup_app_l by lia. exact Hmoved.
    + split.
      * rewrite lookup_app_r by lia.
        replace (Z.to_nat e - length removed)%nat with 0%nat by lia.
        reflexivity.
      * rewrite length_app, Hlen. simpl. lia.
Qed.

Section RoundTrip.

Variable toString : JS.number -> string.

(** X2.  Opening a position for editing and submitting the form untouched
    gives back the same list, provided the position is one the form could
    have produced and its numbers survive printing and parsing: the ticker is
    non-empty and in upper case, the quantity prints to a non-empty text
    that parses back to it, so does the price if there is one, and the
    purchase date is not the empty string. *)
Theorem edit_then_update_is_the_identity
        (positions : list PortfolioPosition.t) (st : state) (i : Z)
        (p : PortfolioPosition.t) :
  JS.at_index positions i = Some p ->
  JS.truthy (PortfolioPosition.ticker p) = true ->
  JS.toUpperCase (PortfolioPosition.ticker p) = PortfolioPosition.ticker p ->
  JS.truthy (toString (PortfolioPosition.quantity p)) = true ->
  JS.parseFloat (toString (PortfolioPosition.quantity p))
  = PortfolioPosition.quantity p ->
  (forall a, PortfolioPosition.avg_price p = Some a ->
             JS.truthy (toString a) = true
             /\ JS.parseFloat (toString a) = a) ->
  PortfolioPosition.purchase_date p <> Some "" ->
  exists st',
    handleEditPosition toString positions st i = JS.Ok st'
    /\ editingIndex st' = Some i
    /\ newPosition st' = p
    /\ fst (handleAddPosition positions st') = Positions positions.
Proof.
  intros Hat Ht Hup Hqt Hq Hprice Hdate.
  unfold handleEditPosition. rewrite Hat. eexists. split; [reflexivity|].
  split; [reflexivity|].
  match goal with |- newPosition ?s = _ /\ _ => set (st' := s) end.
  assert (Hnew : newPosition st' = p).
  { unfold newPosition, st'. cbn [ticker quantity assetClass avgPrice
                                   purchaseDate].
    destruct p as [t q c a d]. cbn [PortfolioPosition.ticker
      PortfolioPosition.quantity PortfolioPosition.asset_class
      PortfolioPosition.avg_price PortfolioPosition.purchase_date] in *.
    rewrite Hup, Hq. f_equal.
    - destruct a as [a|]; [|reflexivity].
      destruct (Hprice a eq_refl) as [Hat' Hpa]. rewrite Hat', Hat', Hpa.
      reflexivity.
    - destruct d as [d|]; [|reflexivity].
      destruct d as [|ch d]; [congruence | reflexivity]. }
  split; [exact Hnew|].
  assert (Hacc : accepts st').
  { unfold accepts, st'. cbn [ticker quantity validationState isValid].
    repeat split; auto; discriminate. }
  rewrite (handleAddPosition_accepts positions st' Hacc).
  cbn [fst]. change (editingIndex st') with (Some i).
  unfold JS.at_index in Hat. unfold assign.
  destruct (Z.ltb_spec i 0); [discriminate|].
  pose proof (lookup_lt_Some _ _ _ Hat) as Hlt.
  destruct (Z.ltb_spec i (Z.of_nat (length positions))); [|lia].
  rewrite Hnew. f_equal. now apply list_insert_id.
Qed.

End RoundTrip.

End Editing.

(** X1, witness: MSFT, at index 1 of three holdings, is updated to 75. *)
Lemma update_replaces_the_edited_position_witness :
  exists ps,
    PortfolioForm.handleAddPosition Sample.holdings
                                    (Sample.editing "msft" "75" 1)
    = (PortfolioForm.Positions ps,
       PortfolioForm.reset (Sample.editing "msft" "75" 1))
    /\ length ps = 3%nat.
Proof.
  destruct (update_replaces_the_edited_position
              Sample.holdings (Sample.editing "msft" "75" 1) 1)
    as (ps & Hps & Hlen & _).
  - repeat split; discriminate.
  - reflexivity.
  - simpl. lia.
  - exists ps. split; [exact Hps | exact Hlen].
Defined.

(** X3, witness: GOOGL, at index 2, is being edited when AAPL, at index 0,
    is removed; the update is appended and GOOGL stays as it was. *)
Lemma removal_before_the_edited_index_misdirects_the_update_witness :
  exists ps,
    fst (PortfolioForm.handleAddPosition
           (fst (PortfolioForm.handleRemovePosition
                   (JS.dense Sample.holdings)
                   (Sample.editing "googl" "10" 2) 0))
           (Sample.editing "googl" "10" 2))
    = PortfolioForm.Positions ps
    /\ ps !! 1%nat = Some (Sample.position "GOOGL" 30)
    /\ length ps = 3%nat.
Proof.
  destruct (removal_before_the_edited_index_misdirects_the_update
              Sample.holdings (Sample.editing "googl" "10" 2) 2 0)
    as (_ & _ & ps & Hps & Hkept & _ & Hlen).
  - repeat split; discriminate.
  - reflexivity.
  - lia.
  - simpl. lia.
  - exists ps. split; [exact Hps|]. split; [exact Hkept | exact Hlen].
Defined.

(** X2, witness: MSFT is opened for editing and submitted untouched. *)
Lemma edit_then_update_is_the_identity_witness :
  exists st',
    PortfolioForm.handleEditPosition Sample.integerToString Sample.holdings
                                     Sample.emptyForm 1
    = JS.Ok st'
    /\ fst (PortfolioForm.handleAddPosition Sample.holdings st')
       = PortfolioForm.Positions Sample.holdings.
Proof.
  destruct (edit_then_update_is_the_identity
              Sample.integerToString Sample.holdings Sample.emptyForm 1
              (Sample.position "MSFT" 50))
    as (st' & Hedit & _ & _ & Hsame).
  - reflexivity.
  - reflexivity.
  - reflexivity.
  - reflexivity.
  - reflexivity.
  - intros a Ha. discriminate Ha.
  - discriminate.
  - exists st'. split; [exact Hedit | exact Hsame].
Defined.


(** ** The summary above the list of holdings *)

Section Summary.

Import PortfolioForm.

Local Open Scope Q_scope.

Lemma mul_100_not_NaN (x : JS.number) :
  x <> JS.NaN -> JS.mul x (JS.Fin 100) <> JS.NaN.
Proof.
  destruct x as [r| | |]; cbn [JS.mul]; intros H.
  - apply round_not_NaN.
  - now destruct H.
  - discriminate.
  - discriminate.
Qed.

Lemma quot_positive_not_NaN (x : JS.number) (q : Q) :
  0 < q -> x <> JS.NaN -> JS.quot x (JS.Fin q) <> JS.NaN.
Proof.
  intros Hq. destruct x as [r| | |]; cbn [JS.quot]; intros H.
  - unfold JS.div.
    destruct (Qeq_bool q 0) eqn:E; [apply Qeq_bool_eq in E; lra|].
    apply round_not_NaN.
  - now destruct H.
  - destruct (Qle_bool 0 q); discriminate.
  - destruct (Qle_bool 0 q); discriminate.
Qed.

(** X4.  The net gain percentage never divides by zero: it is 0 whenever the
    total investment is not a positive number (zero, negative or NaN).  With
    a total value of the analysis that is finite or missing, it is NaN
    exactly when the total investment has overflowed to +Infinity; with a
    positive finite investment it is a number, possibly infinite. *)
Theorem net_gain_percentage_is_nan_only_on_overflow
        (positions : list PortfolioPosition.t) (total_value : option Q) :
  let invested := totalInvestment positions in
  let pct := netGainPct positions (JS.Fin <$> total_value) in
  (JS.gt invested (JS.Fin 0) = false -> pct = JS.Fin 0)
  /\ (pct = JS.NaN <-> invested = JS.PosInf)
  /\ (forall q, invested = JS.Fin q -> 0 < q ->
      pct = JS.mul (JS.quot (JS.sub (currentPortfolioValue
                                       (JS.Fin <$> total_value))
                                    (JS.Fin q))
                            (JS.Fin q))
                   (JS.Fin 100)
      /\ pct <> JS.NaN).
Proof.
  intros invested pct. subst invested pct. unfold netGainPct, netGain.
  assert (Hc : exists c, currentPortfolioValue (JS.Fin <$> total_value)
                         = JS.Fin c).
  { unfold currentPortfolioValue. destruct total_value as [v|]; simpl.
    - destruct (Qeq_bool v 0); eauto.
    - eauto. }
  destruct Hc as [c Hc]. rewrite Hc.
  destruct (totalInvestment positions) as [q| | |] eqn:Ht.
  - cbn [JS.gt]. destruct (Qle_bool q 0) eqn:Hq; cbn [negb].
    + apply Qle_bool_iff in Hq.
      split; [reflexivity|]. split; [split; discriminate|].
      intros q' [= <-] Hpos. lra.
    + assert (Hpos : 0 < q).
      { apply Qnot_le_lt. intros H. apply Qle_bool_iff in H. congruence. }
      assert (Hn : JS.mul (JS.quot (JS.sub (JS.Fin c) (JS.Fin q)) (JS.Fin q))
                          (JS.Fin 100) <> JS.NaN).
      { apply mul_100_not_NaN, quot_positive_not_NaN; [exact Hpos|].
        cbn [JS.sub]. apply round_not_NaN. }
      split; [discriminate|]. split; [split; [tauto | discriminate]|].
      intros q' [= <-] _. split; [reflexivity | exact Hn].
  - split; [reflexivity|]. split; [split; discriminate | discriminate].
  - split; [discriminate|]. split; [split; reflexivity | discriminate].
  - split; [reflexivity|]. split; [split; discriminate | discriminate].
Qed.

End Summary.

(** A holding of 1e308 units bought at 1e308 each: the investment
    overflows and the percentage shown is NaN. *)
Example investment_overflow :
  PortfolioForm.netGainPct
    [{| PortfolioPosition.ticker := "AAPL";
        PortfolioPosition.quantity := JS.Fin (inject_Z (10 ^ 308));
        PortfolioPosition.asset_class := Equity;
        PortfolioPosition.avg_price := Some (JS.Fin (inject_Z (10 ^ 308)));
        PortfolioPosition.purchase_date := None |}]
    (Some (JS.Fin 0))
  = JS.NaN.
Proof. vm_compute. reflexivity. Qed.

(** ** White space and letter case *)

Section Text.

Lemma is_ws_upper (c : ascii) : JS.is_ws (JS.upper c) = JS.is_ws c.
Proof. destruct c as [[] [] [] [] [] [] [] []]; reflexivity. Qed.

Lemma upper_idem (c : ascii) : JS.upper (JS.upper c) = JS.upper c.
Proof. destruct c as [[] [] [] [] [] [] [] []]; reflexivity. Qed.

Lemma toUpperCase_idem (s : string) :
  JS.toUpperCase (JS.toUpperCase s) = JS.toUpperCase s.
Proof.
  induction s as [|c s IH]; simpl; [reflexivity|].
  now rewrite upper_idem, IH.
Qed.

Lemma trimStart_toUpperCase (s : string) :
  JS.trimStart (JS.toUpperCase s) = JS.toUpperCase (JS.trimStart s).
Proof.
  induction s as [|c s IH]; simpl; [reflexivity|].
  rewrite is_ws_upper. destruct (JS.is_ws c); [exact IH | reflexivity].
Qed.

Lemma trimEnd_toUpperCase (s : string) :
  JS.trimEnd (JS.toUpperCase s) = JS.toUpperCase (JS.trimEnd s).
Proof.
  induction s as [|c s IH]; simpl; [reflexivity|].
  rewrite IH, is_ws_upper.
  destruct (JS.trimEnd s); simpl; [|reflexivity].
  destruct (JS.is_ws c); reflexivity.
Qed.

Lemma trim_toUpperCase (s : string) :
  JS.trim (JS.toUpperCase s) = JS.toUpperCase (JS.trim s).
Proof.
  unfold JS.trim. now rewrite trimStart_toUpperCase, trimEnd_toUpperCase.
Qed.

Lemma trimStart_headed (s : string) :
  ImportModal.headed (JS.trimStart s) = true.
Proof.
  induction s as [|c s IH]; simpl; [reflexivity|].
  destruct (JS.is_ws c) eqn:E; [exact IH|]. simpl. now rewrite E.
Qed.

Lemma trimStart_id (s : string) :
  ImportModal.headed s = true -> JS.trimStart s = s.
Proof.
  destruct s as [|c s]; simpl; [reflexivity|].
  now destruct (JS.is_ws c).
Qed.

Lemma trimEnd_headed (s : string) :
  ImportModal.headed s = true -> ImportModal.headed (JS.trimEnd s) = true.
Proof.
  destruct s as [|c s]; simpl; [reflexivity|]. intros Hc.
  destruct (JS.trimEnd s); simpl; [|exact Hc].
  destruct (JS.is_ws c) eqn:E; [discriminate|]. simpl. now rewrite E.
Qed.

Lemma trimEnd_idem (s : string) : JS.trimEnd (JS.trimEnd s) = JS.trimEnd s.
Proof.
  induction s as [|c s IH]; simpl; [reflexivity|].
  destruct (JS.trimEnd s) as [|d r] eqn:E.
  - destruct (JS.is_ws c) eqn:Hc; simpl; [reflexivity|]. now rewrite Hc.
  - simpl. simpl in IH. now rewrite IH.
Qed.

Lemma trim_idem (s : string) : JS.trim (JS.trim s) = JS.trim s.
Proof.
  unfold JS.trim.
  rewrite (trimStart_id (JS.trimEnd (JS.trimStart s)))
    by (apply trimEnd_headed, trimStart_headed).
  apply trimEnd_idem.
Qed.

Lemma trimStart_blank (s : string) :
  ImportModal.blank s = true -> JS.trimStart s = "".
Proof.
  induction s as [|c s IH]; simpl; [reflexivity|].
  intros H. apply andb_prop in H as [Hc Hs]. rewrite Hc. now apply IH.
Qed.

Lemma trim_blank (s : string) : ImportModal.blank s = true -> JS.trim s = "".
Proof. intros H. unfold JS.trim. now rewrite (trimStart_blank s H). Qed.

Lemma parseFloat_blank (s : string) :
  ImportModal.blank s = true -> JS.parseFloat s = JS.NaN.
Proof. intros H. unfold JS.parseFloat. now rewrite (trimStart_blank s H). Qed.

End Text.

(** ** The CSV import *)

Section Csv.

Import ImportModal.

Lemma detect_spec (names headers : list string) :
  (exists h, detect names headers = h
             /\ In h headers
             /\ In (JS.toLowerCase h) names)
  \/ (detect names headers = ""
      /\ forall h, In h headers -> ~ In (JS.toLowerCase h) names).
Proof.
  unfold detect.
  destruct (List.find
              (fun h => existsb (String.eqb (JS.toLowerCase h)) names)
              headers) as [h|] eqn:E.
  - left. exists h. apply find_some in E as [Hin Hex].
    apply existsb_exists in Hex as (n & Hn & Heq).
    apply String.eqb_eq in Heq. subst n. auto.
  - right. split; [reflexivity|]. intros h Hin Hname.
    pose proof (find_none _ _ E h Hin) as Hno. simpl in Hno.
    assert (Hyes : existsb (String.eqb (JS.toLowerCase h)) names = true).
    { apply existsb_exists. exists (JS.toLowerCase h).
      split; [exact Hname | apply String.eqb_refl]. }
    congruence.
Qed.

Lemma detect_first (names pre : list string) (h : string)
      (post : list string) :
  In (JS.toLowerCase h) names ->
  (forall x, In x pre -> ~ In (JS.toLowerCase x) names) ->
  detect names (pre ++ h :: post) = h.
Proof.
  intros Hh Hpre. unfold detect.
  induction pre as [|x pre IH]; cbn [app List.find].
  - assert (Hyes : existsb (String.eqb (JS.toLowerCase h)) names = true).
    { apply existsb_exists. exists (JS.toLowerCase h).
      split; [exact Hh | apply String.eqb_refl]. }
    now rewrite Hyes.
  - destruct (existsb (String.eqb (JS.toLowerCase x)) names) eqn:Ex.
    + exfalso. apply existsb_exists in Ex as (n & Hn & Heq).
      apply String.eqb_eq in Heq. subst n.
      apply (Hpre x); [now left | exact Hn].
    + apply IH. intros y Hy. apply Hpre. now right.
Qed.

Lemma detect_none (names headers : list string) :
  (forall h, In h headers -> ~ In (JS.toLowerCase h) names) ->
  detect names headers = "".
Proof.
  intros Hno. destruct (detect_spec names headers)
    as [(h & _ & Hin & Hn)|[E _]]; [|exact E].
  exfalso. exact (Hno h Hin Hn).
Qed.

Lemma lower_name_nonempty (h : string) (names : list string) :
  ~ In "" names -> In (JS.toLowerCase h) names -> JS.truthy h = true.
Proof.
  intros Hne Hin. destruct h; [|reflexivity]. simpl in Hin. contradiction.
Qed.

(** X5.  After a file is read without parse errors, each of the two columns
    is mapped to the first header whose lower-case name is one of the
    recognised names -- the header before which no header is recognised --
    and to the empty name when there is none.  When no header is recognised
    as the ticker column, or none as the quantity column, confirming imports
    nothing, whatever the rows: it reports that the columns must be mapped.
    When both are recognised the mapping does not stop the import. *)
Theorem unrecognised_columns_block_the_import (st : state) (r : results) :
  errors r = [] ->
  let headers := match fields r with Some f => f | None => [] end in
  let st' := complete st r in
  current st' = preview
  /\ parsedData st' = data r
  /\ ((forall h, In h headers -> ~ In (JS.toLowerCase h) tickerNames)
      \/ (forall h, In h headers -> ~ In (JS.toLowerCase h) quantityNames) ->
      fst (confirm st') = None
      /\ error (snd (confirm st'))
         = Some "Please map Ticker and Quantity columns"
      /\ current (snd (confirm st')) = preview)
  /\ ((exists h, In h headers /\ In (JS.toLowerCase h) tickerNames) ->
      (exists h, In h headers /\ In (JS.toLowerCase h) quantityNames) ->
      In (ticker (columns st')) headers
      /\ In (JS.toLowerCase (ticker (columns st'))) tickerNames
      /\ In (quantity (columns st')) headers
      /\ In (JS.toLowerCase (quantity (columns st'))) quantityNames
      /\ handleConfirm (columns st') (parsedData st')
         <> Error "Please map Ticker and Quantity columns")
  /\ (forall pre h post,
        headers = pre ++ h :: post ->
        In (JS.toLowerCase h) tickerNames ->
        (forall x, In x pre -> ~ In (JS.toLowerCase x) tickerNames) ->
        ticker (columns st') = h)
  /\ (forall pre h post,
        headers = pre ++ h :: post ->
        In (JS.toLowerCase h) quantityNames ->
        (forall x, In x pre -> ~ In (JS.toLowerCase x) quantityNames) ->
        quantity (columns st') = h)
  /\ ((forall h, In h headers -> ~ In (JS.toLowerCase h) tickerNames) ->
      ticker (columns st') = "")
  /\ ((forall h, In h headers -> ~ In (JS.toLowerCase h) quantityNames) ->
      quantity (columns st') = "").
Proof.
  intros Herr headers st'. subst st'. unfold complete. rewrite Herr.
  fold headers. cbn [current parsedData columns ticker quantity].
  split; [reflexivity|]. split; [reflexivity|].
  assert (Hfirst : forall names pre h post,
             headers = pre ++ h :: post ->
             In (JS.toLowerCase h) names ->
             (forall x, In x pre -> ~ In (JS.toLowerCase x) names) ->
             detect names headers = h).
  { intros names pre h post -> Hh Hpre. now apply detect_first. }
  split; [|split; [|split; [apply Hfirst|split; [apply Hfirst|
    split; apply detect_none]]]].
  - intros Hnone. unfold confirm, handleConfirm.
    cbn [columns parsedData ticker quantity].
    assert (Hempty : detect tickerNames headers = ""
                     \/ detect quantityNames headers = "").
    { destruct Hnone as [Ht|Hq].
      - left. destruct (detect_spec tickerNames headers)
          as [(h & _ & Hin & Hn)|[E _]]; [|exact E].
        exfalso. exact (Ht h Hin Hn).
      - right. destruct (detect_spec quantityNames headers)
          as [(h & _ & Hin & Hn)|[E _]]; [|exact E].
        exfalso. exact (Hq h Hin Hn). }
    assert (Hguard : negb (JS.truthy (detect tickerNames headers))
                     || negb (JS.truthy (detect quantityNames headers))
                     = true).
    { destruct Hempty as [-> | ->]; simpl; [reflexivity|].
      apply orb_true_r. }
    rewrite Hguard. cbn [fst snd error current]. repeat split.
  - intros (ht & Hht & Hnt) (hq & Hhq & Hnq).
    destruct (detect_spec tickerNames headers)
      as [(h & Eh & Hin & Hn)|[_ Hno]]; [|exfalso; exact (Hno ht Hht Hnt)].
    destruct (detect_spec quantityNames headers)
      as [(h' & Eh' & Hin' & Hn')|[_ Hno]];
      [|exfalso; exact (Hno hq Hhq Hnq)].
    rewrite Eh, Eh'. repeat split; auto.
    unfold handleConfirm. cbn [ticker quantity].
    assert (Ht : JS.truthy h = true).
    { apply (lower_name_nonempty h tickerNames); [|exact Hn].
      simpl. intros [H|[H|[H|[H|[]]]]]; discriminate H. }
    assert (Hq : JS.truthy h' = true).
    { apply (lower_name_nonempty h' quantityNames); [|exact Hn'].
      simpl. intros [H|[H|[H|[H|[]]]]]; discriminate H. }
    rewrite Ht, Hq. simpl.
    destruct (omap _ _); discriminate.
Qed.

Lemma omap_length {A B : Type} (f : A -> option B) (l : list A) :
  (length (omap f l) <= length l)%nat
  /\ (length (omap f l) = length l <-> Forall (fun x => f x <> None) l).
Proof.
  induction l as [|x l [Hle Hiff]]; csimpl.
  - split; [lia|]. split; [constructor | reflexivity].
  - destruct (f x) as [y|] eqn:Hx; csimpl.
    + split; [lia|]. split.
      * intros H. constructor; [congruence|]. apply Hiff. lia.
      * intros H. apply Forall_cons in H as [_ H]. f_equal. now apply Hiff.
    + split; [lia|]. split.
      * intros H. lia.
      * intros H. apply Forall_cons in H as [H _]. congruence.
Qed.

(** X6.  Every position that the import hands on is an Equity without
    purchase price or date, and its ticker is in upper case without white
    space around it.  No more positions are imported than there are rows,
    and as many exactly when every row gives a position. *)
Theorem imported_positions_are_normalised
        (m : mapping) (rows : list (gmap string string))
        (ps : list PortfolioPosition.t) :
  handleConfirm m rows = Import ps ->
  Forall (fun p =>
            PortfolioPosition.asset_class p = Equity
            /\ PortfolioPosition.avg_price p = None
            /\ PortfolioPosition.purchase_date p = None
            /\ JS.toUpperCase (PortfolioPosition.ticker p)
               = PortfolioPosition.ticker p
            /\ JS.trim (PortfolioPosition.ticker p)
               = PortfolioPosition.ticker p) ps
  /\ ps = omap (parseRow m) rows
  /\ (length ps <= length rows)%nat
  /\ (length ps = length rows
      <-> Forall (fun row => parseRow m row <> None) rows).
Proof.
  unfold handleConfirm.
  destruct (negb (JS.truthy (ticker m)) || negb (JS.truthy (quantity m)));
    [discriminate|].
  destruct (omap (parseRow m) rows) as [|p0 ps0] eqn:Hps; [discriminate|].
  intros [= <-]. rewrite <- Hps. clear Hps p0 ps0. split.
  { apply Forall_forall. intros p Hp.
    apply list_elem_of_omap in Hp as (row & _ & Hparse).
    unfold parseRow in Hparse.
    destruct (row !! ticker m) as [cell|]; simpl in Hparse; [|discriminate].
    destruct (negb (JS.truthy (JS.toUpperCase (JS.trim cell)))
              || JS.isNaN (JS.parseFloat_any (row !! quantity m)));
      [discriminate|].
    injection Hparse as <-. simpl.
    repeat split; auto using toUpperCase_idem.
    rewrite trim_toUpperCase. now rewrite trim_idem. }
  split; [reflexivity|]. apply omap_length.
Qed.

(** X7.  A row is dropped when it lacks the ticker or the quantity column
    or holds only white space there; a file in which every row is like that
    imports nothing and reports it. *)
Theorem rows_without_ticker_or_quantity_are_dropped
        (m : mapping) (rows : list (gmap string string)) :
  Forall (fun row =>
            row !! ticker m = None
            \/ (exists cell, row !! ticker m = Some cell
                             /\ blank cell = true)
            \/ row !! quantity m = None
            \/ (exists cell, row !! quantity m = Some cell
                             /\ blank cell = true)) rows ->
  Forall (fun row => parseRow m row = None) rows
  /\ exists msg, handleConfirm m rows = Error msg.
Proof.
  intros Hrows.
  assert (Hnone : Forall (fun row => parseRow m row = None) rows).
  { eapply Forall_impl; [exact Hrows|]. intros row Hrow. simpl in Hrow.
    unfold parseRow.
    destruct Hrow as [Ht|[(cell & Ht & Hb)|[Hq|(cell & Hq & Hb)]]].
    - now rewrite Ht.
    - rewrite Ht. simpl. now rewrite (trim_blank cell Hb).
    - destruct (row !! ticker m); simpl; [|reflexivity].
      rewrite Hq. simpl. now rewrite orb_true_r.
    - destruct (row !! ticker m); simpl; [|reflexivity].
      rewrite Hq. simpl. rewrite (parseFloat_blank cell Hb). simpl.
      now rewrite orb_true_r. }
  split; [exact Hnone|].
  unfold handleConfirm.
  destruct (negb (JS.truthy (ticker m)) || negb (JS.truthy (quantity m)));
    [eexists; reflexivity|].
  assert (Hempty : omap (parseRow m) rows = []).
  { clear Hrows. induction Hnone as [|row rows Hrow _ IH]; csimpl;
      [reflexivity|]. now rewrite Hrow. }
  rewrite Hempty. eexists. reflexivity.
Qed.

End Csv.

(** X5, witness: the header is (Name, Held); nothing is imported. *)
Lemma unrecognised_columns_block_the_import_witness :
  fst (ImportModal.confirm
         (ImportModal.complete Sample.closedModal Sample.unnamedColumns))
  = None.
Proof.
  destruct (unrecognised_columns_block_the_import
              Sample.closedModal Sample.unnamedColumns eq_refl)
    as (_ & _ & Hblock & _).
  apply Hblock. left. intros h [<-|[<-|[]]]; simpl;
    intros [H|[H|[H|[H|[]]]]]; discriminate H.
Defined.

(** X6, witness: the cell " tsla " is imported as TSLA. *)
Lemma imported_positions_are_normalised_witness :
  Forall (fun p => JS.trim (PortfolioPosition.ticker p)
                   = PortfolioPosition.ticker p)
         [Sample.position "TSLA" 5].
Proof.
  destruct (imported_positions_are_normalised
              Sample.columns [Sample.row " tsla " "5"]
              [Sample.position "TSLA" 5])
    as (Hall & _).
  - vm_compute. reflexivity.
  - eapply Forall_impl; [exact Hall|]. intros p (_ & _ & _ & _ & H). exact H.
Defined.

(** X7, witness: one row with a blank ticker and one with an empty
    quantity. *)
Lemma rows_without_ticker_or_quantity_are_dropped_witness :
  exists msg,
    ImportModal.handleConfirm
      Sample.columns [Sample.row "   " "5"; Sample.row "aapl" ""]
    = ImportModal.Error msg.
Proof.
  destruct (rows_without_ticker_or_quantity_are_dropped
              Sample.columns [Sample.row "   " "5"; Sample.row "aapl" ""])
    as (_ & Herr).
  - constructor; [|constructor; [|constructor]].
    + right. left. exists "   ". split; reflexivity.
    + right. right. right. exists "". split; reflexivity.
  - exact Herr.
Defined.

(** ** Comparisons of finite Numbers *)

Section Comparisons.

Local Open Scope Q_scope.

Lemma Qle_bool_false (a b : Q) : Qle_bool a b = false -> b < a.
Proof.
  intros H. apply Qnot_le_lt. intros Hle.
  apply Qle_bool_iff in Hle. congruence.
Qed.

Lemma gt_Fin (a b : Q) : JS.gt (JS.Fin a) (JS.Fin b) = true <-> b < a.
Proof.
  simpl. destruct (Qle_bool a b) eqn:E; simpl.
  - apply Qle_bool_iff in E. split; [discriminate | intros H; lra].
  - apply Qle_bool_false in E. tauto.
Qed.

Lemma ge_Fin (a b : Q) : JS.ge (JS.Fin a) (JS.Fin b) = true <-> b <= a.
Proof. unfold JS.ge. simpl. apply Qle_bool_iff. Qed.

End Comparisons.

(** Case analysis on every comparison of the goal. *)
Ltac compare_all :=
  repeat match goal with
         | |- context [Qle_bool ?a ?b] =>
             let E := fresh "E" in
             destruct (Qle_bool a b) eqn:E;
             [apply Qle_bool_iff in E | apply Qle_bool_false in E]
         end.

(** ** The correlation heatmap: repeated pairs and contrast *)

Section HeatmapCells.

Import CorrelationHeatmap.

Local Open Scope Q_scope.

Lemma corrMap_app (before after : list Correlation.t) :
  corrMap (before ++ after)
  = fold_left
      (fun m item =>
         <[key (Correlation.ticker1 item) (Correlation.ticker2 item)
           := Correlation.correlation item]> m)
      after (corrMap before).
Proof. unfold corrMap. apply fold_left_app. Qed.

Lemma lookup_Qeq (m : gmap string Q) (ticker1 ticker2 : string) (c : Q) :
  m !! key ticker1 ticker2 = Some c -> lookup m ticker1 ticker2 == c.
Proof.
  unfold lookup. intros ->. destruct (Qeq_bool c 0) eqn:E; [|reflexivity].
  apply Qeq_bool_eq in E. now rewrite E.
Qed.

(** X9.  When the matrix lists a key more than once, the cell shows the
    correlation listed last: the items before it and the items with other
    keys after it have no effect on the cell. *)
Theorem heatmap_shows_the_last_listed_correlation
        (data : CorrelationData.t) (before after : list Correlation.t)
        (item : Correlation.t) :
  CorrelationData.correlations data = before ++ item :: after ->
  ~ In (itemKey item) (map itemKey after) ->
  correlation (renderCell data (Correlation.ticker1 item)
                          (Correlation.ticker2 item))
  == Correlation.correlation item.
Proof.
  intros Hdata Hlast. unfold renderCell. cbn [correlation].
  apply lookup_Qeq. rewrite Hdata.
  change (before ++ item :: after) with (before ++ [item] ++ after).
  rewrite app_assoc, corrMap_app.
  rewrite corrMap_absent by exact Hlast.
  rewrite corrMap_app. simpl. apply lookup_insert_eq.
Qed.

(** X10.  The text of a cell contrasts with its background: the darkest
    backgrounds (correlation above 0.7, or at most -0.7) carry white text
    and the lightest ones (correlation in (-0.3, 0.3]) carry dark text; the
    text is white exactly when the correlation shown exceeds 0.5 in absolute
    value. *)
Theorem heatmap_text_contrasts_with_background
        (data : CorrelationData.t) (ticker1 ticker2 : string) :
  let c := renderCell data ticker1 ticker2 in
  (bgColor c = "bg-red-500" \/ bgColor c = "bg-blue-500" ->
   textColor c = "text-white")
  /\ (bgColor c = "bg-yellow-300" \/ bgColor c = "bg-blue-300" ->
      textColor c = "text-slate-900")
  /\ (textColor c = "text-white" <-> (1 # 2) < Qabs (correlation c)).
Proof.
  intros c. subst c. unfold renderCell. cbn [bgColor textColor correlation].
  generalize (lookup (corrMap (CorrelationData.correlations data))
                     ticker1 ticker2).
  intros q. unfold getCorrelationColor, getTextColor.
  assert (Habs : forall r, r < Qabs q <-> q < - r \/ r < q).
  { intros r. destruct (Qlt_le_dec q 0) as [Hneg|Hpos].
    - rewrite (Qabs_neg q) by lra. split; [intros; left; lra|].
      intros [H|H]; lra.
    - rewrite (Qabs_pos q) by exact Hpos. split; [intros; right; lra|].
      intros [H|H]; lra. }
  pose proof (Habs (1 # 2)) as Hhalf.
  destruct (JS.gt (JS.Fin (Qabs q)) (JS.Fin (1 # 2))) eqn:Ew.
  - apply gt_Fin in Ew. apply Hhalf in Ew. simpl. compare_all; simpl.
    all: split; [reflexivity|].
    all: split; [|split; [intros _; apply Hhalf; exact Ew | reflexivity]].
    all: intros [H|H]; try discriminate H; exfalso; lra.
  - assert (Hnot : ~ (1 # 2) < Qabs q)
      by (intros H; apply gt_Fin in H; congruence).
    assert (Hin : - (1 # 2) <= q <= 1 # 2).
    { split; apply Qnot_lt_le; intros H; apply Hnot, Hhalf; [left|right];
        lra. }
    simpl. compare_all; simpl.
    all: split; [|split; [|split; [discriminate | intros H; tauto]]].
    all: intros [H|H]; try discriminate H; try reflexivity; exfalso; lra.
Qed.

End HeatmapCells.

(** X9, witness: the pair (AAPL, MSFT) listed twice; the cell shows the
    second value. *)
Lemma heatmap_shows_the_last_listed_correlation_witness :
  (CorrelationHeatmap.correlation
     (CorrelationHeatmap.renderCell
        {| CorrelationData.tickers := ["AAPL"; "MSFT"];
           CorrelationData.correlations :=
             [Sample.correlation "AAPL" "MSFT" (4 # 5);
              Sample.correlation "AAPL" "MSFT" (1 # 5);
              Sample.correlation "MSFT" "AAPL" (3 # 5)] |}
        "AAPL" "MSFT")
   == 1 # 5)%Q.
Proof.
  apply (heatmap_shows_the_last_listed_correlation
           {| CorrelationData.tickers := ["AAPL"; "MSFT"];
              CorrelationData.correlations :=
                [Sample.correlation "AAPL" "MSFT" (4 # 5);
                 Sample.correlation "AAPL" "MSFT" (1 # 5);
                 Sample.correlation "MSFT" "AAPL" (3 # 5)] |}
           [Sample.correlation "AAPL" "MSFT" (4 # 5)]
           [Sample.correlation "MSFT" "AAPL" (3 # 5)]
           (Sample.correlation "AAPL" "MSFT" (1 # 5))).
  - reflexivity.
  - simpl. intros [H|[]]. discriminate H.
Defined.

(** ** Grading scales *)

Section Grades.

Local Open Scope Q_scope.

(** X11.  The severity label and the severity colour of a drawdown always
    go together (Low with green, Moderate with yellow, High with orange,
    Severe with red), for every Number.  On every Number other than NaN the
    current-drawdown figure is green exactly when the label would be Low;
    NaN is labelled Severe but drawn in green. *)
Theorem drawdown_label_and_colour_agree (drawdown : JS.number) :
  (DrawdownChart.getSeverityLabel drawdown = "Low"
   <-> DrawdownChart.getSeverityColor drawdown = "text-green-700")
  /\ (DrawdownChart.getSeverityLabel drawdown = "Moderate"
      <-> DrawdownChart.getSeverityColor drawdown = "text-yellow-700")
  /\ (DrawdownChart.getSeverityLabel drawdown = "High"
      <-> DrawdownChart.getSeverityColor drawdown = "text-orange-700")
  /\ (DrawdownChart.getSeverityLabel drawdown = "Severe"
      <-> DrawdownChart.getSeverityColor drawdown = "text-red-700")
  /\ (drawdown <> JS.NaN ->
      (DrawdownChart.currentColor drawdown = "text-green-700"
       <-> DrawdownChart.getSeverityLabel drawdown = "Low"))
  /\ DrawdownChart.currentColor JS.NaN = "text-green-700"
  /\ DrawdownChart.getSeverityLabel JS.NaN = "Severe".
Proof.
  unfold DrawdownChart.getSeverityLabel, DrawdownChart.getSeverityColor,
    DrawdownChart.currentColor, JS.ge, JS.lt.
  destruct drawdown as [q| | |]; simpl.
  - compare_all; simpl.
    all: repeat split; intros; try discriminate; try reflexivity.
    all: exfalso; lra.
  - repeat split; intros; try discriminate; try reflexivity. congruence.
  - repeat split; intros; try discriminate; try reflexivity.
  - repeat split; intros; try discriminate; try reflexivity.
Qed.

(** X12.  The severity of a drawdown is monotone: a deeper drawdown never
    gets a milder label. *)
Theorem deeper_drawdown_is_not_milder (a b : Q) :
  a <= b ->
  (DrawdownChart.severityRank (DrawdownChart.getSeverityLabel (JS.Fin b))
   <= DrawdownChart.severityRank
        (DrawdownChart.getSeverityLabel (JS.Fin a)))%nat.
Proof.
  intros Hab. unfold DrawdownChart.getSeverityLabel, JS.ge. simpl.
  compare_all; first [vm_compute; lia | exfalso; lra].
Qed.

(** X13.  The grade of a Sharpe or Sortino ratio is monotone: a larger
    ratio never gets a lower grade; a [null] ratio is graded as 0, that is
    Poor. *)
Theorem larger_ratio_is_not_graded_lower (a b : Q) :
  a <= b ->
  (ratioRank (PerformanceMetricsComponent.label
                (PerformanceMetricsComponent.getRatioLevel
                   (Some (JS.Fin a))))
   <= ratioRank (PerformanceMetricsComponent.label
                   (PerformanceMetricsComponent.getRatioLevel
                      (Some (JS.Fin b)))))%nat
  /\ PerformanceMetricsComponent.getRatioLevel None
     = PerformanceMetricsComponent.getRatioLevel (Some (JS.Fin 0)).
Proof.
  intros Hab. split; [|reflexivity].
  unfold PerformanceMetricsComponent.getRatioLevel. simpl.
  compare_all; simpl; first [vm_compute; lia | exfalso; lra].
Qed.


End Grades.

(** X12, witness: a drawdown of 25% against one of 7%. *)
Lemma deeper_drawdown_is_not_milder_witness :
  (DrawdownChart.severityRank
     (DrawdownChart.getSeverityLabel (JS.Fin (- (7 # 100))))
   <= DrawdownChart.severityRank
        (DrawdownChart.getSeverityLabel (JS.Fin (- (25 # 100)))))%nat.
Proof.
  apply (deeper_drawdown_is_not_milder (- (25 # 100)) (- (7 # 100))).
  discriminate.
Defined.

(** X13, witness: the ratios 0.8 and 1.2. *)
Lemma larger_ratio_is_not_graded_lower_witness :
  (ratioRank (PerformanceMetricsComponent.label
                (PerformanceMetricsComponent.getRatioLevel
                   (Some (JS.Fin (8 # 10)))))
   <= ratioRank (PerformanceMetricsComponent.label
                   (PerformanceMetricsComponent.getRatioLevel
                      (Some (JS.Fin (12 # 10))))))%nat.
Proof.
  apply (larger_ratio_is_not_graded_lower (8 # 10) (12 # 10)).
  discriminate.
Defined.


(** ** The allocation list of an optimal portfolio *)

Section Allocation.

Local Open Scope Q_scope.



End Allocation.

(** ** The allocation chart *)

Section Pie.

Local Open Scope Q_scope.

(** X16.  The slices of the allocation chart are the positions in
    non-increasing order of weight, one slice per position; every slice has
    a colour, and slices six places apart share their colour. *)
Theorem pie_slices_are_sorted_by_weight
        (positions : list PositionDetail.t) :
  exists ranked : list PositionDetail.t,
    RiskCharts.pieData positions
    = map (fun pos =>
             {| RiskCharts.slice_name := PositionDetail.ticker pos;
                RiskCharts.slice_value := PositionDetail.weight pos |})
          ranked
    /\ Permutation ranked positions
    /\ StronglySorted
         (fun a b => PositionDetail.weight b <= PositionDetail.weight a)
         ranked
    /\ length (RiskCharts.pieData positions) = length positions
    /\ (forall index : nat,
           (exists colour, Palette.fill index = Some colour
                           /\ In colour Palette.COLORS)
           /\ Palette.fill (index + 6) = Palette.fill index).
Proof.
  exists (JS.sort RiskCharts.byWeight positions).
  pose proof (sort_perm PositionDetail.weight positions) as Hperm.
  pose proof (sort_sorted PositionDetail.weight positions) as Hsorted.
  split; [reflexivity|]. split; [exact Hperm|]. split; [exact Hsorted|].
  split.
  - unfold RiskCharts.pieData. rewrite length_map.
    now apply Permutation_length.
  - intros index. unfold Palette.fill.
    change (length Palette.COLORS) with 6%nat. split.
    + pose proof (Nat.mod_upper_bound index 6) as Hlt.
      destruct (Palette.COLORS !! (index mod 6)%nat) as [colour|] eqn:E.
      * exists colour. split; [reflexivity|].
        apply list_elem_of_In. eapply list_elem_of_lookup_2. exact E.
      * apply lookup_ge_None in E. simpl in E. lia.
    + f_equal. replace (index + 6)%nat with (index + 1 * 6)%nat by lia.
      apply Nat.Div0.mod_add.
Qed.

End Pie.

(** ** Route protection *)

Section Routes.

Import Middleware.

(** X17.  The middleware never redirects twice: the target of a redirect is
    let through for the same visitor.  A visitor who is let through is
    either signed in and not on the home page, or not signed in and not on
    a portfolio route. *)
Theorem middleware_redirects_at_most_once
        (isLoggedIn : bool) (pathname : string) :
  match middleware isLoggedIn pathname with
  | Redirect target =>
      middleware isLoggedIn target = Next /\ target <> pathname
  | Next =>
      if isLoggedIn then pathname <> "/"
      else JS.startsWith pathname "/portfolio" = false
  end.
Proof.
  unfold middleware.
  destruct (String.eqb pathname "/") eqn:Ehome.
  - apply String.eqb_eq in Ehome. subst pathname.
    destruct isLoggedIn; simpl.
    + split; [reflexivity | discriminate].
    + reflexivity.
  - apply String.eqb_neq in Ehome.
    destruct isLoggedIn; simpl.
    + rewrite Bool.andb_false_r. exact Ehome.
    + rewrite Bool.andb_true_r.
      destruct (JS.startsWith pathname "/portfolio") eqn:Eroute.
      * split; [reflexivity | congruence].
      * reflexivity.
Qed.

End Routes.

(** ** Saving a portfolio *)

Section Saving.

Import SavePortfolioModal.

(** X18.  Submitting the save form calls [onSave] at most once, and not at
    all when the name is blank; the call carries the name and description
    as typed, untrimmed.  The modal closes exactly when [onSave] was called
    and returned, and then the form is cleared and no error box is shown.
    Whenever it stays open the text typed is kept and the error box shows
    the message: that a name is required, the message of the Error that
    [onSave] threw, or that the save failed -- unless [onSave] threw an
    Error with an empty message, the one case in which the modal stays open
    without an error box.  The form is never left in the loading state by a
    submission that called [onSave]. *)
Theorem save_closes_only_after_a_successful_call
        (onSave : string -> string -> saved) (st : state) :
  let r := handleSubmit onSave st in
  (calls r = [] \/ calls r = [(name st, description st)])
  /\ (calls r = [] <-> JS.trim (name st) = "")
  /\ (closed r = true
      <-> JS.trim (name st) <> ""
          /\ onSave (name st) (description st) = Returned)
  /\ (closed r = true ->
      after r = {| name := ""; description := ""; loading := false;
                   error := None |}
      /\ errorBox (after r) = None)
  /\ (closed r = false ->
      error (after r) <> None
      /\ name (after r) = name st
      /\ description (after r) = description st
      /\ exists message,
           error (after r) = Some message
           /\ message
              = (if negb (JS.truthy (JS.trim (name st)))
                 then "Portfolio name is required"
                 else match onSave (name st) (description st) with
                      | ThrewError thrown => thrown
                      | _ => "Failed to save portfolio"
                      end)
           /\ (message <> "" -> errorBox (after r) = Some message)
           /\ (message = "" -> errorBox (after r) = None))
  /\ (closed r = false ->
      (errorBox (after r) = None
       <-> JS.trim (name st) <> ""
           /\ onSave (name st) (description st) = ThrewError ""))
  /\ (calls r <> [] -> loading (after r) = false).
Proof.
  intros r. subst r. unfold handleSubmit, errorBox.
  destruct (JS.trim (name st)) as [|c rest] eqn:Etrim; simpl.
  - split; [auto|]. split; [tauto|]. split; [split; [discriminate|tauto]|].
    split; [discriminate|]. split; [|split].
    + intros _. split; [discriminate|]. split; [reflexivity|].
      split; [reflexivity|]. eexists. split; [reflexivity|].
      split; [reflexivity|]. split; [reflexivity | discriminate].
    + intros _. split; [discriminate|]. intros [H _]. now destruct H.
    + intros H. now destruct H.
  - destruct (onSave (name st) (description st)) as [|thrown|] eqn:Esave;
      simpl.
    + split; [auto|]. split; [split; discriminate|].
      split; [split; [intros _; split; [discriminate | reflexivity]
                     | reflexivity]|].
      split; [intros _; split; reflexivity|].
      split; [discriminate|]. split; [discriminate | reflexivity].
    + split; [auto|]. split; [split; discriminate|].
      split; [split; [discriminate | intros [_ H]; discriminate H]|].
      split; [discriminate|]. split; [|split; [|reflexivity]].
      * intros _. split; [discriminate|]. split; [reflexivity|].
        split; [reflexivity|]. exists thrown. split; [reflexivity|].
        split; [reflexivity|].
        destruct thrown; split; intros H; try reflexivity;
          try discriminate H; now destruct H.
      * intros _. destruct thrown; simpl; split.
        -- intros _. split; [discriminate | reflexivity].
        -- reflexivity.
        -- discriminate.
        -- intros [_ H]. discriminate H.
    + split; [auto|]. split; [split; discriminate|].
      split; [split; [discriminate | intros [_ H]; discriminate H]|].
      split; [discriminate|]. split; [|split; [|reflexivity]].
      * intros _. split; [discriminate|]. split; [reflexivity|].
        split; [reflexivity|]. eexists. split; [reflexivity|].
        split; [reflexivity|]. split; [reflexivity | discriminate].
      * intros _. split; [discriminate|]. intros [_ H]. discriminate H.
Qed.

End Saving.

(** ** The backtest chart *)

Section Backtest.

Import BacktestChart.

Local Open Scope Q_scope.

Lemma final_last (series : list Q) (v : Q) :
  final (series ++ [v]) = Some v.
Proof.
  unfold final, JS.at_index. rewrite length_app. simpl.
  destruct (Z.of_nat (length series + 1) - 1 <? 0)%Z eqn:E;
    [apply Z.ltb_lt in E; lia|].
  replace (Z.to_nat (Z.of_nat (length series + 1) - 1)) with (length series)
    by lia.
  rewrite lookup_app_r by lia. now rewrite Nat.sub_diag.
Qed.

(** X19.  The chart has one point per date; a point carries the portfolio
    and benchmark values at its index, if there are any.  The total-return
    label follows the last portfolio value v against the initial 10000:
    above it the label starts with a plus sign and is green, below it the
    label starts with a minus sign and is red, and at 10000 it reads 0.0%
    in green.  For an empty series the label reads NaN% in red. *)
Theorem backtest_label_follows_the_final_value (d : data) :
  length (chartData d) = length (dates d)
  /\ (forall (i : nat) (pt : point),
         chartData d !! i = Some pt ->
         dates d !! i = Some (date pt)
         /\ Portfolio pt = portfolio d !! i
         /\ Benchmark pt = benchmark d !! i)
  /\ (portfolio d = [] ->
      returnLabel d = "NaN%" /\ returnColor d = "text-red-600")
  /\ (forall (earlier : list Q) (v : Q),
         portfolio d = earlier ++ [v] ->
         (10000 < v ->
          JS.startsWith (returnLabel d) "+" = true
          /\ returnColor d = "text-green-600")
         /\ (v == 10000 ->
             returnLabel d = "0.0%" /\ returnColor d = "text-green-600")
         /\ (v < 10000 ->
             JS.startsWith (returnLabel d) "-" = true
             /\ returnColor d = "text-red-600")).
Proof.
  split; [unfold chartData; apply length_imap|].
  split.
  { intros i pt. unfold chartData. rewrite list_lookup_imap.
    destruct (dates d !! i) as [date0|]; simpl; [|discriminate].
    intros [= <-]. simpl. auto. }
  split.
  { unfold returnLabel, returnColor, totalReturn. intros ->.
    split; reflexivity. }
  intros earlier v Hv. unfold returnLabel, returnColor, totalReturn.
  rewrite Hv, final_last.
  set (r := (v - 10000) / 10000 * 100).
  assert (Hr : r == (v - 10000) * (1 # 100)) by (subst r; field).
  clearbody r.
  split; [|split].
  - intros Hgt. assert (H0 : 0 < r) by (rewrite Hr; lra).
    assert (E1 : JS.gt (JS.Fin r) (JS.Fin 0) = true) by now apply gt_Fin.
    assert (E2 : JS.ge (JS.Fin r) (JS.Fin 0) = true)
      by (apply ge_Fin; lra).
    rewrite E1, E2. split; reflexivity.
  - intros Heq. assert (H0 : r == 0) by (rewrite Hr, Heq; reflexivity).
    assert (E1 : JS.gt (JS.Fin r) (JS.Fin 0) = false).
    { destruct (JS.gt (JS.Fin r) (JS.Fin 0)) eqn:E; [|reflexivity].
      apply gt_Fin in E. lra. }
    assert (E2 : JS.ge (JS.Fin r) (JS.Fin 0) = true)
      by (apply ge_Fin; lra).
    rewrite E1, E2, (toFixed_Qeq r 0 1 H0). split; reflexivity.
  - intros Hlt. assert (H0 : r < 0) by (rewrite Hr; lra).
    assert (E1 : JS.gt (JS.Fin r) (JS.Fin 0) = false).
    { destruct (JS.gt (JS.Fin r) (JS.Fin 0)) eqn:E; [|reflexivity].
      apply gt_Fin in E. lra. }
    assert (E2 : JS.ge (JS.Fin r) (JS.Fin 0) = false).
    { destruct (JS.ge (JS.Fin r) (JS.Fin 0)) eqn:E; [|reflexivity].
      apply ge_Fin in E. lra. }
    assert (E3 : Qle_bool 0 r = false).
    { destruct (Qle_bool 0 r) eqn:E; [|reflexivity].
      apply Qle_bool_iff in E. lra. }
    rewrite E1, E2. split; [|reflexivity].
    unfold JS.toFixed. rewrite E3. reflexivity.
Qed.

End Backtest.

(** ** The holdings table *)

Section Holdings.

Import HoldingsTable.

Local Open Scope Q_scope.

Lemma plColor_green (pos : PositionDetail.t) :
  plColor pos = "text-green-600"
  <-> exists x, PositionDetail.unrealized_pl pos = Some x /\ 0 < x.
Proof.
  unfold plColor, isProfit.
  destruct (PositionDetail.unrealized_pl pos) as [x|].
  - destruct (Qeq_bool x 0) eqn:E0.
    + apply Qeq_bool_eq in E0.
      split; [discriminate | intros (y & [= <-] & Hy); lra].
    + destruct (JS.gt (JS.Fin x) (JS.Fin 0)) eqn:Egt.
      * apply gt_Fin in Egt. split; [intros _; exists x; auto | reflexivity].
      * split; [discriminate|]. intros (y & [= <-] & Hy).
        apply gt_Fin in Hy. congruence.
  - split; [discriminate | intros (y & H & _); discriminate H].
Qed.

Lemma plColor_red (pos : PositionDetail.t) :
  plColor pos = "text-red-600"
  <-> exists x, PositionDetail.unrealized_pl pos = Some x /\ x < 0.
Proof.
  unfold plColor, isProfit.
  destruct (PositionDetail.unrealized_pl pos) as [x|].
  - destruct (Qeq_bool x 0) eqn:E0.
    + apply Qeq_bool_eq in E0.
      split; [discriminate | intros (y & [= <-] & Hy); lra].
    + apply Qeq_bool_neq in E0.
      destruct (JS.gt (JS.Fin x) (JS.Fin 0)) eqn:Egt.
      * apply gt_Fin in Egt.
        split; [discriminate | intros (y & [= <-] & Hy); lra].
      * split; [intros _; exists x; split; [reflexivity|] | reflexivity].
        assert (Hle : x <= 0).
        { apply Qnot_lt_le. intros H. apply gt_Fin in H. congruence. }
        apply Qle_lteq in Hle as [H|H]; [exact H | contradiction].
  - split; [discriminate | intros (y & H & _); discriminate H].
Qed.

(** X20.  In the holdings table the gain colour is green exactly for a
    positive unrealized P/L and red exactly for a negative one; a missing
    or zero P/L is grey.  The Return % cell is a dash exactly without a cost
    basis.  With one, the up-trend icon is shown exactly when the colour is
    green, so a position that broke even is grey with the down-trend icon;
    the cell prints unrealized_pl_pct itself, up to the rounding of the
    division and the multiplication by 100, to two decimals, and it prints
    NaN% when that field is absent and 0.00% when it is null. *)
Theorem holdings_gain_colour_and_icon (pos : PositionDetail.t) :
  (plColor pos = "text-green-600"
   <-> exists x, PositionDetail.unrealized_pl pos = Some x /\ 0 < x)
  /\ (plColor pos = "text-red-600"
      <-> exists x, PositionDetail.unrealized_pl pos = Some x /\ x < 0)
  /\ (returnCell pos = None <-> PositionDetail.avg_price pos = None)
  /\ (forall (i : icon) (text : string),
         returnCell pos = Some (i, text) ->
         (i = TrendingUp <-> plColor pos = "text-green-600")
         /\ (PositionDetail.unrealized_pl_pct pos = JS.Absent ->
             text = "NaN%")
         /\ (PositionDetail.unrealized_pl_pct pos = JS.Null ->
             text = "0.00%")
         /\ (forall x,
                PositionDetail.unrealized_pl_pct pos = JS.Present x ->
                Qabs x <= 2 ^ 1000 ->
                exists y,
                  text = JS.toFixed (JS.Fin y) 2 +:+ "%"
                  /\ Qabs (y - x)
                     <= Qabs x * (1 # 2251799813685248) + 102 * JS.tiny)).
Proof.
  split; [apply plColor_green|]. split; [apply plColor_red|].
  unfold returnCell, hasCostBasis.
  destruct (PositionDetail.avg_price pos) as [a|];
    [|split; [split; reflexivity | discriminate]].
  split; [split; discriminate|].
  intros i text [= <- <-]. split; [|split; [|split]].
  - unfold plColor. destruct (isProfit pos) as [[|]|];
      split; first [reflexivity | discriminate].
  - intros ->. reflexivity.
  - intros ->. vm_compute. reflexivity.
  - intros x -> Hx. cbn [JS.numberOf].
    destruct (hundredth_times_100 x Hx) as (y & Hy & Hb).
    exists y. split; [|exact Hb]. unfold formatPercent. now rewrite Hy.
Qed.

End Holdings.

(** ** Saving to and loading from the cloud *)

Section Cloud.

Import PortfolioPage.

Context {RiskOutput : Type}.

(** X21.  Submitting the save modal on the page never changes the
    positions, and sends a request exactly when the visitor has a session
    token and the name is not blank.  Without a token a non-blank name
    raises the alert, but the modal is closed and its form cleared as after
    a successful save, and the active portfolio stays as it was.  With a
    token the request carries the name and description as typed and the
    positions of the page; when the server accepts it the page switches to
    the saved portfolio and the modal closes, and when it fails the page is
    unchanged and the modal stays open showing the error with the name
    kept. *)
Theorem save_without_session_closes_the_modal
        (token : option string) (response : Api.fetched StoredPortfolio.t)
        (st : state RiskOutput) (modal : SavePortfolioModal.state) :
  let f := submitSave token response st modal in
  positions (pageAfter f) = positions st
  /\ (flowRequests f <> []
      <-> Api.usable token <> None
          /\ JS.trim (SavePortfolioModal.name modal) <> "")
  /\ (JS.trim (SavePortfolioModal.name modal) <> "" ->
      Api.usable token = None ->
      flowAlerts f = ["You must be logged in to save portfolios."]
      /\ isSaveOpen (pageAfter f) = false
      /\ modalAfter f
         = {| SavePortfolioModal.name := "";
              SavePortfolioModal.description := "";
              SavePortfolioModal.loading := false;
              SavePortfolioModal.error := None |}
      /\ activePortfolioId (pageAfter f) = activePortfolioId st
      /\ currentPortfolioName (pageAfter f) = currentPortfolioName st)
  /\ (forall t : string,
         JS.trim (SavePortfolioModal.name modal) <> "" ->
         Api.usable token = Some t ->
         flowRequests f
         = [{| saveName := SavePortfolioModal.name modal;
               saveDescription := SavePortfolioModal.description modal;
               savePositions := positions st;
               saveToken := t |}]
         /\ match Api.savePortfolio response with
            | Api.Fulfilled saved =>
                activePortfolioId (pageAfter f)
                = Some (StoredPortfolio.id saved)
                /\ currentPortfolioName (pageAfter f)
                   = Some (StoredPortfolio.name saved)
                /\ isSaveOpen (pageAfter f) = false
                /\ SavePortfolioModal.error (modalAfter f) = None
            | Api.Thrown message =>
                pageAfter f = st
                /\ SavePortfolioModal.error (modalAfter f) = Some message
                /\ SavePortfolioModal.name (modalAfter f)
                   = SavePortfolioModal.name modal
            end).
Proof.
  intros f. subst f.
  unfold submitSave, SavePortfolioModal.handleSubmit, handleSaveNew.
  destruct (JS.trim (SavePortfolioModal.name modal)) as [|c rest] eqn:Etrim;
    cbn [JS.truthy negb].
  - cbn. split; [reflexivity|]. split; [|split].
    + split; [intros H; now destruct H | intros [_ H]; now destruct H].
    + intros H. now destruct H.
    + intros t H. now destruct H.
  - destruct (Api.usable token) as [t|] eqn:Etoken.
    + destruct (Api.savePortfolio response) as [saved|message] eqn:Esave;
        cbn.
      * split; [reflexivity|]. split; [split; [split|]; discriminate|].
        split; [intros _ H; discriminate H|].
        intros t' _ [= <-]. split; [reflexivity|]. auto.
      * split; [reflexivity|]. split; [split; [split|]; discriminate|].
        split; [intros _ H; discriminate H|].
        intros t' _ [= <-]. split; [reflexivity|]. auto.
    + cbn. split; [reflexivity|].
      split; [split; [intros H; now destruct H | intros [H _]; now destruct H]|].
      split; [intros _ _; auto|].
      intros t' _ H. discriminate H.
Qed.

(** X22.  Loading a stored portfolio from the cloud modal replaces the
    positions of the page by the stored ones, discards the previous
    analysis, makes the stored portfolio the active one and closes the
    modal.  When the request fails, or there is no session token, the page
    is left as it was; a failed request shows an error in the modal and no
    portfolio is left marked as loading. *)
Theorem cloud_load_replaces_the_positions
        (token : option string) (response : Api.fetched StoredPortfolio.t)
        (st : state RiskOutput) (modal : CloudLoadModal.state) (id : Z) :
  let r := loadFromCloud token response st modal id in
  CloudLoadModal.portfolios (snd r) = CloudLoadModal.portfolios modal
  /\ match Api.usable token with
     | None => r = (st, modal)
     | Some _ =>
         CloudLoadModal.loadingId (snd r) = None
         /\ match Api.getPortfolio response with
            | Api.Fulfilled detailed =>
                positions (fst r) = StoredPortfolio.positions detailed
                /\ riskData (fst r) = None
                /\ activePortfolioId (fst r)
                   = Some (StoredPortfolio.id detailed)
                /\ currentPortfolioName (fst r)
                   = Some (StoredPortfolio.name detailed)
                /\ isCloudLoadOpen (fst r) = false
                /\ CloudLoadModal.error (snd r) = CloudLoadModal.error modal
            | Api.Thrown _ =>
                fst r = st
                /\ CloudLoadModal.error (snd r)
                   = Some "Failed to load portfolio details"
            end
     end.
Proof.
  intros r. subst r. unfold loadFromCloud, CloudLoadModal.handleLoad.
  destruct (Api.usable token) as [t|].
  - destruct (Api.getPortfolio response) as [detailed|message]; cbn; auto 10.
  - cbn. auto.
Qed.

(** X23.  Deleting from the cloud list sends a request only with a session
    token and after the confirmation.  When the request succeeds, exactly
    the entries with the chosen id leave the list and the others keep their
    order; in every other case the list is unchanged, and a failed request
    raises an alert. *)
Theorem delete_removes_only_the_chosen_portfolio
        {A : Type} (token : option string) (confirmed : bool)
        (response : Api.fetched A) (modal : CloudLoadModal.state) (id : Z) :
  let r := CloudLoadModal.handleDelete token confirmed response modal id in
  (CloudLoadModal.deleteRequests r = []
   <-> Api.usable token = None \/ confirmed = false)
  /\ match CloudLoadModal.deleteRequests r, Api.deletePortfolio response with
     | _ :: _, Api.Fulfilled _ =>
         CloudLoadModal.alerts r = []
         /\ (forall p,
                In p (CloudLoadModal.portfolios (CloudLoadModal.afterDelete r))
                <-> In p (CloudLoadModal.portfolios modal)
                    /\ PortfolioSummary.id p <> id)
         /\ (forall before p after,
                CloudLoadModal.portfolios modal = before ++ p :: after ->
                PortfolioSummary.id p = id ->
                ~ In id (map PortfolioSummary.id (before ++ after)) ->
                CloudLoadModal.portfolios (CloudLoadModal.afterDelete r)
                = before ++ after)
     | _ :: _, Api.Thrown _ =>
         CloudLoadModal.afterDelete r = modal
         /\ CloudLoadModal.alerts r = ["Failed to delete portfolio"]
     | [], _ =>
         CloudLoadModal.afterDelete r = modal /\ CloudLoadModal.alerts r = []
     end.
Proof.
  intros r. subst r. unfold CloudLoadModal.handleDelete.
  destruct (Api.usable token) as [t|].
  - destruct confirmed.
    + destruct (Api.deletePortfolio response) as [a|message]; cbn.
      * split; [split; [discriminate | intros [H|H]; discriminate H]|].
        split; [reflexivity|]. split.
        -- intros p. rewrite filter_In, Bool.negb_true_iff, Z.eqb_neq.
           reflexivity.
        -- intros before p after Hl Hp Hrest. rewrite Hl.
           assert (Hkeep : forall l,
                      ~ In id (map PortfolioSummary.id l) ->
                      List.filter
                        (fun q => negb (PortfolioSummary.id q =? id)%Z) l
                      = l).
           { induction l as [|q l IH]; [reflexivity|]. simpl. intros Hq.
             destruct (Z.eqb_spec (PortfolioSummary.id q) id) as [E|E];
               [exfalso; apply Hq; now left|].
             simpl. f_equal. apply IH. tauto. }
           rewrite map_app, in_app_iff in Hrest.
           rewrite List.filter_app. simpl.
           destruct (Z.eqb_spec (PortfolioSummary.id p) id) as [E|E];
             [|contradiction].
           simpl. rewrite !Hkeep by tauto. reflexivity.
      * split; [split; [discriminate | intros [H|H]; discriminate H]|].
        split; reflexivity.
    + cbn. split; [split; auto|]. destruct (Api.deletePortfolio response);
        split; reflexivity.
  - cbn. split; [split; auto|]. destruct (Api.deletePortfolio response);
      split; reflexivity.
Qed.

(** X24.  Pressing Analyze always ends on the analytics tab and never
    changes the positions.  With no positions nothing is requested and the
    banner asks for a position.  Otherwise one request is made for the
    selected period and the page is not left loading: a successful analysis
    replaces the results and leaves no banner; after a failed one the
    results of the previous analysis stay on display, under a banner with
    the message of the failure -- or under no banner at all when that
    message is empty. *)
Theorem analyze_keeps_previous_results_on_failure
        (st : state RiskOutput) (a : attempt) :
  let r := handleAnalyze st a in
  activeTab (fst r) = analytics
  /\ positions (fst r) = positions st
  /\ (snd r = None <-> positions st = [])
  /\ (positions st = [] ->
      error (fst r) = Some "Please add at least one position"
      /\ banner (fst r) = Some "Please add at least one position"
      /\ riskData (fst r) = riskData st
      /\ loading (fst r) = loading st)
  /\ (positions st <> [] ->
      (exists body, snd r = Some (selectedPeriod st, body)
                    /\ tickers body = tickers (positions st))
      /\ loading (fst r) = false
      /\ match a with
         | Received data =>
             riskData (fst r) = Some data
             /\ error (fst r) = None
             /\ banner (fst r) = None
             /\ shown (fst r) = Results data
         | Failed message =>
             riskData (fst r) = riskData st
             /\ error (fst r) = Some message
             /\ (message <> "" -> banner (fst r) = Some message)
             /\ (message = "" -> banner (fst r) = None)
             /\ shown (fst r)
                = match riskData st with
                  | Some previous => Results previous
                  | None => Placeholder
                  end
         end).
Proof.
  intros r. subst r.
  unfold handleAnalyze, analyzePortfolio, PortfolioAnalysis.analyzePortfolio,
    shown, banner.
  destruct (positions st) as [|p ps] eqn:Epos; cbn.
  - split; [reflexivity|]. split; [reflexivity|].
    split; [tauto|]. split; [auto|]. intros H. now destruct H.
  - split; [reflexivity|]. split; [reflexivity|].
    split; [split; discriminate|]. split; [discriminate|]. intros _.
    split.
    + eexists. split; [reflexivity|]. unfold tickers. cbn. f_equal.
      rewrite map_map. reflexivity.
    + split; [reflexivity|]. destruct a as [data|message]; [auto|].
      split; [reflexivity|]. split; [reflexivity|].
      destruct message; repeat split; intros H; try reflexivity;
        try discriminate H; now destruct H.
Qed.

End Cloud.

(** ** The rows of the position list *)

Section Rows.

Local Open Scope Q_scope.

Lemma riskPositionsMap_absent (l : list PositionDetail.t)
      (m : gmap string PositionDetail.t) (k : string) :
  ~ In k (map PositionDetail.ticker l) ->
  fold_left (fun m p => <[PositionDetail.ticker p := p]> m) l m !! k
  = m !! k.
Proof.
  revert m. induction l as [|p l IH]; intros m Hk; [reflexivity|].
  simpl in *. rewrite IH by tauto.
  apply lookup_insert_ne. intros E. apply Hk. now left.
Qed.

(** X25.  A row of the position list shows the risk data that the analysis
    lists last for the ticker of the row: earlier entries for the same
    ticker and entries for other tickers have no effect, so rows that share
    a ticker show the same figures.  Without an analysis a row has no risk
    data. *)
Theorem row_shows_the_last_analysis_of_its_ticker
        (before after : list PositionDetail.t) (detail : PositionDetail.t)
        (position other : PortfolioPosition.t) :
  PositionDetail.ticker detail = PortfolioPosition.ticker position ->
  ~ In (PortfolioPosition.ticker position)
       (map PositionDetail.ticker after) ->
  PositionRow.riskPos (Some (before ++ detail :: after)) position
  = Some detail
  /\ (PortfolioPosition.ticker other = PortfolioPosition.ticker position ->
      PositionRow.riskPos (Some (before ++ detail :: after)) other
      = Some detail)
  /\ PositionRow.riskPos None position = None.
Proof.
  intros Hticker Hlast.
  assert (H : PositionRow.riskPositionsMap (before ++ detail :: after)
              !! PortfolioPosition.ticker position = Some detail).
  { unfold PositionRow.riskPositionsMap. rewrite fold_left_app. simpl.
    rewrite riskPositionsMap_absent by exact Hlast.
    rewrite Hticker. apply lookup_insert_eq. }
  split; [exact H|]. split; [|reflexivity].
  intros Hother. unfold PositionRow.riskPos. now rewrite Hother.
Qed.

(** X26.  The position list and the holdings table colour the same
    unrealized P/L alike only when it is not zero: both are green exactly
    for a positive P/L, but for a missing or zero P/L the position list
    prints its dash in red where the holdings table uses grey.  The figure
    of the position list carries a plus sign exactly when it is green. *)
Theorem row_and_table_colours_differ_at_zero (riskPos : PositionDetail.t) :
  (PositionRow.plColor riskPos = "text-green-600"
   <-> HoldingsTable.plColor riskPos = "text-green-600")
  /\ (PositionRow.plText riskPos = None
      <-> HoldingsTable.plColor riskPos = "text-slate-400")
  /\ (PositionRow.plText riskPos = None ->
      PositionRow.plColor riskPos = "text-red-600")
  /\ (forall text, PositionRow.plText riskPos = Some text ->
                   (JS.startsWith text "+" = true
                    <-> PositionRow.plColor riskPos = "text-green-600")
                   /\ PositionRow.plColor riskPos
                      = HoldingsTable.plColor riskPos).
Proof.
  unfold PositionRow.plColor, PositionRow.plText, HoldingsTable.plColor,
    HoldingsTable.isProfit.
  destruct (PositionDetail.unrealized_pl riskPos) as [x|].
  - destruct (Qeq_bool x 0) eqn:E0; cbn [negb andb].
    + repeat split; intros; try discriminate; try reflexivity.
    + apply Qeq_bool_neq in E0.
      destruct (JS.ge (JS.Fin x) (JS.Fin 0)) eqn:Ege.
      * apply ge_Fin in Ege.
        assert (Egt : JS.gt (JS.Fin x) (JS.Fin 0) = true).
        { apply gt_Fin. apply Qle_lteq in Ege as [H|H]; [exact H|].
          exfalso. apply E0. now rewrite H. }
        rewrite Egt.
        split; [split; reflexivity|]. split; [split; discriminate|].
        split; [discriminate|]. intros text [= <-].
        split; [split; reflexivity | reflexivity].
      * assert (Hneg : x < 0).
        { apply Qnot_le_lt. intros H. apply ge_Fin in H. congruence. }
        assert (Egt : JS.gt (JS.Fin x) (JS.Fin 0) = false).
        { destruct (JS.gt (JS.Fin x) (JS.Fin 0)) eqn:E; [|reflexivity].
          apply gt_Fin in E. lra. }
        rewrite Egt.
        split; [split; discriminate|]. split; [split; discriminate|].
        split; [discriminate|]. intros text [= <-].
        split; [|reflexivity]. split; [|discriminate].
        unfold JS.toFixed.
        assert (E3 : Qle_bool 0 x = false).
        { destruct (Qle_bool 0 x) eqn:E; [|reflexivity].
          apply Qle_bool_iff in E. lra. }
        rewrite E3. discriminate.
  - repeat split; intros; try discriminate; try reflexivity.
Qed.

End Rows.

(** X25, witness: the analysis lists AAPL twice; the rows for AAPL show the
    second entry. *)
Lemma row_shows_the_last_analysis_of_its_ticker_witness :
  PositionRow.riskPos
    (Some [Sample.detail "AAPL" 150 None;
           Sample.detail "AAPL" 151 (Some 12%Q);
           Sample.detail "MSFT" 300 None])
    (Sample.position "AAPL" 100)
  = Some (Sample.detail "AAPL" 151 (Some 12%Q)).
Proof.
  destruct (row_shows_the_last_analysis_of_its_ticker
              [Sample.detail "AAPL" 150 None]
              [Sample.detail "MSFT" 300 None]
              (Sample.detail "AAPL" 151 (Some 12%Q))
              (Sample.position "AAPL" 100) (Sample.position "AAPL" 5))
    as (Hrow & _).
  - reflexivity.
  - simpl. intros [H|[]]. discriminate H.
  - exact Hrow.
Defined.
